(** * givilsta: the whitelist rule engine

    A shallow embedding of the rule engine of givilsta
    ([internal/ruler]: the transformer and the checker, and the line
    helpers of [pkg/givilsta]) together with the properties its
    specification states about it.

    Go strings are byte strings: they are modelled as [string], one
    [ascii] per byte, so that a string literal of this file denotes the
    bytes of its UTF-8 encoding, exactly as a Go literal does.  The maps
    [map[string][]string] of the engine are [gmap string (list string)].
    The logger is left out: it never influences a result.  *)

From Stdlib Require Import ZArith NArith String Ascii List Lia Permutation.
From stdpp Require Import gmap strings list fin_maps.

Local Open Scope string_scope.
Local Open Scope list_scope.

(** ** The [unicode/utf8] package *)

Module utf8.

Definition RuneError : N := 0xFFFD%N.

Definition byte_at (i : nat) (s : string) : N :=
  match String.get i s with
  | Some c => N_of_ascii c
  | None => 0%N
  end.

Definition between (lo hi b : N) : bool := ((lo <=? b) && (b <=? hi))%N.

(** A continuation byte, [10xxxxxx]. *)
Definition cont (b : N) : bool := between 0x80 0xBF b.

(** [utf8.DecodeRuneInString]: the first rune of [s] and its width in
    bytes; an invalid or truncated encoding decodes to [RuneError] of
    width 1, the empty string to [RuneError] of width 0. *)
Definition DecodeRuneInString (s : string) : N * nat :=
  match s with
  | "" => (RuneError, 0)
  | String c0 _ =>
    let b0 := N_of_ascii c0 in
    let b1 := byte_at 1 s in
    let b2 := byte_at 2 s in
    let b3 := byte_at 3 s in
    if (b0 <? 0x80)%N then (b0, 1)
    else if between 0xC2 0xDF b0 then
      if cont b1 then (((b0 - 0xC0) * 64 + (b1 - 0x80))%N, 2)
      else (RuneError, 1)
    else if between 0xE0 0xEF b0 then
      let lo := if (b0 =? 0xE0)%N then 0xA0%N else 0x80%N in
      let hi := if (b0 =? 0xED)%N then 0x9F%N else 0xBF%N in
      if between lo hi b1 && cont b2
      then (((b0 - 0xE0) * 4096 + (b1 - 0x80) * 64 + (b2 - 0x80))%N, 3)
      else (RuneError, 1)
    else if between 0xF0 0xF4 b0 then
      let lo := if (b0 =? 0xF0)%N then 0x90%N else 0x80%N in
      let hi := if (b0 =? 0xF4)%N then 0x8F%N else 0xBF%N in
      if between lo hi b1 && cont b2 && cont b3
      then (((b0 - 0xF0) * 262144 + (b1 - 0x80) * 4096
             + (b2 - 0x80) * 64 + (b3 - 0x80))%N, 4)
      else (RuneError, 1)
    else (RuneError, 1)
  end.

Fixpoint take (n : nat) (s : string) : string :=
  match n, s with
  | S k, String c s' => String c (take k s')
  | _, _ => ""
  end.

Fixpoint drop (n : nat) (s : string) : string :=
  match n, s with
  | S k, String _ s' => drop k s'
  | _, _ => s
  end.

(** The runes of a string in order, each with the bytes it was decoded
    from ([for _, r := range s]).  [skip] counts the bytes of the
    current rune still to be passed over. *)
Fixpoint runes_from (skip : nat) (s : string) : list (N * string) :=
  match s with
  | "" => []
  | String _ s' =>
    match skip with
    | S k => runes_from k s'
    | O =>
      let '(r, w) := DecodeRuneInString s in
      (r, take w s) :: runes_from (w - 1) s'
    end
  end.

Definition runes (s : string) : list (N * string) := runes_from 0 s.

Definition RuneCountInString (s : string) : nat := length (runes s).

Definition byte (b : N) : string := String (ascii_of_N b) "".

(** [utf8.AppendRune]: surrogates and values above U+10FFFF are
    encoded as [RuneError]. *)
Definition EncodeRune (r : N) : string :=
  let r := if (between 0xD800 0xDFFF r || (0x10FFFF <? r))%N
           then RuneError else r in
  if (r <? 0x80)%N then byte r
  else if (r <? 0x800)%N then
    byte (0xC0 + r / 64) +:+ byte (0x80 + r mod 64)
  else if (r <? 0x10000)%N then
    byte (0xE0 + r / 4096) +:+ byte (0x80 + (r / 64) mod 64)
    +:+ byte (0x80 + r mod 64)
  else
    byte (0xF0 + r / 262144) +:+ byte (0x80 + (r / 4096) mod 64)
    +:+ byte (0x80 + (r / 64) mod 64) +:+ byte (0x80 + r mod 64).

End utf8.

(** ** The [unicode] package, as far as the engine uses it *)

Module unicode.

(** [unicode.IsSpace]: the runes with the White_Space property. *)
Definition IsSpace (r : N) : bool :=
  (utf8.between 0x09 0x0D r || (r =? 0x20) || (r =? 0x85) || (r =? 0xA0)
   || (r =? 0x1680) || utf8.between 0x2000 0x200A r || (r =? 0x2028)
   || (r =? 0x2029) || (r =? 0x202F) || (r =? 0x205F) || (r =? 0x3000))%N.

End unicode.

(** ** The [strings] package *)

Module strings.

Definition HasPrefix (s prefix : string) : bool := String.prefix prefix s.

Definition HasSuffix (s suffix : string) : bool :=
  (String.length suffix <=? String.length s)%nat
  && String.eqb (utf8.drop (String.length s - String.length suffix) s) suffix.

(** [strings.Index]: the byte index of the first instance of [substr]
    in [s], or -1. *)
Definition Index (s substr : string) : Z :=
  match String.index 0 substr s with
  | Some i => Z.of_nat i
  | None => (-1)%Z
  end.

Definition Contains (s substr : string) : bool := (0 <=? Index s substr)%Z.

Fixpoint last_index_from (i : nat) (substr s : string) : option nat :=
  match s with
  | "" => if String.eqb substr "" then Some i else None
  | String _ s' =>
    match last_index_from (S i) substr s' with
    | Some j => Some j
    | None => if String.prefix substr s then Some i else None
    end
  end.

(** [strings.LastIndex]: the index of the last instance, or -1. *)
Definition LastIndex (s substr : string) : Z :=
  match last_index_from 0 substr s with
  | Some i => Z.of_nat i
  | None => (-1)%Z
  end.

(** The slices [s[:n]] and [s[n:]] of a Go string.  Go panics on an
    index out of range; the engine only slices at indices that
    [Index] returned (see the bound lemmas below). *)
Definition slice_to (s : string) (n : Z) : string := utf8.take (Z.to_nat n) s.
Definition slice_from (s : string) (n : Z) : string := utf8.drop (Z.to_nat n) s.

Definition TrimPrefix (s prefix : string) : string :=
  if HasPrefix s prefix then utf8.drop (String.length prefix) s else s.

(** [strings.ToLower].  Only the ASCII letters are mapped here; the
    engine lower-cases a rule solely to compare its head with an ASCII
    flag, and no rune outside ASCII lower-cases to a letter of a
    flag. *)
Definition lower_byte (c : ascii) : ascii :=
  let b := N_of_ascii c in
  if utf8.between 65 90 b then ascii_of_N (b + 32) else c.

Fixpoint ToLower (s : string) : string :=
  match s with
  | "" => ""
  | String c s' => String (lower_byte c) (ToLower s')
  end.

Definition concat_chunks (l : list (N * string)) : string :=
  fold_right (fun c acc => snd c +:+ acc) "" l.

Fixpoint drop_while_space (l : list (N * string)) : list (N * string) :=
  match l with
  | [] => []
  | c :: l' => if unicode.IsSpace (fst c) then drop_while_space l' else l
  end.

(** [strings.TrimSpace]: all leading and trailing white space, as
    defined by Unicode, removed.  The encoding of a space rune starts
    with a byte that continues no other rune, so that a string ends in
    a space rune exactly when its last rune, decoded from the front, is
    one. *)
Definition TrimSpace (s : string) : string :=
  concat_chunks
    (rev (drop_while_space (rev (drop_while_space (utf8.runes s))))).

(** [strings.Fields]: the maximal runs of non-space runes. *)
Fixpoint fields_from (cur : string) (l : list (N * string)) : list string :=
  match l with
  | [] => if String.eqb cur "" then [] else [cur]
  | c :: l' =>
    if unicode.IsSpace (fst c)
    then (if String.eqb cur "" then [] else [cur]) ++ fields_from "" l'
    else fields_from (cur +:+ snd c) l'
  end.

Definition Fields (s : string) : list string := fields_from "" (utf8.runes s).

(** [strings.Count]: the number of non-overlapping instances of
    [substr]; for the empty [substr], 1 + the number of runes. *)
Fixpoint count_from (substr : string) (skip : nat) (s : string) : nat :=
  match s with
  | "" => 0
  | String _ s' =>
    match skip with
    | S k => count_from substr k s'
    | O =>
      if String.prefix substr s
      then S (count_from substr (String.length substr - 1) s')
      else count_from substr 0 s'
    end
  end.

Definition Count (s substr : string) : nat :=
  if String.eqb substr "" then S (utf8.RuneCountInString s)
  else count_from substr 0 s.

(** [strings.SplitN] for a non-empty separator cuts at the first
    [cuts] instances of [sep] ([None]: at all of them), from left to
    right and without overlap. *)
Fixpoint split_from (sep : string) (cuts : option nat) (skip : nat)
    (s : string) : list string :=
  match s with
  | "" => [""]
  | String c s' =>
    match skip with
    | S k => split_from sep cuts k s'
    | O =>
      match cuts with
      | Some O => [s]
      | _ =>
        if String.prefix sep s
        then "" :: split_from sep (pred <$> cuts) (String.length sep - 1) s'
        else match split_from sep cuts 0 s' with
             | x :: xs => String c x :: xs
             | [] => [String c ""]
             end
      end
    end
  end.

(** [explode]: the UTF-8 sequences of [s], at most [n] of them when
    [n] is given, the last one being the unsplit remainder. *)
Fixpoint explode_chunks (n : option nat) (l : list (N * string)) : list string :=
  match l with
  | [] => []
  | c :: l' =>
    match n with
    | Some O => []
    | Some (S O) => [concat_chunks l]
    | _ => snd c :: explode_chunks (pred <$> n) l'
    end
  end.

Definition SplitN (s sep : string) (n : Z) : list string :=
  if (n =? 0)%Z then []
  else
    let limit := if (n <? 0)%Z then None else Some (Z.to_nat n) in
    if String.eqb sep "" then explode_chunks limit (utf8.runes s)
    else split_from sep (pred <$> limit) 0 s.

Definition Split (s sep : string) : list string := SplitN s sep (-1).

Definition Join (elems : list string) (sep : string) : string :=
  String.concat sep elems.

(** [strings.Replace]: the first [n] non-overlapping instances of
    [old] replaced by [new] ([None]: all of them).  An empty [old]
    matches at the beginning of the string and after each UTF-8
    sequence. *)
Fixpoint replace_from (old new : string) (n : option nat) (skip : nat)
    (s : string) : string :=
  match s with
  | "" => ""
  | String c s' =>
    match skip with
    | S k => replace_from old new n k s'
    | O =>
      match n with
      | Some O => s
      | _ =>
        if String.prefix old s
        then new +:+ replace_from old new (pred <$> n) (String.length old - 1) s'
        else String c (replace_from old new n 0 s')
      end
    end
  end.

Fixpoint replace_empty (new : string) (n : option nat)
    (l : list (N * string)) : string :=
  match n with
  | Some O => concat_chunks l
  | _ =>
    new +:+ match l with
           | [] => ""
           | c :: l' => snd c +:+ replace_empty new (pred <$> n) l'
           end
  end.

Definition Replace (s old new : string) (n : Z) : string :=
  if String.eqb old new || (n =? 0)%Z then s
  else
    let limit := if (n <? 0)%Z then None else Some (Z.to_nat n) in
    if String.eqb old "" then replace_empty new limit (utf8.runes s)
    else replace_from old new limit 0 s.

Definition ReplaceAll (s old new : string) : string := Replace s old new (-1).

End strings.

(** ** The [slices] package *)

Module slices.

Definition Contains (s : list string) (v : string) : bool :=
  existsb (String.eqb v) s.

(** [slices.Compact]: consecutive runs of equal elements replaced by a
    single copy. *)
Fixpoint Compact (s : list string) : list string :=
  match s with
  | [] => []
  | x :: s' =>
    match s' with
    | y :: _ => if String.eqb x y then Compact s' else x :: Compact s'
    | [] => [x]
    end
  end.

End slices.

(** ** What the engine calls from outside this repository

    [golang.org/x/net/idna], [net/url] and [regexp] are libraries, and
    the two extension feeds of [internal/data] are fetched over the
    network.  The engine is defined over any behaviour of them; the
    general theorems below hold for every instance of this class, and
    the statements about concrete rules are made for the reference
    instance [Reference.externals]. *)

(** The two fields of [url.URL] that the engine reads. *)
Record URL := { Host : string; Path : string }.

Class Externals := {
  (** [idna.ToASCII]; [None] when it returns an error. *)
  idna_ToASCII : string -> option string;
  (** [url.Parse]; [None] when it returns an error. *)
  url_Parse : string -> option URL;
  (** Whether [regexp.Compile] accepts the expression: [regexp.MustCompile]
      panics when it does not. *)
  regexp_compiles : string -> bool;
  (** [re.MatchString s] for the compiled expression [re]. *)
  regexp_MatchString : string -> string -> bool;
  (** [data.NewIANAExtensions().Extensions] and
      [data.NewPSLExtensions().Suffixes]; [None] when the fetch fails,
      on which the constructor panics. *)
  IANAExtensions : option (list string);
  PSLSuffixes : option (list string);
}.

Definition tab : string := String "009"%char "".
Definition space : string := " ".

(** ** internal/ruler/transformer.go *)

Section Transformer.

Context `{Externals}.

Definition idnazeString (subject : string) : string :=
  match idna_ToASCII subject with
  | Some result => result
  | None => subject
  end.

(** [regex_to_skip.MatchString]: every alternative of the expression
    ends in [$] and none is anchored at the start, so it matches
    exactly the strings that end in one of the reserved names. *)
Definition regex_to_skip (s : string) : bool :=
  existsb (strings.HasSuffix s)
    ["localhost"; "localdomain"; "local"; "broadcasthost"; "0.0.0.0";
     "allhosts"; "allnodes"; "allrouters"; "localnet"; "loopback";
     "mcastprefix"].

(** The loop of [idnaze] over the subjects of a line; [None] is its
    early [return "", fmt.Errorf(...)]. *)
Fixpoint idnaze_subjects (idnazed_subjects subjects : list string)
    : option (list string) :=
  match subjects with
  | [] => Some idnazed_subjects
  | subject :: rest =>
    if String.eqb subject "" || regex_to_skip subject
    then idnaze_subjects (idnazed_subjects ++ [subject]) rest
    else if strings.Contains subject "#" then
      match strings.SplitN subject "#" 1 with
      | [subject'; current_comment] =>
        idnaze_subjects
          (idnazed_subjects
             ++ [idnazeString subject' +:+ " #" +:+ current_comment]) rest
      | _ => None
      end
    else idnaze_subjects (idnazed_subjects ++ [idnazeString subject]) rest
  end.

(** [idnaze]; [None] is a non-nil error. *)
Definition idnaze (s : string) : option string :=
  let s := strings.TrimSpace s in
  if String.eqb s "" || strings.HasPrefix s "#" || regex_to_skip s
  then Some s
  else
    let separator :=
      if strings.Contains s tab then tab
      else if strings.Contains s space then space
      else "" in
    if negb (String.eqb separator "") then
      let x := strings.SplitN s "#" 2 in
      let subjects := if strings.Contains s "#" then nth 0 x "" else s in
      let comment := if strings.Contains s "#" then nth 1 x "" else "" in
      match idnaze_subjects [] (strings.Split subjects separator) with
      | None => None
      | Some idnazed_subjects =>
        if negb (String.eqb comment "")
        then Some (strings.Join idnazed_subjects separator +:+ "#" +:+ comment)
        else Some (strings.Join idnazed_subjects separator)
      end
    else Some (idnazeString s).

(** [ExtractNetLocationFromURL]; [None] is a non-nil error. *)
Definition ExtractNetLocationFromURL (rawURL : string) : option string :=
  if String.eqb rawURL "" then None
  else
    match url_Parse rawURL with
    | None => None
    | Some urlObj =>
      let result :=
        if String.eqb (Host urlObj) "" && negb (String.eqb (Path urlObj) "")
        then Path urlObj
        else if negb (String.eqb (Host urlObj) "") then
          if strings.Contains (Host urlObj) ":"
          then nth 0 (strings.Split (Host urlObj) ":") ""
          else Host urlObj
        else rawURL in
      let result :=
        if strings.Contains result "//"
        then strings.slice_from result (strings.Index result "//" + 2)
        else result in
      let result :=
        if strings.Contains result "/"
        then strings.slice_to result (strings.Index result "/")
        else result in
      Some result
    end.

Definition NormalizeURL (urlStr : string) : string :=
  match ExtractNetLocationFromURL urlStr with
  | None => urlStr
  | Some netloc =>
    match idnaze netloc with
    | None => urlStr
    | Some idnazedNetloc => strings.Replace urlStr netloc idnazedNetloc 1
    end
  end.

Definition NormalizeSubject (subject : string) (complementHandling : bool)
    : string :=
  let subject := strings.TrimSpace subject in
  if String.eqb subject "" || strings.HasPrefix subject "#" then ""
  else if strings.HasPrefix subject "http://"
          || strings.HasPrefix subject "https://"
  then NormalizeURL subject
  else
    let subject :=
      if strings.Contains subject "#"
      then strings.TrimSpace
             (strings.slice_to subject (strings.Index subject "#" - 1))
      else subject in
    let idnazedSubject :=
      match idnaze subject with
      | Some idnazedSubject => idnazedSubject
      | None => subject
      end in
    if complementHandling
    then strings.TrimPrefix idnazedSubject "www."
    else idnazedSubject.

Definition NormalizeRule (rule : string) : string :=
  let rule := strings.TrimSpace rule in
  if String.eqb rule "" || strings.HasPrefix rule "#" then ""
  else if strings.HasPrefix rule "http://" || strings.HasPrefix rule "https://"
  then NormalizeURL rule
  else
    let rule :=
      if strings.Contains rule "#"
      then strings.TrimSpace
             (strings.slice_to rule (strings.Index rule "#" - 1))
      else rule in
    match idnaze rule with
    | Some idnazedRule => idnazedRule
    | None => rule
    end.

End Transformer.

(** ** internal/ruler: the checker *)

Record InternalRuler := {
  strict : gmap string (list string);
  ends : gmap string (list string);
  present : gmap string (list string);
  regex : string;
  (** [nil], or the compiled expression, kept as the text it was
      compiled from (what [String()] returns). *)
  compiled_regexp : option string;
  handle_complement : bool;
  extensions : list string;
  FlagsAll : list string;
  FlagsReg : list string;
  FlagsRzdb : list string;
  AllowedFlags : list string;
  FlagAll : string;
  FlagReg : string;
  FlagRzdb : string
}.

Definition set_strict (v : gmap string (list string)) (r : InternalRuler) :=
  {| strict := v; ends := ends r; present := present r; regex := regex r;
     compiled_regexp := compiled_regexp r;
     handle_complement := handle_complement r; extensions := extensions r;
     FlagsAll := FlagsAll r; FlagsReg := FlagsReg r; FlagsRzdb := FlagsRzdb r;
     AllowedFlags := AllowedFlags r; FlagAll := FlagAll r;
     FlagReg := FlagReg r; FlagRzdb := FlagRzdb r |}.

Definition set_ends (v : gmap string (list string)) (r : InternalRuler) :=
  {| strict := strict r; ends := v; present := present r; regex := regex r;
     compiled_regexp := compiled_regexp r;
     handle_complement := handle_complement r; extensions := extensions r;
     FlagsAll := FlagsAll r; FlagsReg := FlagsReg r; FlagsRzdb := FlagsRzdb r;
     AllowedFlags := AllowedFlags r; FlagAll := FlagAll r;
     FlagReg := FlagReg r; FlagRzdb := FlagRzdb r |}.

Definition set_regex (v : string) (c : option string) (r : InternalRuler) :=
  {| strict := strict r; ends := ends r; present := present r; regex := v;
     compiled_regexp := c;
     handle_complement := handle_complement r; extensions := extensions r;
     FlagsAll := FlagsAll r; FlagsReg := FlagsReg r; FlagsRzdb := FlagsRzdb r;
     AllowedFlags := AllowedFlags r; FlagAll := FlagAll r;
     FlagReg := FlagReg r; FlagRzdb := FlagRzdb r |}.

Definition set_extensions (v : list string) (r : InternalRuler) :=
  {| strict := strict r; ends := ends r; present := present r; regex := regex r;
     compiled_regexp := compiled_regexp r;
     handle_complement := handle_complement r; extensions := v;
     FlagsAll := FlagsAll r; FlagsReg := FlagsReg r; FlagsRzdb := FlagsRzdb r;
     AllowedFlags := AllowedFlags r; FlagAll := FlagAll r;
     FlagReg := FlagReg r; FlagRzdb := FlagRzdb r |}.

Definition NewInternalRuler (handle_complement : bool) : InternalRuler :=
  let FlagsAll := ["ALL "; "ALL:"; "ALL#"; "ALL,"; "ALL@"] in
  let FlagsReg := ["REG "; "REG:"; "REG#"; "REG,"; "REG@"] in
  let FlagsRzdb := ["RZD "; "RZD:"; "RZD#"; "RZD,"; "RZD@";
                    "RZDB "; "RZDB:"; "RZDB#"; "RZDB,"; "RZDB@"] in
  {| strict := ∅; ends := ∅; present := ∅; regex := "";
     compiled_regexp := None;
     handle_complement := handle_complement; extensions := [];
     FlagsAll := FlagsAll; FlagsReg := FlagsReg; FlagsRzdb := FlagsRzdb;
     AllowedFlags := FlagsAll ++ (FlagsReg ++ FlagsRzdb);
     FlagAll := "ALL#"; FlagReg := "REG#"; FlagRzdb := "RZDB#" |}.

(** [append(s[:i], s[i+1:]...)] at the first [i] with [s[i] == rule];
    [None] when the loop ends without finding one. *)
Fixpoint pull_first (rule : string) (s : list string) : option (list string) :=
  match s with
  | [] => None
  | r :: s' =>
    if String.eqb r rule then Some s'
    else match pull_first rule s' with
         | Some s'' => Some (r :: s'')
         | None => None
         end
  end.

(** A method that may panic returns [None] when it does; a method that
    returns a [bool] after changing the receiver returns both. *)
Definition orElse {S : Type} (a b : S -> option (bool * S)) (s : S)
    : option (bool * S) :=
  match a s with
  | None => None
  | Some (true, s') => Some (true, s')
  | Some (false, s') => b s'
  end.

Section Checker.

Context `{Externals}.

Definition commonSearchKeyFromRule (rule : string) : string :=
  if (String.length rule <? 4)%nat then rule else utf8.take 4 rule.

Definition endsSearchKeyFromRule (rule : string) : string :=
  if (String.length rule <? 3)%nat then rule
  else utf8.drop (String.length rule - 3) rule.

Definition regexp_MustCompile (str : string) : option string :=
  if regexp_compiles str then Some str else None.

Definition getKnownExtensions (ruler : InternalRuler)
    : option (list string * InternalRuler) :=
  if (length (extensions ruler) =? 0)%nat then
    match IANAExtensions, PSLSuffixes with
    | Some iana, Some psl =>
      let extensions' := (extensions ruler ++ iana) ++ psl in
      Some (extensions', set_extensions extensions' ruler)
    | _, _ => None
    end
  else Some (extensions ruler, ruler).

(** [m[key] = append(m[key], rule)]; a missing key reads as [nil]. *)
Definition push (key rule : string) (m : gmap string (list string))
    : gmap string (list string) :=
  <[key := default [] (m !! key) ++ [rule]]> m.

Definition pull (key rule : string) (m : gmap string (list string))
    : gmap string (list string) :=
  match m !! key with
  | Some rules =>
    match pull_first rule rules with
    | Some rules' => <[key := rules']> m
    | None => m
    end
  | None => m
  end.

Definition pushStrictRule (rule : string) (ruler : InternalRuler) : InternalRuler :=
  let searchKey := commonSearchKeyFromRule rule in
  set_strict (push searchKey rule (strict ruler)) ruler.

Definition pullStrictRule (rule : string) (ruler : InternalRuler) : InternalRuler :=
  let searchKey := commonSearchKeyFromRule rule in
  set_strict (pull searchKey rule (strict ruler)) ruler.

Definition pushEndsRule (rule : string) (ruler : InternalRuler) : InternalRuler :=
  let searchKey := endsSearchKeyFromRule rule in
  set_ends (push searchKey rule (ends ruler)) ruler.

Definition pullEndsRule (rule : string) (ruler : InternalRuler) : InternalRuler :=
  let searchKey := endsSearchKeyFromRule rule in
  set_ends (pull searchKey rule (ends ruler)) ruler.

Definition pushRegexRule (rule : string) (ruler : InternalRuler)
    : option InternalRuler :=
  let regex' :=
    if String.eqb (regex ruler) "" then rule
    else regex ruler +:+ "|" +:+ rule in
  match
    match compiled_regexp ruler with
    | None => regexp_MustCompile regex'
    | Some str => regexp_MustCompile (str +:+ "|" +:+ rule)
    end
  with
  | Some compiled => Some (set_regex regex' (Some compiled) ruler)
  | None => None
  end.

Definition pullRegexRule (rule : string) (ruler : InternalRuler)
    : option InternalRuler :=
  if String.eqb (regex ruler) "" then Some ruler
  else
    match compiled_regexp ruler with
    | None => Some ruler
    | Some _ =>
      let regex' := strings.ReplaceAll (regex ruler) rule "" in
      if String.eqb regex' "" then Some (set_regex regex' None ruler)
      else
        match regexp_MustCompile regex' with
        | Some compiled => Some (set_regex regex' (Some compiled) ruler)
        | None => None
        end
    end.

Definition HasFlag (flags : list string) (rule : string) : bool :=
  existsb
    (fun flag =>
       strings.HasPrefix (strings.TrimSpace (strings.ToLower rule))
         (strings.ToLower flag))
    flags.

Definition cleanupFlags (flags : list string) (rule : string) : string :=
  fold_left
    (fun rule flag =>
       if negb (HasFlag [flag] rule) then rule
       else strings.TrimSpace
              (strings.TrimPrefix (strings.TrimPrefix rule flag)
                 (strings.ToLower flag)))
    flags rule.

Definition parseAllFlaggedRule (rule : string) (ruler : InternalRuler)
    : option (bool * InternalRuler) :=
  if negb (HasFlag (FlagsAll ruler) rule) then Some (false, ruler)
  else
    let record := cleanupFlags (FlagsAll ruler) rule in
    if strings.HasPrefix record "." then
      let ruler :=
        if (1 <? strings.Count record ".")%nat then
          let new_record := strings.TrimPrefix record "." in
          let ruler :=
            if handle_complement ruler
            then pushStrictRule ("www." +:+ new_record) ruler
            else ruler in
          pushStrictRule new_record ruler
        else ruler in
      Some (true, pushEndsRule record ruler)
    else
      let ruler := pushEndsRule ("." +:+ record) ruler in
      Some (true, pushStrictRule record ruler).

Definition unparseAllFlaggedRule (rule : string) (ruler : InternalRuler)
    : option (bool * InternalRuler) :=
  if negb (HasFlag (FlagsAll ruler) rule) then Some (false, ruler)
  else
    let record := cleanupFlags (FlagsAll ruler) rule in
    if strings.HasPrefix record "." then
      let ruler :=
        if (1 <? strings.Count record ".")%nat then
          let new_record := strings.TrimPrefix record "." in
          let ruler :=
            if handle_complement ruler
            then pullStrictRule ("www." +:+ new_record) ruler
            else ruler in
          pullStrictRule new_record ruler
        else ruler in
      Some (true, pullEndsRule record ruler)
    else
      let ruler := pullEndsRule ("." +:+ record) ruler in
      Some (true, pullStrictRule record ruler).

Definition parseRegexFlaggedRule (rule : string) (ruler : InternalRuler)
    : option (bool * InternalRuler) :=
  if negb (HasFlag (FlagsReg ruler) rule) then Some (false, ruler)
  else
    match pushRegexRule (cleanupFlags (FlagsReg ruler) rule) ruler with
    | Some ruler' => Some (true, ruler')
    | None => None
    end.

Definition unparseRegexFlaggedRule (rule : string) (ruler : InternalRuler)
    : option (bool * InternalRuler) :=
  if negb (HasFlag (FlagsReg ruler) rule) then Some (false, ruler)
  else
    match pullRegexRule (cleanupFlags (FlagsReg ruler) rule) ruler with
    | Some ruler' => Some (true, ruler')
    | None => None
    end.

Definition parseRZDBFlagedRule (rule : string) (ruler : InternalRuler)
    : option (bool * InternalRuler) :=
  if negb (HasFlag (FlagsRzdb ruler) rule) then Some (false, ruler)
  else
    let record := cleanupFlags (FlagsRzdb ruler) rule in
    let record :=
      if handle_complement ruler && strings.HasPrefix record "www."
      then strings.TrimPrefix record "www." else record in
    let record :=
      if handle_complement ruler && strings.HasPrefix record "www."
      then strings.TrimPrefix record "www." else record in
    match getKnownExtensions ruler with
    | None => None
    | Some (known, ruler) =>
      Some (true,
            fold_left
              (fun ruler extension =>
                 let ruler :=
                   pushStrictRule (record +:+ "." +:+ extension) ruler in
                 if handle_complement ruler
                 then pushStrictRule
                        ("www." +:+ record +:+ "." +:+ extension) ruler
                 else ruler)
              known ruler)
    end.

Definition unparseRZDBFlagedRule (rule : string) (ruler : InternalRuler)
    : option (bool * InternalRuler) :=
  if negb (HasFlag (FlagsRzdb ruler) rule) then Some (false, ruler)
  else
    let record := cleanupFlags (FlagsRzdb ruler) rule in
    let record :=
      if handle_complement ruler && strings.HasPrefix record "www."
      then strings.TrimPrefix record "www." else record in
    match getKnownExtensions ruler with
    | None => None
    | Some (known, ruler) =>
      Some (true,
            fold_left
              (fun ruler extension =>
                 let ruler :=
                   pullStrictRule (record +:+ "." +:+ extension) ruler in
                 if handle_complement ruler
                 then pullStrictRule
                        ("www." +:+ record +:+ "." +:+ extension) ruler
                 else ruler)
              known ruler)
    end.

Definition parsePlainRule (rule : string) (ruler : InternalRuler)
    : option (bool * InternalRuler) :=
  if handle_complement ruler then
    if strings.HasPrefix rule "http://" || strings.HasPrefix rule "https://"
    then
      match ExtractNetLocationFromURL rule with
      | None => Some (false, ruler)
      | Some netloc =>
        let ruler :=
          if strings.HasPrefix netloc "www."
          then pushStrictRule
                 (strings.ReplaceAll rule netloc
                    (strings.TrimPrefix netloc "www.")) ruler
          else pushStrictRule
                 (strings.ReplaceAll rule netloc ("www." +:+ netloc)) ruler in
        Some (true, pushStrictRule rule ruler)
      end
    else
      let ruler :=
        if strings.HasPrefix rule "www."
        then pushStrictRule (strings.TrimPrefix rule "www.") ruler
        else pushStrictRule ("www." +:+ rule) ruler in
      Some (true, pushStrictRule rule ruler)
  else Some (true, pushStrictRule rule ruler).

Definition unparsePlainRule (rule : string) (ruler : InternalRuler)
    : option (bool * InternalRuler) :=
  if handle_complement ruler then
    if strings.HasPrefix rule "http://" || strings.HasPrefix rule "https://"
    then
      match ExtractNetLocationFromURL rule with
      | None => Some (false, ruler)
      | Some netloc =>
        let ruler :=
          if strings.HasPrefix netloc "www."
          then pullStrictRule
                 (strings.ReplaceAll rule netloc
                    (strings.TrimPrefix netloc "www.")) ruler
          else pullStrictRule
                 (strings.ReplaceAll rule netloc ("www." +:+ netloc)) ruler in
        Some (true, pullStrictRule rule ruler)
      end
    else
      let ruler :=
        if strings.HasPrefix rule "www."
        then pullStrictRule (strings.TrimPrefix rule "www.") ruler
        else pullStrictRule ("www." +:+ rule) ruler in
      Some (true, pullStrictRule rule ruler)
  else Some (true, pullStrictRule rule ruler).

Definition AddRule (rule : string) (ruler : InternalRuler)
    : option (bool * InternalRuler) :=
  let normalizedRule := NormalizeRule rule in
  if String.eqb normalizedRule "" then Some (false, ruler)
  else
    orElse (parseAllFlaggedRule normalizedRule)
      (orElse (parseRegexFlaggedRule normalizedRule)
         (orElse (parseRZDBFlagedRule normalizedRule)
            (parsePlainRule normalizedRule)))
      ruler.

Definition RemoveRule (rule : string) (ruler : InternalRuler)
    : option (bool * InternalRuler) :=
  let normalizedRule := NormalizeRule rule in
  if String.eqb normalizedRule "" then Some (false, ruler)
  else
    orElse (unparseAllFlaggedRule normalizedRule)
      (orElse (unparseRegexFlaggedRule normalizedRule)
         (orElse (unparseRZDBFlagedRule normalizedRule)
            (unparsePlainRule normalizedRule)))
      ruler.

(** The body of the loop of [IsWhitelisted] for one subject: the
    strict, the present and the ends index, then the expression. *)
Definition matchesSubject (ruler : InternalRuler) (sub : string) : bool :=
  let commonKey := commonSearchKeyFromRule sub in
  match strict ruler !! commonKey with
  | Some rules => slices.Contains rules sub
  | None => false
  end
  || match present ruler !! commonKey with
     | Some rules => slices.Contains rules sub
     | None => false
     end
  || match ends ruler !! endsSearchKeyFromRule sub with
     | Some rules => existsb (fun rule => strings.HasSuffix sub rule) rules
     | None => false
     end
  || match compiled_regexp ruler with
     | Some re => regexp_MatchString re sub
     | None => false
     end.

(** [IsWhitelisted].  The transformer's [NormalizeSubject] takes the
    complement handling as its second argument; the checker passes
    the one it was configured with. *)
Definition IsWhitelisted (ruler : InternalRuler) (subject : string) : bool :=
  let normalizedSubject := NormalizeSubject subject (handle_complement ruler) in
  if String.eqb normalizedSubject "" then false
  else
    match ExtractNetLocationFromURL normalizedSubject with
    | None => false
    | Some netloc =>
      let subjects :=
        [netloc]
        ++ (if strings.HasPrefix normalizedSubject "http://"
               || strings.HasPrefix normalizedSubject "https://"
            then [normalizedSubject] else []) in
      existsb (matchesSubject ruler) subjects
    end.

End Checker.

(** ** pkg/givilsta: the public ruler *)

Record givilstaRuler := { intRuler : InternalRuler }.

Module Flags.
Definition FlagAll : string := "ALL@".
Definition FlagReg : string := "REG@".
Definition FlagRzdb : string := "RZDB@".
End Flags.

Section Givilsta.

Context `{Externals}.

Definition NewGivilstaRuler (handle_complement : bool) : givilstaRuler :=
  {| intRuler := NewInternalRuler handle_complement |}.

(** A method of [givilstaRuler] that changes the internal ruler. *)
Definition onIntRuler (f : InternalRuler -> option (bool * InternalRuler))
    (g : givilstaRuler) : option (bool * givilstaRuler) :=
  match f (intRuler g) with
  | Some (b, r) => Some (b, {| intRuler := r |})
  | None => None
  end.

Definition GivilstaAddRule (rule : string) : givilstaRuler -> _ :=
  onIntRuler (AddRule rule).

Definition AddRuleWithFlag (rule flag : string) : givilstaRuler -> _ :=
  onIntRuler (AddRule (flag +:+ rule)).

Definition GivilstaRemoveRule (rule : string) : givilstaRuler -> _ :=
  onIntRuler (RemoveRule rule).

Definition RemoveRuleWithFlag (rule flag : string) : givilstaRuler -> _ :=
  onIntRuler (RemoveRule (flag +:+ rule)).

Definition IsSubjectWhitelisted (g : givilstaRuler) (subject : string) : bool :=
  IsWhitelisted (intRuler g) subject.

Definition IsSubjectBlacklisted (g : givilstaRuler) (subject : string) : bool :=
  negb (IsSubjectWhitelisted g subject).

Definition GetWhitelistedFromLine (g : givilstaRuler) (line : string)
    : list string :=
  let normalized_line := strings.TrimSpace line in
  if String.eqb normalized_line "" || strings.HasPrefix normalized_line "#"
  then []
  else
    let normalized_line :=
      if strings.Contains normalized_line "#"
      then strings.slice_to normalized_line
             (strings.Index normalized_line "#")
      else normalized_line in
    let subjects := strings.Fields normalized_line in
    let subjects := slices.Compact subjects in
    fold_left
      (fun result subject =>
         if IsSubjectWhitelisted g subject then result ++ [subject]
         else result)
      subjects [].

Definition GetBlacklistedFromLine (g : givilstaRuler) (line : string)
    : list string :=
  let normalized_line := strings.TrimSpace line in
  if String.eqb normalized_line "" || strings.HasPrefix normalized_line "#"
  then []
  else
    let normalized_line :=
      if strings.Contains normalized_line "#"
      then strings.slice_to normalized_line
             (strings.Index normalized_line "#")
      else normalized_line in
    let subjects := strings.Fields normalized_line in
    let subjects := slices.Compact subjects in
    fold_left
      (fun result subject =>
         if IsSubjectBlacklisted g subject then result ++ [subject]
         else result)
      subjects [].

End Givilsta.

(** ** A reference instance of the outside world

    Executable models of the three libraries, used to evaluate the
    engine on concrete rules and subjects: [idna.ToASCII] is the raw
    Punycode profile of [golang.org/x/net/idna] (RFC 3492 applied label
    by label), [url.Parse] follows [net/url] of Go 1.24, and [regexp]
    covers literals, [.], [^], [$], groups, [|], [*], [+] and [?]; any
    other operator is reported as not compiling.  *)

Module Reference.

(** *** golang.org/x/net/idna, punycode.go *)

Module punycode.

Local Open Scope Z_scope.

Definition base : Z := 36.
Definition damp : Z := 700.
Definition initialBias : Z := 72.
Definition initialN : Z := 128.
Definition skew : Z := 38.
Definition tmax : Z := 26.
Definition tmin : Z := 1.
Definition MaxInt32 : Z := 2147483647.
Definition MaxRune : Z := 0x10FFFF.

(** [madd]: [a + b * c], or [None] on [int32] overflow. *)
Definition madd (a b c : Z) : option Z :=
  let p := b * c in
  if p >? MaxInt32 - a then None else Some (a + p).

Definition decodeDigit (c : ascii) : option Z :=
  let x := Z.of_N (N_of_ascii c) in
  if (48 <=? x) && (x <=? 57) then Some (x - 48 + 26)
  else if (65 <=? x) && (x <=? 90) then Some (x - 65)
  else if (97 <=? x) && (x <=? 122) then Some (x - 97)
  else None.

Definition encodeDigit (digit : Z) : string :=
  if (0 <=? digit) && (digit <? 26)
  then utf8.byte (Z.to_N (digit + 97))
  else utf8.byte (Z.to_N (digit - 26 + 48)).

Fixpoint adapt_loop (fuel : nat) (delta k : Z) : Z :=
  match fuel with
  | O => k + (base - tmin + 1) * delta / (delta + skew)
  | S fuel' =>
    if delta >? ((base - tmin) * tmax) / 2
    then adapt_loop fuel' (delta / (base - tmin)) (k + base)
    else k + (base - tmin + 1) * delta / (delta + skew)
  end.

Definition adapt (delta numPoints : Z) (firstTime : bool) : Z :=
  let delta := if firstTime then delta / damp else delta / 2 in
  let delta := delta + delta / numPoints in
  adapt_loop 32 delta 0.

Definition threshold (k bias : Z) : Z :=
  if k <=? bias then tmin
  else if k >=? bias + tmax then tmax
  else k - bias.

(** The digits of one delta: the loop [for k := base; ; k += base]. *)
Fixpoint encode_digits (fuel : nat) (q k bias : Z) : string :=
  match fuel with
  | O => encodeDigit q
  | S fuel' =>
    let t := threshold k bias in
    if q <? t then encodeDigit q
    else encodeDigit (t + (q - t) mod (base - t))
         +:+ encode_digits fuel' ((q - t) / (base - t)) (k + base) bias
  end.

Record enc := {
  e_delta : Z; e_bias : Z; e_h : Z; e_remaining : Z; e_output : string
}.

(** One pass of the inner [for _, r := range s] at code point [n]. *)
Fixpoint encode_pass (b n : Z) (rs : list Z) (st : enc) : option enc :=
  match rs with
  | [] => Some st
  | r :: rs' =>
    if r <? n then
      if e_delta st + 1 >? MaxInt32 then None
      else encode_pass b n rs'
             {| e_delta := e_delta st + 1; e_bias := e_bias st;
                e_h := e_h st; e_remaining := e_remaining st;
                e_output := e_output st |}
    else if r >? n then encode_pass b n rs' st
    else
      encode_pass b n rs'
        {| e_delta := 0;
           e_bias := adapt (e_delta st) (e_h st + 1) (e_h st =? b);
           e_h := e_h st + 1;
           e_remaining := e_remaining st - 1;
           e_output := e_output st
                       +:+ encode_digits 32 (e_delta st) base (e_bias st) |}
  end.

Fixpoint encode_loop (fuel : nat) (b n : Z) (rs : list Z) (st : enc)
    : option string :=
  if e_remaining st =? 0 then Some (e_output st)
  else
    match fuel with
    | O => None
    | S fuel' =>
      let m := fold_left (fun m r => if (m >? r) && (r >=? n) then r else m)
                 rs 0x7fffffff in
      match madd (e_delta st) (m - n) (e_h st + 1) with
      | None => None
      | Some delta =>
        match encode_pass b m rs
                {| e_delta := delta; e_bias := e_bias st; e_h := e_h st;
                   e_remaining := e_remaining st;
                   e_output := e_output st |} with
        | None => None
        | Some st' =>
          encode_loop fuel' b (m + 1) rs
            {| e_delta := e_delta st' + 1; e_bias := e_bias st';
               e_h := e_h st'; e_remaining := e_remaining st';
               e_output := e_output st' |}
        end
      end
    end.

(** [encode prefix s]; [None] is a non-nil error. *)
Definition encode (prefix s : string) : option string :=
  let rs := map (fun c => Z.of_N (fst c)) (utf8.runes s) in
  let basic := filter (fun r => r <? 0x80) rs in
  let b := Z.of_nat (length basic) in
  let output :=
    prefix
    +:+ fold_right (fun r acc => utf8.byte (Z.to_N r) +:+ acc) "" basic
    +:+ (if b >? 0 then "-" else "") in
  encode_loop (S (length rs)) b initialN rs
    {| e_delta := 0; e_bias := initialBias; e_h := b;
       e_remaining := Z.of_nat (length rs) - b; e_output := output |}.

Fixpoint insert_at (i : nat) (x : Z) (l : list Z) : list Z :=
  match i, l with
  | S i', y :: l' => y :: insert_at i' x l'
  | _, _ => x :: l
  end.

Record dec := {
  d_i : Z; d_oldI : Z; d_w : Z; d_k : Z; d_n : Z; d_bias : Z;
  d_output : list Z;
  (** whether the loop stands between two code points *)
  d_outer : bool
}.

(** The two nested loops of [decode], one digit at a time. *)
Fixpoint decode_loop (digits : string) (st : dec) : option (list Z) :=
  match digits with
  | "" => if d_outer st then Some (d_output st) else None
  | String c digits' =>
    match decodeDigit c with
    | None => None
    | Some digit =>
      match madd (d_i st) digit (d_w st) with
      | None => None
      | Some i =>
        let t := threshold (d_k st) (d_bias st) in
        if digit <? t then
          if (1024 <=? length (d_output st))%nat then None
          else
            let x := Z.of_nat (length (d_output st)) + 1 in
            let bias := adapt (i - d_oldI st) x (d_oldI st =? 0) in
            let n := d_n st + i / x in
            let i := i mod x in
            if n >? MaxRune then None
            else
              decode_loop digits'
                {| d_i := i + 1; d_oldI := i + 1; d_w := 1; d_k := base;
                   d_n := n; d_bias := bias;
                   d_output := insert_at (Z.to_nat i) n (d_output st);
                   d_outer := true |}
        else
          match madd 0 (d_w st) (base - t) with
          | None => None
          | Some w =>
            decode_loop digits'
              {| d_i := i; d_oldI := d_oldI st; d_w := w;
                 d_k := d_k st + base; d_n := d_n st;
                 d_bias := d_bias st; d_output := d_output st;
                 d_outer := false |}
          end
      end
    end
  end.

(** [decode encoded]; [None] is a non-nil error. *)
Definition decode (encoded : string) : option string :=
  if String.eqb encoded "" then Some ""
  else
    let pos := 1 + strings.LastIndex encoded "-" in
    if pos =? 1 then None
    else if pos =? Z.of_nat (String.length encoded)
    then Some (utf8.take (String.length encoded - 1) encoded)
    else
      let output :=
        if pos =? 0 then []
        else map (fun c => Z.of_N (fst c))
               (utf8.runes (strings.slice_to encoded (pos - 1))) in
      match decode_loop (strings.slice_from encoded pos)
              {| d_i := 0; d_oldI := 0; d_w := 1; d_k := base;
                 d_n := initialN; d_bias := initialBias;
                 d_output := output; d_outer := true |} with
      | None => None
      | Some rs =>
        Some (fold_right (fun r acc => utf8.EncodeRune (Z.to_N r) +:+ acc)
                "" rs)
      end.

End punycode.

(** *** golang.org/x/net/idna: [ToASCII] of the [Punycode] profile *)

Definition acePrefix : string := "xn--".

(** [ascii]: every byte below 0x80. *)
Fixpoint ascii_only (s : string) : bool :=
  match s with
  | "" => true
  | String c s' => (N_of_ascii c <? 0x80)%N && ascii_only s'
  end.

(** One label: decoded when it carries the ACE prefix, then encoded
    when it is not ASCII. *)
Definition toASCII_label (label : string) : option string :=
  if String.eqb label "" then Some label
  else
    match
      if strings.HasPrefix label acePrefix
      then punycode.decode (utf8.drop (String.length acePrefix) label)
      else Some label
    with
    | None => None
    | Some u => if ascii_only u then Some u else punycode.encode acePrefix u
    end.

Fixpoint toASCII_labels (labels : list string) : option (list string) :=
  match labels with
  | [] => Some []
  | label :: rest =>
    match toASCII_label label, toASCII_labels rest with
    | Some a, Some rest' => Some (a :: rest')
    | _, _ => None
    end
  end.

Definition ToASCII (s : string) : option string :=
  match toASCII_labels (strings.Split s ".") with
  | Some labels => Some (strings.Join labels ".")
  | None => None
  end.

(** *** net/url: [Parse], with the [Host] and [Path] it computes *)

Module url.

Inductive encoding := encodePath | encodeHost | encodeZone
                    | encodeUserPassword | encodeFragment.

Definition code (c : ascii) : N := N_of_ascii c.

Definition isalnum (c : ascii) : bool :=
  utf8.between 97 122 (code c) || utf8.between 65 90 (code c)
  || utf8.between 48 57 (code c).

Definition ishex (c : ascii) : bool :=
  utf8.between 48 57 (code c) || utf8.between 97 102 (code c)
  || utf8.between 65 70 (code c).

Definition unhex (c : ascii) : N :=
  if utf8.between 48 57 (code c) then (code c - 48)%N
  else if utf8.between 97 102 (code c) then (code c - 97 + 10)%N
  else if utf8.between 65 70 (code c) then (code c - 65 + 10)%N
  else 0%N.

Definition one_of (chars : string) (c : ascii) : bool :=
  existsb (Ascii.eqb c) (list_ascii_of_string chars).

(** [shouldEscape c encodeHost] (and [encodeZone]). *)
Definition shouldEscapeHost (c : ascii) : bool :=
  negb (isalnum c || one_of "!$&'()*+,;=:[]<>" c
        || Ascii.eqb c (ascii_of_N 34) || one_of "-_.~" c).

Definition stringContainsCTLByte (s : string) : bool :=
  existsb (fun c => (code c <? 0x20)%N || (code c =? 0x7f)%N)
    (list_ascii_of_string s).

(** [unescape]: the escapes checked, then decoded.  [skip] counts
    the two hexadecimal digits of the escape being read. *)
Fixpoint unescape_from (mode : encoding) (skip : nat) (s : string)
    : option string :=
  match s with
  | "" => Some ""
  | String c s' =>
    match skip with
    | S k => unescape_from mode k s'
    | O =>
      if Ascii.eqb c "%"%char then
        match s' with
        | String h1 (String h2 _) =>
          if negb (ishex h1 && ishex h2) then None
          else if match mode with encodeHost => true | _ => false end
                  && (unhex h1 <? 8)%N
                  && negb (String.eqb (utf8.take 3 s) "%25")
          then None
          else
            let v := (unhex h1 * 16 + unhex h2)%N in
            if match mode with encodeZone => true | _ => false end
               && negb (String.eqb (utf8.take 3 s) "%25")
               && negb (v =? 32)%N
               && shouldEscapeHost (ascii_of_N v)
            then None
            else
              match unescape_from mode 2 s' with
              | Some rest => Some (String (ascii_of_N v) rest)
              | None => None
              end
        | _ => None
        end
      else if match mode with
              | encodeHost | encodeZone => true
              | _ => false
              end
              && (code c <? 0x80)%N && shouldEscapeHost c
      then None
      else
        match unescape_from mode 0 s' with
        | Some rest => Some (String c rest)
        | None => None
        end
    end
  end.

Definition unescape (s : string) (mode : encoding) : option string :=
  unescape_from mode 0 s.

(** [getScheme]: the scheme and the rest; [None] is an error. *)
Fixpoint getScheme_from (i : nat) (rawURL rest : string)
    : option (string * string) :=
  match rest with
  | "" => Some ("", rawURL)
  | String c rest' =>
    if utf8.between 97 122 (code c) || utf8.between 65 90 (code c)
    then getScheme_from (S i) rawURL rest'
    else if utf8.between 48 57 (code c) || one_of "+-." c then
      if (i =? 0)%nat then Some ("", rawURL)
      else getScheme_from (S i) rawURL rest'
    else if Ascii.eqb c ":"%char then
      if (i =? 0)%nat then None else Some (utf8.take i rawURL, rest')
    else Some ("", rawURL)
  end.

Definition getScheme (rawURL : string) : option (string * string) :=
  getScheme_from 0 rawURL rawURL.

(** [strings.Cut]. *)
Definition Cut (s sep : string) : string * string :=
  if strings.Contains s sep
  then (strings.slice_to s (strings.Index s sep),
        strings.slice_from s
          (strings.Index s sep + Z.of_nat (String.length sep)))
  else (s, "").

Definition validOptionalPort (port : string) : bool :=
  match port with
  | "" => true
  | String c digits =>
    Ascii.eqb c ":"%char
    && forallb (fun d => utf8.between 48 57 (code d))
         (list_ascii_of_string digits)
  end.

Definition validUserinfo (s : string) : bool :=
  forallb (fun c => isalnum c || one_of "-._:~!$&'()*+,;=%@" c)
    (list_ascii_of_string s).

Definition parseHost (host : string) : option string :=
  if strings.HasPrefix host "[" then
    let i := strings.LastIndex host "]" in
    if (i <? 0)%Z then None
    else if negb (validOptionalPort (strings.slice_from host (i + 1)))
    then None
    else
      let zone := strings.Index (strings.slice_to host i) "%25" in
      if (0 <=? zone)%Z then
        match unescape (strings.slice_to host zone) encodeHost,
              unescape (strings.slice_from (strings.slice_to host i) zone)
                encodeZone,
              unescape (strings.slice_from host i) encodeHost with
        | Some host1, Some host2, Some host3 =>
          Some (host1 +:+ host2 +:+ host3)
        | _, _, _ => None
        end
      else unescape host encodeHost
  else
    let i := strings.LastIndex host ":" in
    if negb (i =? -1)%Z
       && negb (validOptionalPort (strings.slice_from host i))
    then None
    else unescape host encodeHost.

(** [parseAuthority], for the host only. *)
Definition parseAuthority (authority : string) : option string :=
  let i := strings.LastIndex authority "@" in
  match
    if (i <? 0)%Z then parseHost authority
    else parseHost (strings.slice_from authority (i + 1))
  with
  | None => None
  | Some host =>
    if (i <? 0)%Z then Some host
    else
      let userinfo := strings.slice_to authority i in
      if negb (validUserinfo userinfo) then None
      else
        let '(username, password) := Cut userinfo ":" in
        match unescape username encodeUserPassword,
              unescape password encodeUserPassword with
        | Some _, Some _ => Some host
        | _, _ => None
        end
  end.

(** [parse rawURL false]. *)
Definition parse (rawURL : string) : option URL :=
  if stringContainsCTLByte rawURL then None
  else if String.eqb rawURL "*" then Some {| Host := ""; Path := "*" |}
  else
    match getScheme rawURL with
    | None => None
    | Some (scheme, rest) =>
      let rest := fst (Cut rest "?") in
      if negb (strings.HasPrefix rest "/")
         && negb (String.eqb scheme "")
      then Some {| Host := ""; Path := "" |}
      else if negb (strings.HasPrefix rest "/")
              && strings.Contains (fst (Cut rest "/")) ":"
      then None
      else
        match
          if (negb (String.eqb scheme "")
              || negb (strings.HasPrefix rest "///"))
             && strings.HasPrefix rest "//"
          then
            let authority := strings.slice_from rest 2 in
            let i := strings.Index authority "/" in
            let rest := if (0 <=? i)%Z
                        then strings.slice_from authority i else "" in
            let authority := if (0 <=? i)%Z
                             then strings.slice_to authority i
                             else authority in
            match parseAuthority authority with
            | Some host => Some (host, rest)
            | None => None
            end
          else Some ("", rest)
        with
        | None => None
        | Some (host, rest) =>
          match unescape rest encodePath with
          | Some path => Some {| Host := host; Path := path |}
          | None => None
          end
        end
    end.

Definition Parse (rawURL : string) : option URL :=
  let '(u, frag) := Cut rawURL "#" in
  match parse u with
  | None => None
  | Some url =>
    if String.eqb frag "" then Some url
    else
      match unescape frag encodeFragment with
      | Some _ => Some url
      | None => None
      end
  end.

End url.

(** *** regexp: a fragment of the RE2 syntax, matched on runes *)

Module regexp.

Inductive re :=
| Emp | Lit (r : N) | Dot | Bol | Eol
| Cat (a b : re) | Alt (a b : re) | Star (a : re).

Definition is_rep (c : N) : bool := ((c =? 42) || (c =? 43) || (c =? 63))%N.

Definition rep (c : N) (a : re) : re :=
  if (c =? 42)%N then Star a
  else if (c =? 43)%N then Cat a (Star a)
  else Alt a Emp.

Definition punct (c : N) : bool :=
  ((c <? 128)
   && negb (utf8.between 48 57 c || utf8.between 65 90 c
            || utf8.between 97 122 c))%N.

(** The parser, by recursive descent; [None] is a syntax error or
    an operator outside the fragment. *)
Fixpoint parse_alt (fuel : nat) (inp : list N) : option (re * list N) :=
  match fuel with
  | O => None
  | S fuel' =>
    match parse_cat fuel' inp with
    | Some (a, 124%N :: rest) =>
      match parse_alt fuel' rest with
      | Some (b, rest') => Some (Alt a b, rest')
      | None => None
      end
    | other => other
    end
  end
with parse_cat (fuel : nat) (inp : list N) : option (re * list N) :=
  match fuel with
  | O => None
  | S fuel' =>
    match inp with
    | [] => Some (Emp, [])
    | c :: _ =>
      if ((c =? 124) || (c =? 41))%N then Some (Emp, inp)
      else
        match parse_rep fuel' inp with
        | Some (a, rest) =>
          match parse_cat fuel' rest with
          | Some (b, rest') => Some (Cat a b, rest')
          | None => None
          end
        | None => None
        end
    end
  end
with parse_rep (fuel : nat) (inp : list N) : option (re * list N) :=
  match fuel with
  | O => None
  | S fuel' =>
    match parse_atom fuel' inp with
    | Some (a, q :: rest) =>
      if is_rep q then
        let rest := match rest with
                    | 63%N :: rest' => rest'
                    | _ => rest
                    end in
        match rest with
        | q' :: _ => if is_rep q' then None else Some (rep q a, rest)
        | [] => Some (rep q a, rest)
        end
      else Some (a, q :: rest)
    | other => other
    end
  end
with parse_atom (fuel : nat) (inp : list N) : option (re * list N) :=
  match fuel with
  | O => None
  | S fuel' =>
    match inp with
    | [] => None
    | 40%N :: rest =>
      let rest := match rest with
                  | 63%N :: 58%N :: rest' => rest'
                  | _ => rest
                  end in
      match parse_alt fuel' rest with
      | Some (a, 41%N :: rest') => Some (a, rest')
      | _ => None
      end
    | 46%N :: rest => Some (Dot, rest)
    | 94%N :: rest => Some (Bol, rest)
    | 36%N :: rest => Some (Eol, rest)
    | 92%N :: c :: rest => if punct c then Some (Lit c, rest) else None
    | c :: rest =>
      if (is_rep c || (c =? 41) || (c =? 124) || (c =? 91) || (c =? 123)
          || (c =? 92))%N
      then None
      else Some (Lit c, rest)
    end
  end.

Definition valid_utf8 (s : string) : bool :=
  forallb (fun c => negb ((fst c =? utf8.RuneError)%N
                          && (String.length (snd c) =? 1)%nat))
    (utf8.runes s).

Definition Compile (expr : string) : option re :=
  if negb (valid_utf8 expr) then None
  else
    let inp := map fst (utf8.runes expr) in
    match parse_alt (4 * length inp + 8) inp with
    | Some (a, []) => Some a
    | _ => None
    end.

(** [step n a rest]: what may remain of [rest] after a match of [a]
    at its head, in a text of [n] runes. *)
Fixpoint step (n : nat) (a : re) (rest : list N) : list (list N) :=
  match a with
  | Emp => [rest]
  | Lit c =>
    match rest with
    | x :: t => if (x =? c)%N then [t] else []
    | [] => []
    end
  | Dot =>
    match rest with
    | x :: t => if (x =? 10)%N then [] else [t]
    | [] => []
    end
  | Bol => if (length rest =? n)%nat then [rest] else []
  | Eol => match rest with [] => [rest] | _ => [] end
  | Cat a b => flat_map (step n b) (step n a rest)
  | Alt a b => step n a rest ++ step n b rest
  | Star a =>
    (fix star (fuel : nat) (rest : list N) : list (list N) :=
       rest ::
       match fuel with
       | O => []
       | S fuel' =>
         flat_map
           (fun rest' =>
              if (length rest' <? length rest)%nat
              then star fuel' rest' else [])
           (step n a rest)
       end) (length rest) rest
  end.

Fixpoint match_from (n : nat) (a : re) (text : list N) : bool :=
  match step n a text with
  | _ :: _ => true
  | [] => match text with
          | _ :: text' => match_from n a text'
          | [] => false
          end
  end.

(** [regexp.MustCompile(expr).MatchString(s)]. *)
Definition MatchString (expr s : string) : bool :=
  match Compile expr with
  | Some a =>
    let text := map fst (utf8.runes s) in
    match_from (length text) a text
  | None => false
  end.

End regexp.

(** The reference instance, over a given catalog of extensions. *)
Definition externals (iana psl : list string) : Externals := {|
  idna_ToASCII := ToASCII;
  url_Parse := url.Parse;
  regexp_compiles := fun expr =>
    match regexp.Compile expr with Some _ => true | None => false end;
  regexp_MatchString := regexp.MatchString;
  IANAExtensions := Some iana;
  PSLSuffixes := Some psl
|}.

End Reference.

(** ** Notions used to state the properties *)

(** The rules of a list added one after the other, as the tests of the
    repository do; [None] when one of them panics. *)
Definition AddRules `{Externals} (rules : list string) (ruler : InternalRuler)
    : option InternalRuler :=
  fold_left
    (fun st rule =>
       match st with
       | Some ruler =>
         match AddRule rule ruler with
         | Some (_, ruler') => Some ruler'
         | None => None
         end
       | None => None
       end)
    rules (Some ruler).

Definition verdicts `{Externals} (st : option InternalRuler)
    (subjects : list string) : option (list bool) :=
  match st with
  | Some ruler => Some (map (IsWhitelisted ruler) subjects)
  | None => None
  end.

(** The engine after [AddRule rule], for stating what holds of it. *)
Definition afterAddRule `{Externals} (rule : string) (ruler : InternalRuler)
    : InternalRuler :=
  match AddRule rule ruler with
  | Some (_, ruler') => ruler'
  | None => ruler
  end.

(** The engine after [RemoveRule rule]. *)
Definition afterRemoveRule `{Externals} (rule : string) (ruler : InternalRuler)
    : InternalRuler :=
  match RemoveRule rule ruler with
  | Some (_, ruler') => ruler'
  | None => ruler
  end.

(** A line, or a rule, that is empty after trimming or starts with [#]. *)
Definition blankOrComment (line : string) : bool :=
  String.eqb (strings.TrimSpace line) ""
  || strings.HasPrefix (strings.TrimSpace line) "#".

(** The tokens of a line: the line trimmed, cut at its first [#], split
    at white space, with adjacent duplicates collapsed; a blank or
    comment-only line has none. *)
Definition lineTokens (line : string) : list string :=
  if blankOrComment line then []
  else
    let trimmed := strings.TrimSpace line in
    let text :=
      if strings.Contains trimmed "#"
      then strings.slice_to trimmed (strings.Index trimmed "#")
      else trimmed in
    slices.Compact (strings.Fields text).

(** The kind of a normalized rule: the first flag family that matches,
    tried in the order All, Reg, Rzdb, and Plain when none does. *)
Inductive RuleKind := Plain | All | Reg | Rzdb.

Definition classify `{Externals} (ruler : InternalRuler) (rule : string)
    : RuleKind :=
  if HasFlag (FlagsAll ruler) rule then All
  else if HasFlag (FlagsReg ruler) rule then Reg
  else if HasFlag (FlagsRzdb ruler) rule then Rzdb
  else Plain.

Definition isURL (s : string) : bool :=
  strings.HasPrefix s "http://" || strings.HasPrefix s "https://".

(** A plain rule that is a URL without an extractable net location, on
    an engine that handles complements: the case in which
    [parsePlainRule] and [unparsePlainRule] return false. *)
Definition plainURLWithoutNetLocation `{Externals} (ruler : InternalRuler)
    (rule : string) : bool :=
  match classify ruler rule with
  | Plain =>
    handle_complement ruler && isURL rule
    && match ExtractNetLocationFromURL rule with
       | Some _ => false
       | None => true
       end
  | _ => false
  end.

(** Whether adding the normalized rule panics: an expression that does
    not compile, or a catalog that cannot be fetched. *)
Definition addPanics `{Externals} (ruler : InternalRuler) (rule : string) : bool :=
  match classify ruler rule with
  | Reg =>
    match pushRegexRule (cleanupFlags (FlagsReg ruler) rule) ruler with
    | Some _ => false
    | None => true
    end
  | Rzdb =>
    match getKnownExtensions ruler with
    | Some _ => false
    | None => true
    end
  | _ => false
  end.

(** Whether [rule] is stored in an index, in the bucket of its key. *)
Definition stored (key : string -> string)
    (index : gmap string (list string)) (rule : string) : bool :=
  match index !! key rule with
  | Some rules => slices.Contains rules rule
  | None => false
  end.

(** The catalog a broad rule is expanded over. *)
Definition knownExtensions `{Externals} (ruler : InternalRuler) : list string :=
  match getKnownExtensions ruler with
  | Some (known, _) => known
  | None => []
  end.

Definition catalogAvailable `{Externals} (ruler : InternalRuler) : bool :=
  match getKnownExtensions ruler with
  | Some _ => true
  | None => false
  end.

(** The complement of a plain rule: its [www.] label toggled, in the
    net location when the rule is a URL. *)
Definition complementOf `{Externals} (rule : string) : option string :=
  if isURL rule then
    match ExtractNetLocationFromURL rule with
    | None => None
    | Some netloc =>
      if strings.HasPrefix netloc "www."
      then Some (strings.ReplaceAll rule netloc
                   (strings.TrimPrefix netloc "www."))
      else Some (strings.ReplaceAll rule netloc ("www." +:+ netloc))
    end
  else if strings.HasPrefix rule "www."
  then Some (strings.TrimPrefix rule "www.")
  else Some ("www." +:+ rule).

(** The body of a broad rule as [unparseRZDBFlagedRule] computes it. *)
Definition broadBody `{Externals} (ruler : InternalRuler) (rule : string)
    : string :=
  let record := cleanupFlags (FlagsRzdb ruler) rule in
  if handle_complement ruler && strings.HasPrefix record "www."
  then strings.TrimPrefix record "www." else record.

(** The strict entries of a broad rule with body [record]. *)
Definition broadEntries (complement : bool) (record : string)
    (known : list string) : list string :=
  flat_map
    (fun extension =>
       (record +:+ "." +:+ extension)
       :: (if complement then ["www." +:+ record +:+ "." +:+ extension]
           else []))
    known.

(** The body of a broad rule as [parseRZDBFlagedRule] computes it. *)
Definition addedBroadBody `{Externals} (ruler : InternalRuler) (rule : string)
    : string :=
  let record := cleanupFlags (FlagsRzdb ruler) rule in
  let record :=
    if handle_complement ruler && strings.HasPrefix record "www."
    then strings.TrimPrefix record "www." else record in
  if handle_complement ruler && strings.HasPrefix record "www."
  then strings.TrimPrefix record "www." else record.

(** The strict entries of a normalized rule, in the order in which the
    engine goes through them, a broad rule having the body [body]. *)
Definition strictEntries `{Externals} (ruler : InternalRuler) (rule : string)
    (body : string) : list string :=
  match classify ruler rule with
  | All =>
    let record := cleanupFlags (FlagsAll ruler) rule in
    if strings.HasPrefix record "." then
      if (1 <? strings.Count record ".")%nat then
        (if handle_complement ruler
         then ["www." +:+ strings.TrimPrefix record "."] else [])
        ++ [strings.TrimPrefix record "."]
      else []
    else [record]
  | Reg => []
  | Rzdb =>
    broadEntries (handle_complement ruler) body (knownExtensions ruler)
  | Plain =>
    if handle_complement ruler then
      match complementOf rule with
      | Some complement => [complement; rule]
      | None => []
      end
    else [rule]
  end.

(** The strict entries that [RemoveRule] looks for, and those that
    [AddRule] stores. *)
Definition strictTargets `{Externals} (ruler : InternalRuler) (rule : string)
    : list string :=
  strictEntries ruler rule (broadBody ruler rule).

Definition strictAdded `{Externals} (ruler : InternalRuler) (rule : string)
    : list string :=
  strictEntries ruler rule (addedBroadBody ruler rule).

(** The suffix entries that [RemoveRule] looks for, which are those
    that [AddRule] stores. *)
Definition endsTargets `{Externals} (ruler : InternalRuler) (rule : string)
    : list string :=
  match classify ruler rule with
  | All =>
    let record := cleanupFlags (FlagsAll ruler) rule in
    if strings.HasPrefix record "." then [record] else ["." +:+ record]
  | _ => []
  end.

(** The entries of a list pushed to, or pulled from, an index one
    after the other. *)
Definition pushAll (key : string -> string) (rules : list string)
    (index : gmap string (list string)) : gmap string (list string) :=
  fold_left (fun index rule => push (key rule) rule index) rules index.

Definition pullAll (key : string -> string) (rules : list string)
    (index : gmap string (list string)) : gmap string (list string) :=
  fold_left (fun index rule => pull (key rule) rule index) rules index.

(** The bucket of a key: a missing key reads as the empty slice. *)
Definition bucket (index : gmap string (list string)) (key : string)
    : list string :=
  default [] (index !! key).

(** Two indices whose buckets hold the same entries, as often, in any
    order. *)
Definition sameBuckets (index index' : gmap string (list string)) : Prop :=
  forall key, bucket index key ≡ₚ bucket index' key.

Definition removeFirst (rule : string) (rules : list string) : list string :=
  match pull_first rule rules with
  | Some rules' => rules'
  | None => rules
  end.

(** A clause that the removal of a regex rule leaves alone: nothing is
    accumulated, or the clause does not occur in the accumulated
    expression and the matcher was compiled from that expression. *)
Definition clauseAbsent `{Externals} (ruler : InternalRuler) (clause : string)
    : Prop :=
  regex ruler = "" \/ compiled_regexp ruler = None
  \/ (strings.Contains (regex ruler) clause = false
      /\ compiled_regexp ruler = regexp_MustCompile (regex ruler)).

(** Two engines that differ at most in the strict index, the suffix
    index and the cached catalog. *)
Definition sameConfig (ruler ruler' : InternalRuler) : Prop :=
  present ruler' = present ruler /\ regex ruler' = regex ruler
  /\ compiled_regexp ruler' = compiled_regexp ruler
  /\ handle_complement ruler' = handle_complement ruler
  /\ FlagsAll ruler' = FlagsAll ruler /\ FlagsReg ruler' = FlagsReg ruler
  /\ FlagsRzdb ruler' = FlagsRzdb ruler.

(** Two engines with the same indices and the same configuration. *)
Definition sameIndices (ruler ruler' : InternalRuler) : Prop :=
  strict ruler' = strict ruler /\ ends ruler' = ends ruler
  /\ present ruler' = present ruler /\ regex ruler' = regex ruler
  /\ compiled_regexp ruler' = compiled_regexp ruler
  /\ handle_complement ruler' = handle_complement ruler.

(** ** internal/helpers and cmd, as far as they compute *)

(** [helpers.JoinWithPipe]. *)
Definition JoinWithPipe (elements : list string) : string :=
  match elements with
  | [] => ""
  | first :: rest =>
    fold_left (fun result elem => result +:+ "|" +:+ elem) rest first
  end.

(** The closure that [processCleanup] runs on each line of the source
    file: whether the line is written to the output. *)
Definition processCleanupLine `{Externals} (g : givilstaRuler) (line : string)
    : bool :=
  negb (String.eqb (strings.TrimSpace line) "") && IsSubjectBlacklisted g line.

(** The output of [processCleanup] for a source file given by its
    lines, in the order in which [helpers.IterFile] yields them. *)
Definition processCleanupOutput `{Externals} (g : givilstaRuler)
    (lines : list string) : list string :=
  fold_left
    (fun output line =>
       if processCleanupLine g line then output ++ [line] else output)
    lines [].

(** ** Further notions *)

(** Whether removing the normalized rule panics: an accumulated
    expression that does not compile any more, or a catalog that cannot
    be fetched. *)
Definition removePanics `{Externals} (ruler : InternalRuler) (rule : string)
    : bool :=
  match classify ruler rule with
  | Reg =>
    match pullRegexRule (cleanupFlags (FlagsReg ruler) rule) ruler with
    | Some _ => false
    | None => true
    end
  | Rzdb =>
    match getKnownExtensions ruler with
    | Some _ => false
    | None => true
    end
  | _ => false
  end.

(** The engines that calls of [AddRule] and [RemoveRule] lead to from a
    fresh one. *)
Inductive reachable `{Externals} (handle_complement : bool)
    : InternalRuler -> Prop :=
| reachable_new : reachable handle_complement (NewInternalRuler handle_complement)
| reachable_add (rule : string) (ruler ruler' : InternalRuler) (result : bool) :
    reachable handle_complement ruler ->
    AddRule rule ruler = Some (result, ruler') ->
    reachable handle_complement ruler'
| reachable_remove (rule : string) (ruler ruler' : InternalRuler)
    (result : bool) :
    reachable handle_complement ruler ->
    RemoveRule rule ruler = Some (result, ruler') ->
    reachable handle_complement ruler'.

(** What no call changes: the [present] index, the handling of
    complements and the flag lists. *)
Definition sameSetup (ruler ruler' : InternalRuler) : Prop :=
  present ruler' = present ruler
  /\ handle_complement ruler' = handle_complement ruler
  /\ FlagsAll ruler' = FlagsAll ruler /\ FlagsReg ruler' = FlagsReg ruler
  /\ FlagsRzdb ruler' = FlagsRzdb ruler.

(** An engine without a compiled expression has no accumulated one. *)
Definition regexInStep (ruler : InternalRuler) : Prop :=
  compiled_regexp ruler = None -> regex ruler = "".

(** The suffix entry of a suffix rule with body [record]. *)
Definition suffixEntry (record : string) : string :=
  if strings.HasPrefix record "." then record else "." +:+ record.

(** Whether [AddRule] stores the entries of a rule: its normalized
    form is not empty, and it is not the plain URL rule that is
    refused. *)
Definition accepted `{Externals} (ruler : InternalRuler) (rule : string)
    : bool :=
  negb (String.eqb (NormalizeRule rule) "")
  && negb (plainURLWithoutNetLocation ruler (NormalizeRule rule)).

(** The strict and the suffix entries that [AddRule] stores for a rule
    that is not a regex rule. *)
Definition strictGain `{Externals} (ruler : InternalRuler) (rule : string)
    : list string :=
  if accepted ruler rule then strictAdded ruler (NormalizeRule rule) else [].

Definition endsGain `{Externals} (ruler : InternalRuler) (rule : string)
    : list string :=
  if accepted ruler rule then endsTargets ruler (NormalizeRule rule) else [].

(** * Properties *)

(** ** The slices stay in range *)

Lemma eqb_empty_false (s : string) : s <> "" -> String.eqb s "" = false.
Proof. intros Hne. by apply String.eqb_neq. Qed.

Lemma prefix_length (p s : string) :
  String.prefix p s = true -> String.length p <= String.length s.
Proof.
  revert s. induction p as [|a p IH]; intros [|b s]; simpl; try lia; try done.
  destruct (ascii_dec a b); [|done]. intros Hp. apply IH in Hp. lia.
Qed.

Lemma index_in_range (sub s : string) (i : nat) :
  String.index 0 sub s = Some i ->
  i + String.length sub <= String.length s.
Proof.
  revert i. induction s as [|c s IH]; intros i.
  - destruct sub; simpl; [|done]. intros [= <-]. simpl. lia.
  - cbn [String.index].
    destruct (String.prefix sub (String c s)) eqn:Hp.
    + intros [= <-]. apply prefix_length in Hp. lia.
    + destruct (String.index 0 sub s) as [j|]; [|done].
      intros [= <-]. specialize (IH j eq_refl). simpl. lia.
Qed.

(** [Index] is -1 or the position of an instance that fits in [s]. *)
Lemma Index_in_range (s sub : string) :
  strings.Contains s sub = true ->
  (0 <= strings.Index s sub
   /\ strings.Index s sub + Z.of_nat (String.length sub)
      <= Z.of_nat (String.length s))%Z.
Proof.
  unfold strings.Contains, strings.Index.
  destruct (String.index 0 sub s) as [i|] eqn:Hi.
  - intros _. apply index_in_range in Hi. lia.
  - intros Hneg. apply Z.leb_le in Hneg. lia.
Qed.

(** The cut of [NormalizeRule] and [NormalizeSubject],
    [rule[:strings.Index(rule, "#")-1]], is taken on a rule that does
    not start with [#]: its bound is never negative. *)
Lemma comment_cut_in_range (rule : string) :
  strings.HasPrefix rule "#" = false ->
  strings.Contains rule "#" = true ->
  (0 <= strings.Index rule "#" - 1 <= Z.of_nat (String.length rule))%Z.
Proof.
  intros Hstart Hin. pose proof (Index_in_range _ _ Hin) as [_ Hhigh].
  revert Hstart Hin Hhigh.
  unfold strings.HasPrefix, strings.Contains, strings.Index.
  destruct rule as [|c rule]; [done|]. cbn [String.index].
  intros ->. destruct (String.index 0 "#" rule) as [i|].
  - intros _. cbn [String.length]. lia.
  - done.
Qed.

(** [x[0]] and [x[1]] of [idnaze] exist: cutting at the first of the
    instances of a separator that occurs gives two parts. *)
Lemma split_from_no_cut (sep : string) (skip : nat) (s : string) :
  length (strings.split_from sep (Some 0) skip s) = 1.
Proof.
  revert skip. induction s as [|c s IH]; intros skip; simpl; [done|].
  destruct skip; [done|]. apply IH.
Qed.

Lemma SplitN_two_parts (s sep : string) :
  sep <> "" -> strings.Contains s sep = true ->
  length (strings.SplitN s sep 2) = 2.
Proof.
  intros Hsep. unfold strings.Contains, strings.Index, strings.SplitN.
  rewrite (eqb_empty_false _ Hsep). simpl.
  induction s as [|c s IH].
  - destruct sep; [done|]. simpl. intros Hneg. apply Z.leb_le in Hneg. lia.
  - cbn [String.index strings.split_from].
    destruct (String.prefix sep (String c s)).
    + intros _. simpl. by rewrite split_from_no_cut.
    + destruct (String.index 0 sep s) as [i|] eqn:Hi.
      * intros _. specialize (IH ltac:(apply Z.leb_le; lia)).
        destruct (strings.split_from sep (Some 1) 0 s); simpl in *; lia.
      * intros Hneg. apply Z.leb_le in Hneg. lia.
Qed.

(** ** The tests of the repository, replayed on the reference instance *)

Section RepositoryTests.

Local Abbreviation E := (Reference.externals ["de"; "com"] ["org"; "net"]).

(** [TestIdnazeString] and [TestIdnaze] of transformer_test.go. *)
Example TestIdnaze :
  map (@idnaze E)
    [""; "local"; "0.0.0.0"; "example.com"; "    example.org  ";
     "xn--ls8h.xn--ls8h"; "saarbrücken.saarland"; "localhost"; "# comment";
     "saarbrücken.saarland # comment"; "0.0.0.0 saarbrücken.saarland";
     "saarbrücken.saarland   # comment"]
  = map Some
      [""; "local"; "0.0.0.0"; "example.com"; "example.org";
       "xn--ls8h.xn--ls8h"; "xn--saarbrcken-feb.saarland"; "localhost";
       "# comment"; "xn--saarbrcken-feb.saarland # comment";
       "0.0.0.0 xn--saarbrcken-feb.saarland";
       "xn--saarbrcken-feb.saarland   # comment"].
Proof. vm_compute. reflexivity. Qed.

(** [TestNormalizeURL]. *)
Example TestNormalizeURL :
  map (@NormalizeURL E)
    ["http://saarbrücken.saarland"; "https://saarbrücken.de";
     "ftp://saarbrücken.saarland"; "http://localhost:8080";
     "http://saarbrücken.com/path?query=1";
     "//saarbrücken.com/path?query=1"]
  = ["http://xn--saarbrcken-feb.saarland"; "https://xn--saarbrcken-feb.de";
     "ftp://xn--saarbrcken-feb.saarland"; "http://localhost:8080";
     "http://xn--saarbrcken-feb.com/path?query=1";
     "//xn--saarbrcken-feb.com/path?query=1"].
Proof. vm_compute. reflexivity. Qed.

(** [TestExctractNetLocationFromURL]. *)
Example TestExtractNetLocationFromURL :
  map (@ExtractNetLocationFromURL E)
    ["http://example.com"; "https://www.example.com/path?query=1";
     "ftp://example.com/resource"; "http://localhost:8080";
     "https://localhost"; "/path/to/resource"]
  = map Some
      ["example.com"; "www.example.com"; "example.com"; "localhost";
       "localhost"; ""].
Proof. vm_compute. reflexivity. Qed.

(** [TestIsWhitelisted] of checker_test.go. *)
Example TestIsWhitelisted :
  verdicts (H := E)
    (AddRules (H := E)
       ["foo.example.com"; "https://saarbrücken.saarland/foo/bar";
        "ALL .org"; "ALL .foo.saarlouis.de"; "ALL foo"; "REG vöklingen.*";
        "RZDB güter"]
       (NewInternalRuler false))
    [""; "example.com"; "bar.example.com"; "foo.example.com";
     "bar.example.org"; "saarbrücken.org"; "https://saarbrücken.saarland";
     "https://saarbrücken.saarland/foo/bar"; "vöklingen.de";
     "vöklingen.com"; "https://vöklingen.de/foo/bar"; "güter.de";
     "https://güter.org"; "saarlouis.de"; "www.foo.saarlouis.de";
     "foo.saarlouis.de"; "bar.foo.saarlouis.de"; "foo"; "bar.foo"]
  = Some [false; false; false; true; true; true; false; true; true; true;
          true; true; true; false; true; true; true; true; true].
Proof. vm_compute. reflexivity. Qed.

(** [TestIsWhitelistedWithComplements]. *)
Example TestIsWhitelistedWithComplements :
  verdicts (H := E)
    (AddRules (H := E)
       ["foo.example.com"; "https://saarbrücken.saarland/foo/bar";
        "ALL .org"; "ALL .foo.saarlouis.de"; "ALL foo"; "RZDB www.güter"]
       (NewInternalRuler true))
    [""; "example.com"; "bar.example.com"; "foo.example.com";
     "www.foo.example.com"; "https://saarbrücken.saarland";
     "https://saarbrücken.saarland/foo/bar";
     "https://www.saarbrücken.saarland/foo/bar"; "güter.de";
     "www.güter.de"; "https://www.güter.org"; "saarlouis.de";
     "www.bar.foo.saarlouis.de"; "foo.foo"]
  = Some [false; false; false; true; true; false; true; true; true; true;
          true; false; true; true].
Proof. vm_compute. reflexivity. Qed.

End RepositoryTests.

(** ** The rules and subjects the specification names *)

Lemma app_four (a b c d : string) (iana psl : list string) :
  iana ++ psl = [a; b; c; d] ->
  (iana = [] /\ psl = [a; b; c; d]) \/ (iana = [a] /\ psl = [b; c; d])
  \/ (iana = [a; b] /\ psl = [c; d]) \/ (iana = [a; b; c] /\ psl = [d])
  \/ (iana = [a; b; c; d] /\ psl = []).
Proof.
  intros Hcat.
  destruct iana as [|x1 iana]; [left; auto|right].
  simpl in Hcat; injection Hcat as -> Hcat.
  destruct iana as [|x2 iana]; [left; auto|right].
  simpl in Hcat; injection Hcat as -> Hcat.
  destruct iana as [|x3 iana]; [left; auto|right].
  simpl in Hcat; injection Hcat as -> Hcat.
  destruct iana as [|x4 iana]; [left; auto|right].
  simpl in Hcat; injection Hcat as -> Hcat.
  destruct iana; [|discriminate]. auto.
Qed.

Section NamedRules.

(** The two feeds of the extension catalog; only a broad rule reads
    them. *)
Variables iana psl : list string.

Local Abbreviation E := (Reference.externals iana psl).

(** C1.  On a fresh engine, with or without complement handling,
    [AddRule "foo.example.com"] returns true, after which
    ["foo.example.com"] is whitelisted and ["bar.example.com"] is
    not. *)
Theorem plain_rule_exact_match (hc : bool) :
  let ruler := afterAddRule (H := E) "foo.example.com" (NewInternalRuler hc) in
  AddRule (H := E) "foo.example.com" (NewInternalRuler hc) = Some (true, ruler)
  /\ IsWhitelisted (H := E) ruler "foo.example.com" = true
  /\ IsWhitelisted (H := E) ruler "bar.example.com" = false.
Proof.
  destruct hc; cbv zeta; repeat apply conj; vm_compute; reflexivity.
Qed.

(** C2.  On a fresh engine, after [AddRule "ALL .org"] the subject
    ["bar.example.org"] is whitelisted and ["example.com"] is not. *)
Theorem suffix_rule_org (hc : bool) :
  let ruler := afterAddRule (H := E) "ALL .org" (NewInternalRuler hc) in
  AddRule (H := E) "ALL .org" (NewInternalRuler hc) = Some (true, ruler)
  /\ IsWhitelisted (H := E) ruler "bar.example.org" = true
  /\ IsWhitelisted (H := E) ruler "example.com" = false.
Proof.
  destruct hc; cbv zeta; repeat apply conj; vm_compute; reflexivity.
Qed.

(** C3.  On a fresh engine whose catalog, the entries of the two feeds
    one after the other, is exactly de, com, org, net: after
    [AddRule "RZDB güter"] the subjects ["güter.de"], ["güter.com"],
    ["güter.org"] and ["güter.net"] are whitelisted and ["güter.io"]
    is not. *)
Theorem broad_rule_fixed_catalog (hc : bool) :
  iana ++ psl = ["de"; "com"; "org"; "net"] ->
  let ruler := afterAddRule (H := E) "RZDB güter" (NewInternalRuler hc) in
  AddRule (H := E) "RZDB güter" (NewInternalRuler hc) = Some (true, ruler)
  /\ IsWhitelisted (H := E) ruler "güter.de" = true
  /\ IsWhitelisted (H := E) ruler "güter.com" = true
  /\ IsWhitelisted (H := E) ruler "güter.org" = true
  /\ IsWhitelisted (H := E) ruler "güter.net" = true
  /\ IsWhitelisted (H := E) ruler "güter.io" = false.
Proof.
  intros Hcat.
  destruct (app_four _ _ _ _ _ _ Hcat)
    as [[-> ->]|[[-> ->]|[[-> ->]|[[-> ->]|[-> ->]]]]];
    destruct hc; cbv zeta; repeat apply conj; vm_compute; reflexivity.
Qed.

(** C6.  On a fresh engine, after [AddRule "REG vöklingen.*"] the
    subject ["vöklingen.de"] is whitelisted. *)
Theorem regex_rule_voeklingen (hc : bool) :
  let ruler := afterAddRule (H := E) "REG vöklingen.*" (NewInternalRuler hc) in
  AddRule (H := E) "REG vöklingen.*" (NewInternalRuler hc) = Some (true, ruler)
  /\ IsWhitelisted (H := E) ruler "vöklingen.de" = true.
Proof.
  destruct hc; cbv zeta; repeat apply conj; vm_compute; reflexivity.
Qed.

(** C7.  On a fresh engine to which only the full URL
    ["https://saarbrücken.saarland/foo/bar"] was added, the host alone,
    ["https://saarbrücken.saarland"], is not whitelisted, and the full
    URL is. *)
Theorem full_url_rule (hc : bool) :
  let ruler :=
    afterAddRule (H := E) "https://saarbrücken.saarland/foo/bar"
      (NewInternalRuler hc) in
  AddRule (H := E) "https://saarbrücken.saarland/foo/bar" (NewInternalRuler hc)
  = Some (true, ruler)
  /\ IsWhitelisted (H := E) ruler "https://saarbrücken.saarland" = false
  /\ IsWhitelisted (H := E) ruler "https://saarbrücken.saarland/foo/bar" = true.
Proof.
  destruct hc; cbv zeta; repeat apply conj; vm_compute; reflexivity.
Qed.

End NamedRules.

Lemma broad_rule_fixed_catalog_witness :
  let E := Reference.externals ["de"; "com"] ["org"; "net"] in
  let ruler := afterAddRule (H := E) "RZDB güter" (NewInternalRuler false) in
  AddRule (H := E) "RZDB güter" (NewInternalRuler false) = Some (true, ruler)
  /\ IsWhitelisted (H := E) ruler "güter.de" = true
  /\ IsWhitelisted (H := E) ruler "güter.com" = true
  /\ IsWhitelisted (H := E) ruler "güter.org" = true
  /\ IsWhitelisted (H := E) ruler "güter.net" = true
  /\ IsWhitelisted (H := E) ruler "güter.io" = false.
Proof.
  exact (broad_rule_fixed_catalog ["de"; "com"] ["org"; "net"] false eq_refl).
Defined.

(** ** The line helpers *)

Lemma fold_left_select {A : Type} (p : A -> bool) (l acc : list A) :
  fold_left (fun result x => if p x then result ++ [x] else result) l acc
  = acc ++ List.filter p l.
Proof.
  revert acc. induction l as [|x l IH]; intros acc; simpl.
  - by rewrite app_nil_r.
  - rewrite IH. destruct (p x); [|done]. by rewrite <- app_assoc.
Qed.

Lemma filter_sublist_of {A : Type} (p : A -> bool) (l : list A) :
  sublist (List.filter p l) l.
Proof.
  induction l as [|x l IH]; simpl; [constructor|].
  destruct (p x); by constructor.
Qed.

Lemma elem_of_bool_filter {A : Type} (p : A -> bool) (l : list A) (x : A) :
  x ∈ List.filter p l <-> x ∈ l /\ p x = true.
Proof. rewrite !list_elem_of_In. apply filter_In. Qed.

Section Lines.

Context `{Externals}.

Lemma GetWhitelistedFromLine_filter (g : givilstaRuler) (line : string) :
  GetWhitelistedFromLine g line
  = List.filter (IsSubjectWhitelisted g) (lineTokens line).
Proof.
  unfold GetWhitelistedFromLine, lineTokens, blankOrComment.
  destruct (_ || _); [done|]. by rewrite fold_left_select.
Qed.

Lemma GetBlacklistedFromLine_filter (g : givilstaRuler) (line : string) :
  GetBlacklistedFromLine g line
  = List.filter (IsSubjectBlacklisted g) (lineTokens line).
Proof.
  unfold GetBlacklistedFromLine, lineTokens, blankOrComment.
  destruct (_ || _); [done|]. by rewrite fold_left_select.
Qed.

(** C10.  Each token of a line is in exactly one of the whitelisted and
    the blacklisted subjects of that line; both results are the tokens
    that [IsSubjectWhitelisted] accepts, respectively rejects, in the
    order of the line; a blank or comment-only line yields two empty
    lists. *)
Theorem line_tokens_partition (g : givilstaRuler) (line : string) :
  let tokens := lineTokens line in
  let white := GetWhitelistedFromLine g line in
  let black := GetBlacklistedFromLine g line in
  white = List.filter (IsSubjectWhitelisted g) tokens
  /\ black = List.filter (fun t => negb (IsSubjectWhitelisted g t)) tokens
  /\ (forall t, t ∈ tokens ->
        (t ∈ white /\ t ∉ black) \/ (t ∈ black /\ t ∉ white))
  /\ sublist white tokens
  /\ sublist black tokens
  /\ (blankOrComment line = true -> white = [] /\ black = []).
Proof.
  cbv zeta.
  rewrite GetWhitelistedFromLine_filter, GetBlacklistedFromLine_filter.
  unfold IsSubjectBlacklisted.
  repeat apply conj; try reflexivity; try apply filter_sublist_of.
  - intros t Ht. rewrite !elem_of_bool_filter.
    destruct (IsSubjectWhitelisted g t) eqn:Hw; [left|right];
      (split; [by split|]); intros [_ Hno]; discriminate Hno.
  - intros Hblank. unfold lineTokens. by rewrite Hblank.
Qed.

End Lines.

(** ** What [AddRule] returns *)

Section AddRuleResult.

Context `{Externals}.

Lemma NormalizeRule_blankOrComment (rule : string) :
  blankOrComment rule = true -> NormalizeRule rule = "".
Proof.
  unfold blankOrComment, NormalizeRule. by intros ->.
Qed.

(** C5, as the engine has it.  [AddRule] returns false, and changes
    nothing, on a rule that is empty or comment-only after trimming.
    On a rule whose normalized form is not empty, and unless the call
    panics, it returns true, except on a plain URL rule without an
    extractable net location when complements are handled, on which it
    returns false and changes nothing. *)
Theorem AddRule_returns (rule : string) (ruler : InternalRuler) :
  (blankOrComment rule = true -> AddRule rule ruler = Some (false, ruler))
  /\ (NormalizeRule rule <> "" ->
      addPanics ruler (NormalizeRule rule) = false ->
      if plainURLWithoutNetLocation ruler (NormalizeRule rule)
      then AddRule rule ruler = Some (false, ruler)
      else exists ruler', AddRule rule ruler = Some (true, ruler')).
Proof.
  split.
  - intros Hblank. unfold AddRule.
    by rewrite (NormalizeRule_blankOrComment _ Hblank).
  - intros Hne. unfold AddRule. rewrite (eqb_empty_false _ Hne).
    generalize (NormalizeRule rule) as n. clear Hne. intros n.
    unfold addPanics, plainURLWithoutNetLocation, classify, orElse,
      parseAllFlaggedRule, parseRegexFlaggedRule, parseRZDBFlagedRule,
      parsePlainRule, isURL.
    destruct (HasFlag (FlagsAll ruler) n); simpl.
    { intros _. destruct (strings.HasPrefix _ "."); eauto. }
    destruct (HasFlag (FlagsReg ruler) n); simpl.
    { destruct (pushRegexRule _ ruler); [eauto|discriminate]. }
    destruct (HasFlag (FlagsRzdb ruler) n); simpl.
    { destruct (getKnownExtensions ruler) as [[known ruler']|];
        [eauto|discriminate]. }
    intros _. destruct (handle_complement ruler); simpl; [|eauto].
    destruct (_ || _); simpl; [|eauto].
    destruct (ExtractNetLocationFromURL n); eauto.
Qed.

End AddRuleResult.

(** A rule on which [AddRule] returns true by the theorem above. *)
Lemma AddRule_returns_witness :
  exists ruler',
    AddRule (H := Reference.externals [] []) "foo.example.com"
      (NewInternalRuler true) = Some (true, ruler').
Proof.
  pose proof (proj2 (AddRule_returns (H := Reference.externals [] [])
                      "foo.example.com" (NewInternalRuler true))) as step.
  assert (NormalizeRule (H := Reference.externals [] []) "foo.example.com"
          <> "") as Hne by (vm_compute; discriminate).
  assert (addPanics (H := Reference.externals [] []) (NewInternalRuler true)
            (NormalizeRule (H := Reference.externals [] []) "foo.example.com")
          = false) as Hpanic by (vm_compute; reflexivity).
  assert (plainURLWithoutNetLocation (H := Reference.externals [] [])
            (NewInternalRuler true)
            (NormalizeRule (H := Reference.externals [] []) "foo.example.com")
          = false) as Hurl by (vm_compute; reflexivity).
  specialize (step Hne Hpanic). rewrite Hurl in step. exact step.
Defined.

(** C5 as stated fails: with complements handled, this rule is neither
    empty nor a comment, and [AddRule] returns false on it. *)
Lemma AddRule_false_on_url_without_host :
  blankOrComment "http://a b" = false
  /\ AddRule (H := Reference.externals [] []) "http://a b" (NewInternalRuler true)
     = Some (false, NewInternalRuler true).
Proof. split; vm_compute; reflexivity. Qed.

(** ** The index store *)

Lemma pull_first_absent (rule : string) (rules : list string) :
  slices.Contains rules rule = false -> pull_first rule rules = None.
Proof.
  unfold slices.Contains.
  induction rules as [|r rules IH]; simpl; [done|].
  rewrite (String.eqb_sym rule r).
  destruct (String.eqb r rule); simpl; [done|].
  intros Habsent. by rewrite IH.
Qed.

Lemma pull_not_stored (key : string -> string)
    (index : gmap string (list string)) (rule : string) :
  stored key index rule = false -> pull (key rule) rule index = index.
Proof.
  unfold stored, pull. destruct (index !! key rule) as [rules|]; [|done].
  intros Habsent. by rewrite pull_first_absent.
Qed.

Lemma pullAll_not_stored (key : string -> string) (rules : list string)
    (index : gmap string (list string)) :
  (forall rule, rule ∈ rules -> stored key index rule = false) ->
  pullAll key rules index = index.
Proof.
  unfold pullAll. induction rules as [|rule rules IH]; simpl; [done|].
  intros Habsent. rewrite pull_not_stored.
  - apply IH. intros r Hr. apply Habsent. by right.
  - apply Habsent. by left.
Qed.

Lemma pullAll_app (key : string -> string) (l1 l2 : list string)
    (index : gmap string (list string)) :
  pullAll key (l1 ++ l2) index = pullAll key l2 (pullAll key l1 index).
Proof. apply fold_left_app. Qed.

Lemma pushAll_app (key : string -> string) (l1 l2 : list string)
    (index : gmap string (list string)) :
  pushAll key (l1 ++ l2) index = pushAll key l2 (pushAll key l1 index).
Proof. apply fold_left_app. Qed.

(** ** [strings.ReplaceAll] on a string without the old text *)

Lemma replace_from_absent (old new : string) (s : string) :
  String.index 0 old s = None ->
  strings.replace_from old new None 0 s = s.
Proof.
  induction s as [|c s IH]; simpl; [done|].
  match goal with
  | |- context [if ?starts then Some 0 else _] => destruct starts
  end; [done|].
  destruct (String.index 0 old s); [done|].
  intros _. by rewrite IH.
Qed.

Lemma ReplaceAll_absent (s old new : string) :
  strings.Contains s old = false -> strings.ReplaceAll s old new = s.
Proof.
  unfold strings.Contains, strings.Index, strings.ReplaceAll, strings.Replace.
  destruct (String.index 0 old s) as [i|] eqn:Hindex.
  { intros Hneg. apply Z.leb_gt in Hneg. lia. }
  intros _. destruct (String.eqb old new); simpl; [done|].
  destruct (String.eqb old "") eqn:Hold.
  - apply String.eqb_eq in Hold. subst old.
    destruct s; simpl in Hindex; discriminate.
  - by apply replace_from_absent.
Qed.

(** ** [RemoveRule] as a sequence of pulls *)

Section Removal.

Context `{Externals}.

Lemma sameConfig_refl (ruler : InternalRuler) : sameConfig ruler ruler.
Proof. by repeat split. Qed.

Lemma getKnownExtensions_fields (ruler ruler' : InternalRuler)
    (known : list string) :
  getKnownExtensions ruler = Some (known, ruler') ->
  strict ruler' = strict ruler /\ ends ruler' = ends ruler
  /\ sameConfig ruler ruler' /\ extensions ruler' = known.
Proof.
  unfold getKnownExtensions.
  destruct (length (extensions ruler) =? 0)%nat.
  - destruct IANAExtensions, PSLSuffixes; try discriminate.
    intros [= <- <-]. by repeat split.
  - intros [= <- <-]. by repeat split.
Qed.

Lemma sameConfig_trans (r1 r2 r3 : InternalRuler) :
  sameConfig r1 r2 -> sameConfig r2 r3 -> sameConfig r1 r3.
Proof.
  unfold sameConfig.
  intros (? & ? & ? & ? & ? & ? & ?) (? & ? & ? & ? & ? & ? & ?).
  repeat split; congruence.
Qed.

(** One turn of the loop of [unparseRZDBFlagedRule]. *)
Lemma unparse_broad_step (entry complement : string) (ruler : InternalRuler) :
  let ruler' :=
    if handle_complement (pullStrictRule entry ruler)
    then pullStrictRule complement (pullStrictRule entry ruler)
    else pullStrictRule entry ruler in
  strict ruler'
  = pullAll commonSearchKeyFromRule
      (entry :: (if handle_complement ruler then [complement] else []))
      (strict ruler)
  /\ ends ruler' = ends ruler /\ sameConfig ruler ruler'
  /\ extensions ruler' = extensions ruler.
Proof.
  simpl. destruct (handle_complement ruler) eqn:Hhc; simpl;
    rewrite ?Hhc; by repeat split.
Qed.

(** The loop of [unparseRZDBFlagedRule]. *)
Lemma unparse_broad_loop (record : string) (known : list string)
    (ruler : InternalRuler) :
  let ruler' :=
    fold_left
      (fun ruler extension =>
         let ruler := pullStrictRule (record +:+ "." +:+ extension) ruler in
         if handle_complement ruler
         then pullStrictRule ("www." +:+ record +:+ "." +:+ extension) ruler
         else ruler)
      known ruler in
  strict ruler'
  = pullAll commonSearchKeyFromRule
      (broadEntries (handle_complement ruler) record known) (strict ruler)
  /\ ends ruler' = ends ruler /\ sameConfig ruler ruler'
  /\ extensions ruler' = extensions ruler.
Proof.
  cbv zeta. revert ruler.
  induction known as [|extension known IH]; intros ruler.
  - by repeat split.
  - cbn [fold_left].
    destruct (unparse_broad_step (record +:+ "." +:+ extension)
                ("www." +:+ record +:+ "." +:+ extension) ruler)
      as (Hstrict1 & Hends1 & Hconfig1 & Hext1).
    match goal with
    | |- context [fold_left _ known ?start] =>
      destruct (IH start) as (Hstrict & Hends & Hconfig & Hext)
    end.
    rewrite Hstrict, Hends, Hext, Hstrict1, Hends1, Hext1.
    assert (Hhc := Hconfig1). destruct Hhc as (_ & _ & _ & -> & _).
    split; [|split; [done|split; [by eapply sameConfig_trans|done]]].
    unfold broadEntries. cbn [flat_map]. by rewrite pullAll_app.
Qed.

Lemma IsWhitelisted_sameIndices (ruler ruler' : InternalRuler)
    (subject : string) :
  sameIndices ruler ruler' ->
  IsWhitelisted ruler' subject = IsWhitelisted ruler subject.
Proof.
  intros (Hstrict & Hends & Hpresent & _ & Hcompiled & Hhc).
  unfold IsWhitelisted, matchesSubject.
  by rewrite Hstrict, Hends, Hpresent, Hcompiled, Hhc.
Qed.

(** What [unparseRZDBFlagedRule] does on a broad rule. *)
Lemma unparseRZDBFlagedRule_pulls (rule : string) (ruler ruler0 : InternalRuler)
    (known : list string) :
  HasFlag (FlagsRzdb ruler) rule = true ->
  getKnownExtensions ruler = Some (known, ruler0) ->
  exists ruler',
    unparseRZDBFlagedRule rule ruler = Some (true, ruler')
    /\ strict ruler'
       = pullAll commonSearchKeyFromRule
           (broadEntries (handle_complement ruler) (broadBody ruler rule) known)
           (strict ruler)
    /\ ends ruler' = ends ruler /\ sameConfig ruler ruler'
    /\ extensions ruler' = known.
Proof.
  intros Hflag Hknown.
  destruct (getKnownExtensions_fields _ _ _ Hknown)
    as (Hstrict0 & Hends0 & Hconfig0 & Hext0).
  pose proof (unparse_broad_loop (broadBody ruler rule) known ruler0) as Hloop.
  cbv zeta in Hloop. destruct Hloop as (Hstrict & Hends & Hconfig & Hext).
  unfold unparseRZDBFlagedRule. rewrite Hflag, Hknown. cbn [negb].
  eexists. split; [reflexivity|].
  fold (broadBody ruler rule).
  rewrite Hstrict, Hends, Hext, Hstrict0, Hends0, Hext0.
  assert (Hhc := Hconfig0). destruct Hhc as (_ & _ & _ & -> & _).
  split; [done|split; [done|split; [by eapply sameConfig_trans|done]]].
Qed.

(** What [RemoveRule] does to the indices on a rule that is neither a
    regex rule nor refused. *)
Lemma RemoveRule_pulls (rule : string) (ruler : InternalRuler) :
  NormalizeRule rule <> "" ->
  classify ruler (NormalizeRule rule) <> Reg ->
  (classify ruler (NormalizeRule rule) = Rzdb -> catalogAvailable ruler = true) ->
  plainURLWithoutNetLocation ruler (NormalizeRule rule) = false ->
  exists ruler',
    RemoveRule rule ruler = Some (true, ruler')
    /\ strict ruler'
       = pullAll commonSearchKeyFromRule
           (strictTargets ruler (NormalizeRule rule)) (strict ruler)
    /\ ends ruler'
       = pullAll endsSearchKeyFromRule
           (endsTargets ruler (NormalizeRule rule)) (ends ruler)
    /\ sameConfig ruler ruler'
    /\ extensions ruler'
       = match classify ruler (NormalizeRule rule) with
         | Rzdb => knownExtensions ruler
         | _ => extensions ruler
         end.
Proof.
  intros Hne. unfold RemoveRule. rewrite (eqb_empty_false _ Hne).
  generalize (NormalizeRule rule) as n. clear Hne. intros n.
  unfold plainURLWithoutNetLocation, strictTargets, strictEntries,
    endsTargets, classify,
    orElse, unparseAllFlaggedRule, unparseRegexFlaggedRule,
    unparseRZDBFlagedRule, unparsePlainRule, catalogAvailable,
    knownExtensions, broadBody, complementOf, isURL.
  destruct (HasFlag (FlagsAll ruler) n); simpl.
  { intros _ _ _.
    destruct (strings.HasPrefix _ "."); [|eexists; by repeat split].
    destruct (1 <? _)%nat; [|eexists; by repeat split].
    destruct (handle_complement ruler) eqn:Hhc; eexists;
      (split; [reflexivity|]); simpl; rewrite ?Hhc; by repeat split. }
  destruct (HasFlag (FlagsReg ruler) n); simpl; [done|].
  destruct (HasFlag (FlagsRzdb ruler) n) eqn:Hflag; simpl.
  { intros _ Hcatalog _. specialize (Hcatalog eq_refl).
    destruct (getKnownExtensions ruler) as [[known ruler0]|] eqn:Hknown;
      [|discriminate].
    destruct (unparseRZDBFlagedRule_pulls n ruler ruler0 known Hflag Hknown)
      as (ruler' & Hresult & Hrest).
    exists ruler'. split; [|exact Hrest].
    revert Hresult. unfold unparseRZDBFlagedRule.
    by rewrite Hflag, Hknown. }
  intros _ _. destruct (handle_complement ruler) eqn:Hhc; simpl.
  - destruct (_ || _); simpl.
    + destruct (ExtractNetLocationFromURL n) as [netloc|]; [|discriminate].
      intros _. destruct (strings.HasPrefix netloc "www."); eexists;
        by repeat split.
    + intros _. destruct (strings.HasPrefix n "www."); eexists;
        by repeat split.
  - intros _. eexists; by repeat split.
Qed.

Lemma RemoveRule_absent_indices (rule : string) (ruler : InternalRuler) :
  NormalizeRule rule <> "" ->
  (classify ruler (NormalizeRule rule) = Rzdb -> catalogAvailable ruler = true) ->
  (forall entry, entry ∈ strictTargets ruler (NormalizeRule rule) ->
     stored commonSearchKeyFromRule (strict ruler) entry = false) ->
  (forall entry, entry ∈ endsTargets ruler (NormalizeRule rule) ->
     stored endsSearchKeyFromRule (ends ruler) entry = false) ->
  (classify ruler (NormalizeRule rule) = Reg ->
     clauseAbsent ruler
       (cleanupFlags (FlagsReg ruler) (NormalizeRule rule))) ->
  exists result ruler',
    RemoveRule rule ruler = Some (result, ruler') /\ sameIndices ruler ruler'.
Proof.
  intros Hne Hcatalog Hstrict Hends Hclause.
  assert (classify ruler (NormalizeRule rule) <> Reg ->
          plainURLWithoutNetLocation ruler (NormalizeRule rule) = false ->
          exists result ruler',
            RemoveRule rule ruler = Some (result, ruler')
            /\ sameIndices ruler ruler') as Hpulls.
  { intros Hkind Hurl.
    destruct (RemoveRule_pulls rule ruler Hne Hkind Hcatalog Hurl)
      as (ruler' & Hresult & Hs & He & Hc & _).
    exists true, ruler'. split; [done|].
    rewrite pullAll_not_stored in Hs by done.
    rewrite pullAll_not_stored in He by done.
    destruct Hc as (? & ? & ? & ? & _). by repeat split. }
  destruct (classify ruler (NormalizeRule rule)) eqn:Hkind.
  - (* a plain rule *)
    destruct (plainURLWithoutNetLocation ruler (NormalizeRule rule)) eqn:Hurl;
      [|by apply Hpulls].
    exists false, ruler. split; [|by repeat split].
    revert Hurl Hkind. unfold RemoveRule.
    rewrite (eqb_empty_false _ Hne).
    unfold plainURLWithoutNetLocation, classify, orElse,
      unparseAllFlaggedRule, unparseRegexFlaggedRule,
      unparseRZDBFlagedRule, unparsePlainRule, isURL.
    destruct (HasFlag (FlagsAll ruler) _); [done|]. simpl.
    destruct (HasFlag (FlagsReg ruler) _); [done|]. simpl.
    destruct (HasFlag (FlagsRzdb ruler) _); [done|]. simpl.
    destruct (handle_complement ruler); [|done]. simpl.
    destruct (_ || _); [|done]. simpl.
    by destruct (ExtractNetLocationFromURL _).
  - (* a suffix rule *)
    apply Hpulls; [done|].
    unfold plainURLWithoutNetLocation. by rewrite Hkind.
  - (* a regex rule *)
    specialize (Hclause eq_refl). clear Hpulls.
    revert Hkind Hclause. unfold RemoveRule.
    rewrite (eqb_empty_false _ Hne).
    unfold classify, orElse, unparseAllFlaggedRule, unparseRegexFlaggedRule,
      clauseAbsent, pullRegexRule.
    destruct (HasFlag (FlagsAll ruler) _); [done|]. simpl.
    destruct (HasFlag (FlagsReg ruler) _); [|by destruct (HasFlag _ _)].
    simpl. intros _ Hclause.
    destruct (String.eqb (regex ruler) "") eqn:Hempty.
    { exists true, ruler. by repeat split. }
    destruct (compiled_regexp ruler) as [compiled|] eqn:Hcompiled.
    2: { exists true, ruler. by repeat split. }
    destruct Hclause as [Hregex|[?|[Habsent Hsync]]]; [|done|].
    { rewrite Hregex in Hempty. discriminate. }
    rewrite (ReplaceAll_absent _ _ _ Habsent), Hempty, <- Hsync.
    eexists _, _. split; [reflexivity|]. by repeat split.
  - (* a broad rule *)
    apply Hpulls; [done|].
    unfold plainURLWithoutNetLocation. by rewrite Hkind.
Qed.

(** C9, as the engine has it.  On a rule of the plain, suffix or broad
    kind none of whose targeted entries is stored, and on a regex rule
    whose clause is absent, [RemoveRule] returns and leaves every index
    as it was, so that every verdict is the one before the call. *)
Theorem RemoveRule_absent (rule : string) (ruler : InternalRuler) :
  NormalizeRule rule <> "" ->
  (classify ruler (NormalizeRule rule) = Rzdb -> catalogAvailable ruler = true) ->
  (forall entry, entry ∈ strictTargets ruler (NormalizeRule rule) ->
     stored commonSearchKeyFromRule (strict ruler) entry = false) ->
  (forall entry, entry ∈ endsTargets ruler (NormalizeRule rule) ->
     stored endsSearchKeyFromRule (ends ruler) entry = false) ->
  (classify ruler (NormalizeRule rule) = Reg ->
     clauseAbsent ruler
       (cleanupFlags (FlagsReg ruler) (NormalizeRule rule))) ->
  exists result ruler',
    RemoveRule rule ruler = Some (result, ruler')
    /\ sameIndices ruler ruler'
    /\ forall subject,
         IsWhitelisted ruler' subject = IsWhitelisted ruler subject.
Proof.
  intros Hne Hcatalog Hstrict Hends Hclause.
  destruct (RemoveRule_absent_indices rule ruler Hne Hcatalog Hstrict Hends
              Hclause) as (result & ruler' & Hresult & Hsame).
  exists result, ruler'. split; [done|]. split; [done|].
  intros subject. by apply IsWhitelisted_sameIndices.
Qed.

End Removal.

(** Removing a rule from a fresh engine, by the theorem above. *)
Lemma RemoveRule_absent_witness :
  exists result ruler',
    RemoveRule (H := Reference.externals [] []) "foo.example.com"
      (NewInternalRuler true) = Some (result, ruler')
    /\ sameIndices (NewInternalRuler true) ruler'
    /\ forall subject,
         IsWhitelisted (H := Reference.externals [] []) ruler' subject
         = IsWhitelisted (H := Reference.externals [] [])
             (NewInternalRuler true) subject.
Proof.
  apply (RemoveRule_absent (H := Reference.externals [] [])).
  - vm_compute. discriminate.
  - intros Hkind. vm_compute in Hkind. discriminate.
  - intros entry _. unfold stored. cbn [strict NewInternalRuler].
    rewrite lookup_empty. reflexivity.
  - intros entry _. unfold stored. cbn [ends NewInternalRuler].
    rewrite lookup_empty. reflexivity.
  - intros Hkind. vm_compute in Hkind. discriminate.
Defined.

(** C9 as stated fails on a regex rule: the clause [b] was never added,
    yet removing it cuts the accumulated expression [abc] down to [ac],
    and ["abc"] is not whitelisted any more. *)
Lemma RemoveRule_cuts_into_another_clause :
  let E := Reference.externals [] [] in
  let ruler := afterAddRule (H := E) "REG abc" (NewInternalRuler false) in
  let ruler' := afterRemoveRule (H := E) "REG b" ruler in
  AddRule (H := E) "REG abc" (NewInternalRuler false) = Some (true, ruler)
  /\ RemoveRule (H := E) "REG b" ruler = Some (true, ruler')
  /\ regex ruler = "abc" /\ regex ruler' = "ac"
  /\ IsWhitelisted (H := E) ruler "abc" = true
  /\ IsWhitelisted (H := E) ruler' "abc" = false.
Proof. cbv zeta. repeat apply conj; vm_compute; reflexivity. Qed.

(** ** Pushing entries and pulling them again *)

Lemma pull_first_found (rule : string) (rules rules' : list string) :
  pull_first rule rules = Some rules' -> rules ≡ₚ rule :: rules'.
Proof.
  revert rules'. induction rules as [|r rules IH]; intros rules'; simpl.
  - done.
  - destruct (String.eqb r rule) eqn:Heq.
    + apply String.eqb_eq in Heq. by intros [= <-]; subst.
    + destruct (pull_first rule rules) as [rest|]; [|done].
      intros [= <-]. rewrite (IH rest eq_refl). apply perm_swap.
Qed.

Lemma pull_first_missing (rule : string) (rules : list string) :
  pull_first rule rules = None <-> rule ∉ rules.
Proof.
  induction rules as [|r rules IH]; simpl.
  - split; [intros _; apply not_elem_of_nil|done].
  - rewrite not_elem_of_cons. destruct (String.eqb r rule) eqn:Heq.
    + apply String.eqb_eq in Heq. split; [done|]. intros [Hne _]. by subst.
    + apply String.eqb_neq in Heq.
      destruct (pull_first rule rules); split; try done.
      * intros [_ Hnot]. by apply IH in Hnot.
      * intros _. split; [done|]. by apply IH.
Qed.

Lemma removeFirst_Permutation (rule : string) (l1 l2 : list string) :
  l1 ≡ₚ l2 -> removeFirst rule l1 ≡ₚ removeFirst rule l2.
Proof.
  intros Hperm. unfold removeFirst.
  destruct (pull_first rule l1) as [l1'|] eqn:H1;
    destruct (pull_first rule l2) as [l2'|] eqn:H2; try done.
  - apply pull_first_found in H1, H2.
    apply (Permutation_cons_inv (a := rule)).
    by rewrite <- H1, <- H2.
  - apply pull_first_found in H1. apply pull_first_missing in H2.
    destruct H2. rewrite <- Hperm, H1. by left.
  - apply pull_first_found in H2. apply pull_first_missing in H1.
    destruct H1. rewrite Hperm, H2. by left.
Qed.

Lemma removeFirst_last (rule : string) (rules : list string) :
  removeFirst rule (rules ++ [rule]) ≡ₚ rules.
Proof.
  unfold removeFirst.
  destruct (pull_first rule (rules ++ [rule])) as [rules'|] eqn:Hpull.
  - apply pull_first_found in Hpull.
    apply (Permutation_cons_inv (a := rule)).
    by rewrite <- Hpull, Permutation_app_comm.
  - apply pull_first_missing in Hpull. destruct Hpull.
    apply elem_of_app. right. by left.
Qed.

Lemma bucket_push (key key' rule : string) (index : gmap string (list string)) :
  bucket (push key rule index) key'
  = if decide (key = key') then bucket index key ++ [rule]
    else bucket index key'.
Proof.
  unfold bucket, push. rewrite lookup_insert. by case_decide.
Qed.

Lemma bucket_pull (key key' rule : string) (index : gmap string (list string)) :
  bucket (pull key rule index) key'
  = if decide (key = key') then removeFirst rule (bucket index key)
    else bucket index key'.
Proof.
  unfold bucket, pull, removeFirst.
  destruct (index !! key) as [rules|] eqn:Hkey; simpl.
  - destruct (pull_first rule rules) as [rules'|] eqn:Hpull.
    + rewrite lookup_insert. by case_decide.
    + case_decide; [|done]. subst key'. by rewrite Hkey.
  - case_decide; [|done]. subst key'. by rewrite Hkey.
Qed.

Lemma sameBuckets_refl (index : gmap string (list string)) :
  sameBuckets index index.
Proof. by intros key. Qed.

Lemma sameBuckets_trans (m1 m2 m3 : gmap string (list string)) :
  sameBuckets m1 m2 -> sameBuckets m2 m3 -> sameBuckets m1 m3.
Proof. intros H12 H23 key. by rewrite (H12 key). Qed.

Lemma push_sameBuckets (key rule : string) (m1 m2 : gmap string (list string)) :
  sameBuckets m1 m2 -> sameBuckets (push key rule m1) (push key rule m2).
Proof.
  intros Hsame key'. rewrite !bucket_push.
  case_decide; [|done]. by rewrite (Hsame key).
Qed.

Lemma pull_sameBuckets (key rule : string) (m1 m2 : gmap string (list string)) :
  sameBuckets m1 m2 -> sameBuckets (pull key rule m1) (pull key rule m2).
Proof.
  intros Hsame key'. rewrite !bucket_pull.
  case_decide; [|done]. by apply removeFirst_Permutation.
Qed.

Lemma pull_push (key rule : string) (index : gmap string (list string)) :
  sameBuckets (pull key rule (push key rule index)) index.
Proof.
  intros key'. rewrite bucket_pull, !bucket_push.
  case_decide; [|done]. subst key'. rewrite decide_True by done.
  apply removeFirst_last.
Qed.

Lemma push_push (k1 r1 k2 r2 : string) (index : gmap string (list string)) :
  sameBuckets (push k1 r1 (push k2 r2 index)) (push k2 r2 (push k1 r1 index)).
Proof.
  intros key. rewrite !bucket_push.
  repeat case_decide; subst; try done.
  rewrite <- !app_assoc. apply Permutation_app_head, perm_swap.
Qed.

Lemma pushAll_sameBuckets (key : string -> string) (rules : list string)
    (m1 m2 : gmap string (list string)) :
  sameBuckets m1 m2 -> sameBuckets (pushAll key rules m1) (pushAll key rules m2).
Proof.
  unfold pushAll. revert m1 m2.
  induction rules as [|rule rules IH]; intros m1 m2 Hsame; simpl; [done|].
  by apply IH, push_sameBuckets.
Qed.

Lemma pullAll_sameBuckets (key : string -> string) (rules : list string)
    (m1 m2 : gmap string (list string)) :
  sameBuckets m1 m2 -> sameBuckets (pullAll key rules m1) (pullAll key rules m2).
Proof.
  unfold pullAll. revert m1 m2.
  induction rules as [|rule rules IH]; intros m1 m2 Hsame; simpl; [done|].
  by apply IH, pull_sameBuckets.
Qed.

Lemma pushAll_push (key : string -> string) (rules : list string)
    (k r : string) (index : gmap string (list string)) :
  sameBuckets (pushAll key rules (push k r index))
    (push k r (pushAll key rules index)).
Proof.
  revert index. induction rules as [|rule rules IH]; intros index.
  - apply sameBuckets_refl.
  - change (sameBuckets
              (pushAll key rules (push (key rule) rule (push k r index)))
              (push k r (pushAll key rules (push (key rule) rule index)))).
    eapply sameBuckets_trans; [|apply IH].
    apply pushAll_sameBuckets, push_push.
Qed.

(** Entries pushed to an index and then pulled from it, in the same
    order, leave in every bucket what was there. *)
Lemma pullAll_pushAll (key : string -> string) (rules : list string)
    (index : gmap string (list string)) :
  sameBuckets (pullAll key rules (pushAll key rules index)) index.
Proof.
  revert index. induction rules as [|rule rules IH]; intros index.
  - apply sameBuckets_refl.
  - change (sameBuckets
              (pullAll key rules
                 (pull (key rule) rule
                    (pushAll key rules (push (key rule) rule index))))
              index).
    eapply sameBuckets_trans; [|apply IH].
    apply pullAll_sameBuckets.
    eapply sameBuckets_trans; [|apply pull_push].
    apply pull_sameBuckets, pushAll_push.
Qed.

Lemma existsb_pointwise {A : Type} (p q : A -> bool) (l : list A) :
  (forall x, p x = q x) -> existsb p l = existsb q l.
Proof.
  intros Hpq. induction l as [|x l IH]; simpl; [done|]. by rewrite Hpq, IH.
Qed.

Lemma existsb_Permutation {A : Type} (p : A -> bool) (l1 l2 : list A) :
  l1 ≡ₚ l2 -> existsb p l1 = existsb p l2.
Proof.
  induction 1 as [|x l1 l2 _ IH|x y l|l1 l2 l3 _ IH1 _ IH2]; simpl.
  - done.
  - by rewrite IH.
  - by destruct (p x), (p y).
  - by rewrite IH1.
Qed.

(** ** [AddRule] as a sequence of pushes, and its undoing *)

Section Undo.

Context `{Externals}.

(** One turn of the loop of [parseRZDBFlagedRule]. *)
Lemma parse_broad_step (entry complement : string) (ruler : InternalRuler) :
  let ruler' :=
    if handle_complement (pushStrictRule entry ruler)
    then pushStrictRule complement (pushStrictRule entry ruler)
    else pushStrictRule entry ruler in
  strict ruler'
  = pushAll commonSearchKeyFromRule
      (entry :: (if handle_complement ruler then [complement] else []))
      (strict ruler)
  /\ ends ruler' = ends ruler /\ sameConfig ruler ruler'
  /\ extensions ruler' = extensions ruler.
Proof.
  simpl. destruct (handle_complement ruler) eqn:Hhc; simpl;
    rewrite ?Hhc; by repeat split.
Qed.

(** The loop of [parseRZDBFlagedRule]. *)
Lemma parse_broad_loop (record : string) (known : list string)
    (ruler : InternalRuler) :
  let ruler' :=
    fold_left
      (fun ruler extension =>
         let ruler := pushStrictRule (record +:+ "." +:+ extension) ruler in
         if handle_complement ruler
         then pushStrictRule ("www." +:+ record +:+ "." +:+ extension) ruler
         else ruler)
      known ruler in
  strict ruler'
  = pushAll commonSearchKeyFromRule
      (broadEntries (handle_complement ruler) record known) (strict ruler)
  /\ ends ruler' = ends ruler /\ sameConfig ruler ruler'
  /\ extensions ruler' = extensions ruler.
Proof.
  cbv zeta. revert ruler.
  induction known as [|extension known IH]; intros ruler.
  - by repeat split.
  - cbn [fold_left].
    destruct (parse_broad_step (record +:+ "." +:+ extension)
                ("www." +:+ record +:+ "." +:+ extension) ruler)
      as (Hstrict1 & Hends1 & Hconfig1 & Hext1).
    match goal with
    | |- context [fold_left _ known ?start] =>
      destruct (IH start) as (Hstrict & Hends & Hconfig & Hext)
    end.
    rewrite Hstrict, Hends, Hext, Hstrict1, Hends1, Hext1.
    assert (Hhc := Hconfig1). destruct Hhc as (_ & _ & _ & -> & _).
    split; [|split; [done|split; [by eapply sameConfig_trans|done]]].
    unfold broadEntries. cbn [flat_map]. by rewrite pushAll_app.
Qed.

(** What [parseRZDBFlagedRule] does on a broad rule. *)
Lemma parseRZDBFlagedRule_pushes (rule : string) (ruler ruler0 : InternalRuler)
    (known : list string) :
  HasFlag (FlagsRzdb ruler) rule = true ->
  getKnownExtensions ruler = Some (known, ruler0) ->
  exists ruler',
    parseRZDBFlagedRule rule ruler = Some (true, ruler')
    /\ strict ruler'
       = pushAll commonSearchKeyFromRule
           (broadEntries (handle_complement ruler)
              (addedBroadBody ruler rule) known)
           (strict ruler)
    /\ ends ruler' = ends ruler /\ sameConfig ruler ruler'
    /\ extensions ruler' = known.
Proof.
  intros Hflag Hknown.
  destruct (getKnownExtensions_fields _ _ _ Hknown)
    as (Hstrict0 & Hends0 & Hconfig0 & Hext0).
  pose proof (parse_broad_loop (addedBroadBody ruler rule) known ruler0)
    as Hloop.
  cbv zeta in Hloop. destruct Hloop as (Hstrict & Hends & Hconfig & Hext).
  unfold parseRZDBFlagedRule. rewrite Hflag, Hknown. cbn [negb].
  eexists. split; [reflexivity|].
  fold (addedBroadBody ruler rule).
  rewrite Hstrict, Hends, Hext, Hstrict0, Hends0, Hext0.
  assert (Hhc := Hconfig0). destruct Hhc as (_ & _ & _ & -> & _).
  split; [done|split; [done|split; [by eapply sameConfig_trans|done]]].
Qed.

(** What [AddRule] does to the indices on a rule that is neither a
    regex rule nor refused. *)
Lemma AddRule_pushes (rule : string) (ruler : InternalRuler) :
  NormalizeRule rule <> "" ->
  classify ruler (NormalizeRule rule) <> Reg ->
  (classify ruler (NormalizeRule rule) = Rzdb -> catalogAvailable ruler = true) ->
  plainURLWithoutNetLocation ruler (NormalizeRule rule) = false ->
  exists ruler',
    AddRule rule ruler = Some (true, ruler')
    /\ strict ruler'
       = pushAll commonSearchKeyFromRule
           (strictAdded ruler (NormalizeRule rule)) (strict ruler)
    /\ ends ruler'
       = pushAll endsSearchKeyFromRule
           (endsTargets ruler (NormalizeRule rule)) (ends ruler)
    /\ sameConfig ruler ruler'
    /\ extensions ruler'
       = match classify ruler (NormalizeRule rule) with
         | Rzdb => knownExtensions ruler
         | _ => extensions ruler
         end.
Proof.
  intros Hne. unfold AddRule. rewrite (eqb_empty_false _ Hne).
  generalize (NormalizeRule rule) as n. clear Hne. intros n.
  unfold plainURLWithoutNetLocation, strictAdded, strictEntries,
    endsTargets, classify,
    orElse, parseAllFlaggedRule, parseRegexFlaggedRule,
    catalogAvailable, parsePlainRule, knownExtensions, complementOf, isURL.
  destruct (HasFlag (FlagsAll ruler) n); simpl.
  { intros _ _ _.
    destruct (strings.HasPrefix _ "."); [|eexists; by repeat split].
    destruct (1 <? _)%nat; [|eexists; by repeat split].
    destruct (handle_complement ruler) eqn:Hhc; eexists;
      (split; [reflexivity|]); simpl; rewrite ?Hhc; by repeat split. }
  destruct (HasFlag (FlagsReg ruler) n); simpl; [done|].
  destruct (HasFlag (FlagsRzdb ruler) n) eqn:Hflag; simpl.
  { intros _ Hcatalog _. specialize (Hcatalog eq_refl).
    destruct (getKnownExtensions ruler) as [[known ruler0]|] eqn:Hknown;
      [|discriminate].
    destruct (parseRZDBFlagedRule_pushes n ruler ruler0 known Hflag Hknown)
      as (ruler' & -> & Hrest).
    exists ruler'. split; [done|exact Hrest]. }
  unfold parseRZDBFlagedRule. rewrite Hflag. simpl.
  intros _ _. destruct (handle_complement ruler) eqn:Hhc; simpl.
  - destruct (_ || _); simpl.
    + destruct (ExtractNetLocationFromURL n) as [netloc|]; [|discriminate].
      intros _. destruct (strings.HasPrefix netloc "www."); eexists;
        by repeat split.
    + intros _. destruct (strings.HasPrefix n "www."); eexists;
        by repeat split.
  - intros _. eexists; by repeat split.
Qed.

Lemma classify_sameConfig (ruler ruler' : InternalRuler) (rule : string) :
  sameConfig ruler ruler' -> classify ruler' rule = classify ruler rule.
Proof.
  intros (_ & _ & _ & _ & Hall & Hreg & Hrzdb). unfold classify.
  by rewrite Hall, Hreg, Hrzdb.
Qed.

(** The catalog is fetched once: after a call that returned it, the
    engine answers with the same catalog. *)
Lemma knownExtensions_cached (ruler ruler' : InternalRuler) :
  catalogAvailable ruler = true ->
  extensions ruler' = knownExtensions ruler ->
  knownExtensions ruler' = knownExtensions ruler
  /\ catalogAvailable ruler' = true.
Proof.
  unfold catalogAvailable, knownExtensions, getKnownExtensions.
  destruct (length (extensions ruler) =? 0)%nat eqn:Hempty.
  - destruct IANAExtensions as [iana|], PSLSuffixes as [psl|]; try done.
    intros _ ->.
    destruct (length ((extensions ruler ++ iana) ++ psl) =? 0)%nat
      eqn:Hempty'; [|done].
    apply Nat.eqb_eq, length_zero_iff_nil in Hempty.
    apply Nat.eqb_eq, length_zero_iff_nil in Hempty'.
    rewrite Hempty in Hempty' |- *. simpl in Hempty' |- *.
    by rewrite <- app_assoc, Hempty', app_nil_r.
  - intros _ ->. by rewrite Hempty.
Qed.

Lemma IsWhitelisted_sameBuckets (ruler ruler' : InternalRuler)
    (subject : string) :
  sameBuckets (strict ruler') (strict ruler) ->
  sameBuckets (ends ruler') (ends ruler) ->
  sameConfig ruler ruler' ->
  IsWhitelisted ruler' subject = IsWhitelisted ruler subject.
Proof.
  intros Hstrict Hends (Hpresent & _ & Hcompiled & Hhc & _).
  unfold IsWhitelisted. rewrite Hhc.
  destruct (String.eqb _ ""); [done|].
  destruct (ExtractNetLocationFromURL _) as [netloc|]; [|done].
  apply existsb_pointwise. intros sub.
  unfold matchesSubject. rewrite Hpresent, Hcompiled.
  assert (forall (index : gmap string (list string)) (key : string)
                 (p : list string -> bool),
            p [] = false ->
            match index !! key with Some rules => p rules | None => false end
            = p (bucket index key)) as Hbucket.
  { intros index key p Hnil. unfold bucket.
    by destruct (index !! key). }
  rewrite !(Hbucket _ _ (fun rules => slices.Contains rules sub)) by done.
  rewrite !(Hbucket _ _
              (fun rules => existsb (fun rule => strings.HasSuffix sub rule)
                              rules)) by done.
  unfold slices.Contains.
  by rewrite (existsb_Permutation _ _ _ (Hstrict _)),
    (existsb_Permutation _ _ _ (Hends _)).
Qed.

Lemma broadBody_sameConfig (ruler ruler' : InternalRuler) (rule : string) :
  sameConfig ruler ruler' -> broadBody ruler' rule = broadBody ruler rule.
Proof.
  intros (_ & _ & _ & Hhc & _ & _ & Hrzdb). unfold broadBody.
  by rewrite Hhc, Hrzdb.
Qed.

Lemma strictEntries_sameConfig (ruler ruler' : InternalRuler)
    (rule body : string) :
  sameConfig ruler ruler' ->
  (classify ruler rule = Rzdb -> knownExtensions ruler' = knownExtensions ruler) ->
  strictEntries ruler' rule body = strictEntries ruler rule body.
Proof.
  intros Hconfig Hknown. unfold strictEntries.
  rewrite (classify_sameConfig _ _ _ Hconfig).
  destruct Hconfig as (_ & _ & _ & Hhc & Hall & _ & _).
  rewrite Hhc, Hall.
  destruct (classify ruler rule); try done. by rewrite Hknown.
Qed.

Lemma endsTargets_sameConfig (ruler ruler' : InternalRuler) (rule : string) :
  sameConfig ruler ruler' -> endsTargets ruler' rule = endsTargets ruler rule.
Proof.
  intros Hconfig. unfold endsTargets.
  rewrite (classify_sameConfig _ _ _ Hconfig).
  destruct Hconfig as (_ & _ & _ & _ & Hall & _ & _). by rewrite Hall.
Qed.

Lemma plainURLWithoutNetLocation_sameConfig (ruler ruler' : InternalRuler)
    (rule : string) :
  sameConfig ruler ruler' ->
  plainURLWithoutNetLocation ruler' rule = plainURLWithoutNetLocation ruler rule.
Proof.
  intros Hconfig. unfold plainURLWithoutNetLocation.
  rewrite (classify_sameConfig _ _ _ Hconfig).
  destruct Hconfig as (_ & _ & _ & Hhc & _). by rewrite Hhc.
Qed.

(** Where [parseRZDBFlagedRule] and [unparseRZDBFlagedRule] agree on
    the body of a broad rule: everywhere but on a body that, one
    [www.] label stripped, still starts with one. *)
Lemma addedBroadBody_broadBody (ruler : InternalRuler) (rule : string) :
  handle_complement ruler
  && strings.HasPrefix (broadBody ruler rule) "www." = false ->
  addedBroadBody ruler rule = broadBody ruler rule.
Proof.
  unfold addedBroadBody, broadBody. cbv zeta.
  destruct (handle_complement ruler); simpl; [|done].
  by intros ->.
Qed.

(** The refused rule, on the remove path. *)
Lemma RemoveRule_refused (rule : string) (ruler : InternalRuler) :
  NormalizeRule rule <> "" ->
  plainURLWithoutNetLocation ruler (NormalizeRule rule) = true ->
  RemoveRule rule ruler = Some (false, ruler).
Proof.
  intros Hne. unfold RemoveRule. rewrite (eqb_empty_false _ Hne).
  unfold plainURLWithoutNetLocation, classify, orElse,
    unparseAllFlaggedRule, unparseRegexFlaggedRule,
    unparseRZDBFlagedRule, unparsePlainRule, isURL.
  destruct (HasFlag (FlagsAll ruler) _); [done|]. simpl.
  destruct (HasFlag (FlagsReg ruler) _); [done|]. simpl.
  destruct (HasFlag (FlagsRzdb ruler) _); [done|]. simpl.
  destruct (handle_complement ruler); [|done]. simpl.
  destruct (_ || _); [|done]. simpl.
  by destruct (ExtractNetLocationFromURL _).
Qed.

(** The refused rule, on the add path. *)
Lemma AddRule_refused (rule : string) (ruler : InternalRuler) :
  NormalizeRule rule <> "" ->
  plainURLWithoutNetLocation ruler (NormalizeRule rule) = true ->
  AddRule rule ruler = Some (false, ruler).
Proof.
  intros Hne. unfold AddRule. rewrite (eqb_empty_false _ Hne).
  unfold plainURLWithoutNetLocation, classify, orElse,
    parseAllFlaggedRule, parseRegexFlaggedRule,
    parseRZDBFlagedRule, parsePlainRule, isURL.
  destruct (HasFlag (FlagsAll ruler) _); [done|]. simpl.
  destruct (HasFlag (FlagsReg ruler) _); [done|]. simpl.
  destruct (HasFlag (FlagsRzdb ruler) _); [done|]. simpl.
  destruct (handle_complement ruler); [|done]. simpl.
  destruct (_ || _); [|done]. simpl.
  by destruct (ExtractNetLocationFromURL _).
Qed.

Lemma AddRule_catalogAvailable (rule : string) (ruler : InternalRuler) :
  NormalizeRule rule <> "" ->
  classify ruler (NormalizeRule rule) = Rzdb ->
  is_Some (AddRule rule ruler) ->
  catalogAvailable ruler = true.
Proof.
  intros Hne. unfold AddRule. rewrite (eqb_empty_false _ Hne).
  unfold classify, orElse, parseAllFlaggedRule, parseRegexFlaggedRule,
    parseRZDBFlagedRule, catalogAvailable.
  destruct (HasFlag (FlagsAll ruler) _); [done|]. simpl.
  destruct (HasFlag (FlagsReg ruler) _); [done|]. simpl.
  destruct (HasFlag (FlagsRzdb ruler) _); [|done]. simpl.
  destruct (getKnownExtensions ruler) as [[known ruler0]|]; [done|].
  intros _ [? [=]].
Qed.

(** X1.  The undoing of a rule.  On a rule that is not a regex rule, and not
    a broad rule whose body still starts with [www.] after one such
    label was stripped under complement handling, [RemoveRule] after
    [AddRule] returns and gives every subject the verdict it had before
    the [AddRule]. *)
Theorem AddRule_RemoveRule_verdict (rule : string)
    (ruler ruler1 : InternalRuler) (result : bool) :
  classify ruler (NormalizeRule rule) <> Reg ->
  (classify ruler (NormalizeRule rule) = Rzdb ->
   handle_complement ruler
   && strings.HasPrefix (broadBody ruler (NormalizeRule rule)) "www." = false) ->
  AddRule rule ruler = Some (result, ruler1) ->
  exists result' ruler2,
    RemoveRule rule ruler1 = Some (result', ruler2)
    /\ forall subject,
         IsWhitelisted ruler2 subject = IsWhitelisted ruler subject.
Proof.
  intros Hkind Hbody Hadd.
  destruct (String.eqb (NormalizeRule rule) "") eqn:Hempty.
  { revert Hadd. unfold AddRule, RemoveRule. rewrite Hempty.
    intros [= <- <-]. by exists false, ruler. }
  apply String.eqb_neq in Hempty.
  destruct (plainURLWithoutNetLocation ruler (NormalizeRule rule)) eqn:Hurl.
  { rewrite (AddRule_refused rule ruler Hempty Hurl) in Hadd.
    injection Hadd as <- <-.
    exists false, ruler. by rewrite RemoveRule_refused. }
  assert (classify ruler (NormalizeRule rule) = Rzdb ->
          catalogAvailable ruler = true) as Hcatalog.
  { intros Hrzdb. apply (AddRule_catalogAvailable rule); [done|done|].
    by rewrite Hadd. }
  destruct (AddRule_pushes rule ruler Hempty Hkind Hcatalog Hurl)
    as (ruler1' & Hadd' & Hs1 & He1 & Hc1 & Hx1).
  rewrite Hadd in Hadd'. injection Hadd' as -> <-.
  assert (classify ruler (NormalizeRule rule) = Rzdb ->
          knownExtensions ruler1 = knownExtensions ruler
          /\ catalogAvailable ruler1 = true) as Hcached.
  { intros Hrzdb. apply knownExtensions_cached; [by apply Hcatalog|].
    by rewrite Hx1, Hrzdb. }
  destruct (RemoveRule_pulls rule ruler1 Hempty)
    as (ruler2 & Hremove & Hs2 & He2 & Hc2 & _).
  { by rewrite (classify_sameConfig _ _ _ Hc1). }
  { rewrite (classify_sameConfig _ _ _ Hc1). intros Hrzdb.
    by apply Hcached. }
  { by rewrite (plainURLWithoutNetLocation_sameConfig _ _ _ Hc1). }
  exists true, ruler2. split; [done|]. intros subject.
  apply IsWhitelisted_sameBuckets; [| |by eapply sameConfig_trans].
  - rewrite Hs2, Hs1. unfold strictTargets, strictAdded.
    rewrite (strictEntries_sameConfig _ _ _ _ Hc1)
      by (intros Hrzdb; by apply Hcached).
    rewrite (broadBody_sameConfig _ _ _ Hc1).
    assert (strictEntries ruler (NormalizeRule rule)
              (broadBody ruler (NormalizeRule rule))
            = strictEntries ruler (NormalizeRule rule)
                (addedBroadBody ruler (NormalizeRule rule))) as ->.
    { unfold strictEntries.
      destruct (classify ruler (NormalizeRule rule)) eqn:Hk; try done.
      by rewrite (addedBroadBody_broadBody _ _ (Hbody eq_refl)). }
    apply pullAll_pushAll.
  - rewrite He2, He1, (endsTargets_sameConfig _ _ _ Hc1).
    apply pullAll_pushAll.
Qed.

End Undo.

(** ** The two defects *)

(** C8.  The rule ["ab#c"] is neither empty, nor a comment, nor a URL,
    and the text before its first [#] is ["ab"], which the encoding
    leaves as it is; [NormalizeRule] cuts one byte earlier and returns
    ["a"]. *)
Theorem NormalizeRule_cuts_one_byte_early :
  let E := Reference.externals [] [] in
  let rule := "ab#c" in
  blankOrComment rule = false /\ isURL rule = false
  /\ strings.Contains rule "#" = true
  /\ strings.TrimSpace (strings.slice_to rule (strings.Index rule "#")) = "ab"
  /\ idnaze (H := E) "ab" = Some "ab"
  /\ NormalizeRule (H := E) rule = "a".
Proof. cbv zeta. repeat apply conj; vm_compute; reflexivity. Qed.

(** C4.  With complements handled and a catalog that holds [de], adding
    the broad rule ["RZDB www.www.foo"] and removing it again leaves
    ["foo.de"] whitelisted, which it was not on the fresh engine:
    [parseRZDBFlagedRule] strips the [www.] label twice and stores
    [foo.de] and [www.foo.de], [unparseRZDBFlagedRule] strips it once and
    looks for [www.foo.de] and [www.www.foo.de]. *)
Theorem broad_rule_www_www_not_undone :
  let E := Reference.externals ["de"] [] in
  let fresh := NewInternalRuler true in
  let added := afterAddRule (H := E) "RZDB www.www.foo" fresh in
  let removed := afterRemoveRule (H := E) "RZDB www.www.foo" added in
  AddRule (H := E) "RZDB www.www.foo" fresh = Some (true, added)
  /\ RemoveRule (H := E) "RZDB www.www.foo" added = Some (true, removed)
  /\ IsWhitelisted (H := E) fresh "foo.de" = false
  /\ IsWhitelisted (H := E) removed "foo.de" = true
  /\ strict removed !! "foo." = Some ["foo.de"].
Proof. cbv zeta. repeat apply conj; vm_compute; reflexivity. Qed.

(** * Further properties of the engine *)

(** ** Lookups *)

Section Lookups.

Context `{Externals}.

Lemma matchesSubject_fresh (hc : bool) (sub : string) :
  matchesSubject (NewInternalRuler hc) sub = false.
Proof.
  unfold matchesSubject. cbn [strict present ends compiled_regexp NewInternalRuler].
  by rewrite !lookup_empty.
Qed.

Lemma existsb_none {A : Type} (p : A -> bool) (l : list A) :
  (forall x, p x = false) -> existsb p l = false.
Proof.
  intros Hp. induction l as [|x l IH]; simpl; [done|]. by rewrite Hp, IH.
Qed.

(** X2.  A fresh engine whitelists no subject at all, whatever the
    libraries do with it. *)
Theorem IsWhitelisted_fresh (hc : bool) (subject : string) :
  IsWhitelisted (NewInternalRuler hc) subject = false.
Proof.
  unfold IsWhitelisted.
  destruct (String.eqb _ ""); [done|].
  destruct (ExtractNetLocationFromURL _); [|done].
  apply existsb_none, matchesSubject_fresh.
Qed.

(** X3.  A blank subject and a comment are whitelisted by no engine, not
    even by one whose expression matches every text. *)
Theorem IsWhitelisted_blankOrComment (ruler : InternalRuler)
    (subject : string) :
  blankOrComment subject = true -> IsWhitelisted ruler subject = false.
Proof.
  unfold blankOrComment, IsWhitelisted, NormalizeSubject.
  by intros ->.
Qed.

Lemma stored_push (key : string -> string) (rule : string)
    (index : gmap string (list string)) :
  stored key (push (key rule) rule index) rule = true.
Proof.
  unfold stored, push, slices.Contains. rewrite lookup_insert_eq.
  rewrite existsb_app. simpl. by rewrite String.eqb_refl, orb_true_r.
Qed.

Lemma matchesSubject_stored_strict (ruler : InternalRuler) (sub : string) :
  stored commonSearchKeyFromRule (strict ruler) sub = true ->
  matchesSubject ruler sub = true.
Proof. unfold stored, matchesSubject. by intros ->. Qed.

Lemma bucket_stored (key : string -> string)
    (index : gmap string (list string)) (rule : string) :
  stored key index rule = slices.Contains (bucket index (key rule)) rule.
Proof. unfold stored, bucket. by destruct (index !! key rule). Qed.

Lemma Contains_elem_of (rules : list string) (rule : string) :
  slices.Contains rules rule = true <-> rule ∈ rules.
Proof.
  unfold slices.Contains. rewrite existsb_exists. split.
  - intros (x & Hin & Heq). apply String.eqb_eq in Heq. subst x.
    by apply list_elem_of_In.
  - intros Hin. exists rule. split; [by apply list_elem_of_In|].
    apply String.eqb_refl.
Qed.

(** X4.  Two copies of a strict entry, one pulled: the entry is still
    matched.  [pullStrictRule] removes the first occurrence only. *)
Theorem pullStrictRule_removes_one_copy (rule : string) (ruler : InternalRuler) :
  matchesSubject
    (pullStrictRule rule (pushStrictRule rule (pushStrictRule rule ruler)))
    rule = true.
Proof.
  apply matchesSubject_stored_strict. rewrite bucket_stored.
  apply Contains_elem_of.
  cbn [pullStrictRule pushStrictRule strict set_strict].
  rewrite bucket_pull, decide_True by done.
  rewrite !bucket_push, !decide_True by done.
  rewrite (removeFirst_last rule (bucket (strict ruler)
                                    (commonSearchKeyFromRule rule) ++ [rule])).
  apply elem_of_app. right. by left.
Qed.

End Lookups.

(** ** What a stored entry matches *)

Lemma drop_length (n : nat) (s : string) :
  String.length (utf8.drop n s) = String.length s - n.
Proof.
  revert s. induction n as [|n IH]; intros [|c s]; simpl; try done.
Qed.

Lemma drop_drop (a b : nat) (s : string) :
  utf8.drop a (utf8.drop b s) = utf8.drop (b + a) s.
Proof.
  revert s. induction b as [|b IH]; intros s; simpl; [done|].
  destruct s as [|c s]; [by destruct a|]. apply IH.
Qed.

Lemma HasSuffix_spec (s suffix : string) :
  strings.HasSuffix s suffix = true ->
  String.length suffix <= String.length s
  /\ utf8.drop (String.length s - String.length suffix) s = suffix.
Proof.
  unfold strings.HasSuffix. intros Hsuffix.
  apply andb_prop in Hsuffix as [Hlen Heq].
  apply Nat.leb_le in Hlen. by apply String.eqb_eq in Heq.
Qed.

(** A subject and a suffix of it of three bytes or more have the same
    key in the suffix index. *)
Lemma endsSearchKeyFromRule_suffix (sub rule : string) :
  strings.HasSuffix sub rule = true -> 3 <= String.length rule ->
  endsSearchKeyFromRule sub = endsSearchKeyFromRule rule.
Proof.
  intros Hsuffix Hlong. apply HasSuffix_spec in Hsuffix as [Hlen Hdrop].
  unfold endsSearchKeyFromRule.
  destruct (String.length sub <? 3)%nat eqn:Hsub;
    [apply Nat.ltb_lt in Hsub; lia|].
  destruct (String.length rule <? 3)%nat eqn:Hrule;
    [apply Nat.ltb_lt in Hrule; lia|].
  remember (String.length rule) as k eqn:Hk. clear Hk.
  rewrite <- Hdrop, drop_drop. f_equal. lia.
Qed.

Section Matches.

Context `{Externals}.

Lemma matchesSubject_ends (ruler : InternalRuler) (sub rule : string) :
  rule ∈ bucket (ends ruler) (endsSearchKeyFromRule sub) ->
  strings.HasSuffix sub rule = true ->
  matchesSubject ruler sub = true.
Proof.
  intros Hin Hsuffix. unfold matchesSubject.
  assert (match ends ruler !! endsSearchKeyFromRule sub with
          | Some rules =>
            existsb (fun rule => strings.HasSuffix sub rule) rules
          | None => false
          end = true) as ->.
  { revert Hin. unfold bucket.
    destruct (ends ruler !! endsSearchKeyFromRule sub) as [rules|]; simpl.
    - intros Hin. apply existsb_exists. exists rule.
      split; [by apply list_elem_of_In|done].
    - intros Hin. by apply elem_of_nil in Hin. }
  by rewrite orb_true_r.
Qed.

(** X5.  The suffix index finds an entry of three bytes or more for every
    subject that ends in it. *)
Theorem pushEndsRule_matches_suffix (ruler : InternalRuler) (sub rule : string) :
  strings.HasSuffix sub rule = true -> 3 <= String.length rule ->
  matchesSubject (pushEndsRule rule ruler) sub = true.
Proof.
  intros Hsuffix Hlong. apply (matchesSubject_ends _ _ rule); [|done].
  cbn [pushEndsRule ends set_ends].
  rewrite (endsSearchKeyFromRule_suffix _ _ Hsuffix Hlong).
  rewrite bucket_push, decide_True by done.
  apply elem_of_app. right. by left.
Qed.

(** X6.  A suffix entry of less than three bytes is its own key, which is
    the key of no other subject: on an engine that holds nothing else,
    it matches no subject but itself. *)
Theorem pushEndsRule_short_entry (hc : bool) (sub rule : string) :
  String.length rule < 3 -> sub <> rule ->
  matchesSubject (pushEndsRule rule (NewInternalRuler hc)) sub = false.
Proof.
  intros Hshort Hother. unfold matchesSubject.
  cbn [pushEndsRule strict present ends compiled_regexp set_ends
         NewInternalRuler].
  rewrite !lookup_empty. unfold push. rewrite lookup_insert_ne.
  - by rewrite lookup_empty.
  - unfold endsSearchKeyFromRule.
    apply Nat.ltb_lt in Hshort as Hrule. rewrite Hrule.
    destruct (String.length sub <? 3)%nat eqn:Hsub; [congruence|].
    apply Nat.ltb_ge in Hsub. intros Hkey.
    pose proof (drop_length (String.length sub - 3) sub) as Hlen.
    rewrite <- Hkey in Hlen. lia.
Qed.

End Matches.

Lemma pushEndsRule_matches_suffix_witness :
  matchesSubject (H := Reference.externals [] [])
    (pushEndsRule ".org" (NewInternalRuler false))
    "bar.example.org" = true.
Proof.
  apply (pushEndsRule_matches_suffix (H := Reference.externals [] [])
           (NewInternalRuler false) "bar.example.org" ".org").
  - vm_compute. reflexivity.
  - vm_compute. lia.
Defined.

Lemma pushEndsRule_short_entry_witness :
  matchesSubject (H := Reference.externals [] [])
    (pushEndsRule ".x" (NewInternalRuler false))
    "example.x" = false.
Proof.
  apply (pushEndsRule_short_entry (H := Reference.externals [] [])
           false "example.x" ".x").
  - vm_compute. lia.
  - discriminate.
Defined.

(** ** What [AddRule] adds to the verdicts and [RemoveRule] takes away *)

Lemma bucket_pushAll_old (key : string -> string) (rules : list string)
    (index : gmap string (list string)) (k entry : string) :
  entry ∈ bucket index k -> entry ∈ bucket (pushAll key rules index) k.
Proof.
  unfold pushAll. revert index.
  induction rules as [|rule rules IH]; intros index Hin; simpl; [done|].
  apply IH. rewrite bucket_push. case_decide; [|done].
  subst k. apply elem_of_app. by left.
Qed.

Lemma bucket_pushAll_new (key : string -> string) (rules : list string)
    (index : gmap string (list string)) (entry : string) :
  entry ∈ rules -> entry ∈ bucket (pushAll key rules index) (key entry).
Proof.
  revert index. induction rules as [|rule rules IH]; intros index Hin.
  - by apply elem_of_nil in Hin.
  - apply elem_of_cons in Hin as [->|Hin].
    + apply (bucket_pushAll_old key rules (push (key rule) rule index)).
      rewrite bucket_push, decide_True by done.
      apply elem_of_app. right. by left.
    + apply (IH (push (key rule) rule index) Hin).
Qed.

Lemma removeFirst_subseteq (rule entry : string) (rules : list string) :
  entry ∈ removeFirst rule rules -> entry ∈ rules.
Proof.
  unfold removeFirst.
  destruct (pull_first rule rules) as [rules'|] eqn:Hpull; [|done].
  apply pull_first_found in Hpull. rewrite Hpull. by right.
Qed.

Lemma bucket_pullAll_old (key : string -> string) (rules : list string)
    (index : gmap string (list string)) (k entry : string) :
  entry ∈ bucket (pullAll key rules index) k -> entry ∈ bucket index k.
Proof.
  unfold pullAll. revert index.
  induction rules as [|rule rules IH]; intros index Hin; simpl in *; [done|].
  apply IH in Hin. rewrite bucket_pull in Hin.
  case_decide; [|done]. subst k. by eapply removeFirst_subseteq.
Qed.

Section Verdicts.

Context `{Externals}.

(** An engine whose strict and suffix buckets hold at least what those
    of another hold, the rest being the same, matches at least what
    the other matches. *)
Lemma matchesSubject_grows (ruler ruler' : InternalRuler) (sub : string) :
  (forall k entry, entry ∈ bucket (strict ruler) k ->
                   entry ∈ bucket (strict ruler') k) ->
  (forall k entry, entry ∈ bucket (ends ruler) k ->
                   entry ∈ bucket (ends ruler') k) ->
  sameConfig ruler ruler' ->
  matchesSubject ruler sub = true -> matchesSubject ruler' sub = true.
Proof.
  intros Hstrict Hends (Hpresent & _ & Hcompiled & _).
  unfold matchesSubject. rewrite Hpresent, Hcompiled.
  assert (forall (index : gmap string (list string)) (key : string)
                 (p : list string -> bool),
            p [] = false ->
            match index !! key with Some rules => p rules | None => false end
            = p (bucket index key)) as Hbucket.
  { intros index key p Hnil. unfold bucket. by destruct (index !! key). }
  rewrite !(Hbucket _ _ (fun rules => slices.Contains rules sub)) by done.
  rewrite !(Hbucket _ _
              (fun rules => existsb (fun rule => strings.HasSuffix sub rule)
                              rules)) by done.
  intros Hmatch.
  apply orb_prop in Hmatch as [Hmatch|Hmatch]; [|by rewrite Hmatch, orb_true_r].
  apply orb_prop in Hmatch as [Hmatch|Hmatch].
  - apply orb_prop in Hmatch as [Hmatch|Hmatch]; [|by rewrite Hmatch, orb_true_r].
    apply Contains_elem_of, Hstrict, Contains_elem_of in Hmatch.
    by rewrite Hmatch.
  - apply existsb_exists in Hmatch as (rule & Hin & Hsuffix).
    apply list_elem_of_In, Hends, list_elem_of_In in Hin.
    assert (existsb (fun rule => strings.HasSuffix sub rule)
              (bucket (ends ruler') (endsSearchKeyFromRule sub)) = true) as ->.
    { apply existsb_exists. by exists rule. }
    by rewrite orb_true_r.
Qed.

Lemma IsWhitelisted_grows (ruler ruler' : InternalRuler) (subject : string) :
  (forall k entry, entry ∈ bucket (strict ruler) k ->
                   entry ∈ bucket (strict ruler') k) ->
  (forall k entry, entry ∈ bucket (ends ruler) k ->
                   entry ∈ bucket (ends ruler') k) ->
  sameConfig ruler ruler' ->
  IsWhitelisted ruler subject = true -> IsWhitelisted ruler' subject = true.
Proof.
  intros Hstrict Hends Hconfig. unfold IsWhitelisted.
  assert (Hhc := Hconfig). destruct Hhc as (_ & _ & _ & -> & _).
  destruct (String.eqb _ ""); [done|].
  destruct (ExtractNetLocationFromURL _) as [netloc|]; [|done].
  rewrite !existsb_exists. intros (sub & Hin & Hmatch). exists sub.
  split; [done|]. by apply (matchesSubject_grows ruler).
Qed.

Lemma sameConfig_sym (ruler ruler' : InternalRuler) :
  sameConfig ruler ruler' -> sameConfig ruler' ruler.
Proof.
  unfold sameConfig. intros (? & ? & ? & ? & ? & ? & ?). by repeat split.
Qed.

Lemma RemoveRule_catalogAvailable (rule : string) (ruler : InternalRuler) :
  NormalizeRule rule <> "" ->
  classify ruler (NormalizeRule rule) = Rzdb ->
  is_Some (RemoveRule rule ruler) ->
  catalogAvailable ruler = true.
Proof.
  intros Hne. unfold RemoveRule. rewrite (eqb_empty_false _ Hne).
  unfold classify, orElse, unparseAllFlaggedRule, unparseRegexFlaggedRule,
    unparseRZDBFlagedRule, catalogAvailable.
  destruct (HasFlag (FlagsAll ruler) _); [done|]. simpl.
  destruct (HasFlag (FlagsReg ruler) _); [done|]. simpl.
  destruct (HasFlag (FlagsRzdb ruler) _); [|done]. simpl.
  destruct (getKnownExtensions ruler) as [[known ruler0]|]; [done|].
  intros _ [? [=]].
Qed.

(** X7.  A rule that is not a regex rule takes no verdict away when it is
    added: what was whitelisted stays whitelisted. *)
Theorem AddRule_keeps_whitelisted (rule subject : string)
    (ruler ruler' : InternalRuler) (result : bool) :
  classify ruler (NormalizeRule rule) <> Reg ->
  AddRule rule ruler = Some (result, ruler') ->
  IsWhitelisted ruler subject = true ->
  IsWhitelisted ruler' subject = true.
Proof.
  intros Hkind Hadd.
  destruct (String.eqb (NormalizeRule rule) "") eqn:Hempty.
  { revert Hadd. unfold AddRule. rewrite Hempty. by intros [= <- <-]. }
  apply String.eqb_neq in Hempty.
  destruct (plainURLWithoutNetLocation ruler (NormalizeRule rule)) eqn:Hurl.
  { rewrite (AddRule_refused rule ruler Hempty Hurl) in Hadd.
    by injection Hadd as <- <-. }
  destruct (AddRule_pushes rule ruler Hempty Hkind) as
    (ruler1 & Hadd' & Hs & He & Hc & _); [|done|].
  { intros Hrzdb. apply (AddRule_catalogAvailable rule); [done|done|].
    by rewrite Hadd. }
  rewrite Hadd in Hadd'. injection Hadd' as -> <-.
  apply IsWhitelisted_grows; [| |done].
  - intros k entry. rewrite Hs. apply bucket_pushAll_old.
  - intros k entry. rewrite He. apply bucket_pushAll_old.
Qed.

(** X8.  A rule that is not a regex rule gives no verdict when it is
    removed: what is whitelisted afterwards was whitelisted before. *)
Theorem RemoveRule_adds_nothing (rule subject : string)
    (ruler ruler' : InternalRuler) (result : bool) :
  classify ruler (NormalizeRule rule) <> Reg ->
  RemoveRule rule ruler = Some (result, ruler') ->
  IsWhitelisted ruler' subject = true ->
  IsWhitelisted ruler subject = true.
Proof.
  intros Hkind Hremove.
  destruct (String.eqb (NormalizeRule rule) "") eqn:Hempty.
  { revert Hremove. unfold RemoveRule. rewrite Hempty. by intros [= <- <-]. }
  apply String.eqb_neq in Hempty.
  destruct (plainURLWithoutNetLocation ruler (NormalizeRule rule)) eqn:Hurl.
  { rewrite (RemoveRule_refused rule ruler Hempty Hurl) in Hremove.
    by injection Hremove as <- <-. }
  destruct (RemoveRule_pulls rule ruler Hempty Hkind) as
    (ruler1 & Hremove' & Hs & He & Hc & _); [|done|].
  { intros Hrzdb. apply (RemoveRule_catalogAvailable rule); [done|done|].
    by rewrite Hremove. }
  rewrite Hremove in Hremove'. injection Hremove' as -> <-.
  apply IsWhitelisted_grows; [| |by apply sameConfig_sym].
  - intros k entry. rewrite Hs. apply bucket_pullAll_old.
  - intros k entry. rewrite He. apply bucket_pullAll_old.
Qed.

End Verdicts.

(** ** Rules and subjects are normalized alike *)

Section Normalization.

Context `{Externals}.

Lemma NormalizeSubject_as_rule (subject : string) (hc : bool) :
  NormalizeSubject subject hc
  = if hc && negb (isURL (strings.TrimSpace subject))
    then strings.TrimPrefix (NormalizeRule subject) "www."
    else NormalizeRule subject.
Proof.
  unfold NormalizeSubject, NormalizeRule, isURL.
  destruct (String.eqb (strings.TrimSpace subject) ""
            || strings.HasPrefix (strings.TrimSpace subject) "#").
  { by destruct (hc && _). }
  destruct (strings.HasPrefix (strings.TrimSpace subject) "http://"
            || strings.HasPrefix (strings.TrimSpace subject) "https://").
  { by rewrite andb_false_r. }
  rewrite andb_true_r. by destruct (idnaze _), hc.
Qed.

(** X9.  A subject is normalized as a rule is when complements are not
    handled, and when they are and the subject is a URL; otherwise a
    leading [www.] is stripped from what the rule would be. *)
Theorem NormalizeSubject_NormalizeRule (subject : string) :
  NormalizeSubject subject false = NormalizeRule subject
  /\ NormalizeSubject subject true
     = if isURL (strings.TrimSpace subject)
       then NormalizeRule subject
       else strings.TrimPrefix (NormalizeRule subject) "www.".
Proof.
  rewrite !NormalizeSubject_as_rule. split; [done|].
  by destruct (isURL (strings.TrimSpace subject)).
Qed.

End Normalization.

(** ** What a rule whitelists once it is added *)



Lemma elem_of_broadEntries (complement : bool) (record extension : string)
    (known : list string) :
  extension ∈ known ->
  (record +:+ "." +:+ extension) ∈ broadEntries complement record known.
Proof.
  intros Hin. unfold broadEntries. apply list_elem_of_In, in_flat_map.
  exists extension. split; [by apply list_elem_of_In|]. by left.
Qed.

Section Whitelists.

Context `{Externals}.

Lemma matchesSubject_strict (ruler : InternalRuler) (sub : string) :
  sub ∈ bucket (strict ruler) (commonSearchKeyFromRule sub) ->
  matchesSubject ruler sub = true.
Proof.
  intros Hin. apply matchesSubject_stored_strict.
  rewrite bucket_stored. by apply Contains_elem_of.
Qed.

Lemma IsWhitelisted_matches (ruler : InternalRuler) (subject netloc : string) :
  NormalizeSubject subject (handle_complement ruler) <> "" ->
  ExtractNetLocationFromURL (NormalizeSubject subject (handle_complement ruler))
  = Some netloc ->
  matchesSubject ruler netloc = true
  \/ (isURL (NormalizeSubject subject (handle_complement ruler)) = true
      /\ matchesSubject ruler
           (NormalizeSubject subject (handle_complement ruler)) = true) ->
  IsWhitelisted ruler subject = true.
Proof.
  intros Hne Hnetloc Hmatch. unfold IsWhitelisted.
  rewrite (eqb_empty_false _ Hne), Hnetloc. simpl.
  destruct Hmatch as [->|[Hurl Hmatch]]; [done|].
  unfold isURL in Hurl. rewrite Hurl. simpl.
  by rewrite Hmatch, orb_true_r.
Qed.

(** A subject whose net location, or whose whole normalized text when
    it is a URL, is a strict entry that the rule stores. *)
Lemma AddRule_whitelists_strict (rule subject entry netloc : string)
    (ruler : InternalRuler) :
  NormalizeRule rule <> "" ->
  classify ruler (NormalizeRule rule) <> Reg ->
  (classify ruler (NormalizeRule rule) = Rzdb -> catalogAvailable ruler = true) ->
  plainURLWithoutNetLocation ruler (NormalizeRule rule) = false ->
  entry ∈ strictAdded ruler (NormalizeRule rule) ->
  NormalizeSubject subject (handle_complement ruler) <> "" ->
  ExtractNetLocationFromURL (NormalizeSubject subject (handle_complement ruler))
  = Some netloc ->
  netloc = entry
  \/ (isURL (NormalizeSubject subject (handle_complement ruler)) = true
      /\ NormalizeSubject subject (handle_complement ruler) = entry) ->
  exists ruler',
    AddRule rule ruler = Some (true, ruler')
    /\ IsWhitelisted ruler' subject = true.
Proof.
  intros Hne Hkind Hcatalog Hurl Hentry Hs Hnetloc Hwhich.
  destruct (AddRule_pushes rule ruler Hne Hkind Hcatalog Hurl)
    as (ruler' & Hadd & Hstrict & _ & Hconfig & _).
  exists ruler'. split; [done|].
  assert (matchesSubject ruler' entry = true) as Hmatch.
  { apply matchesSubject_strict. rewrite Hstrict.
    by apply bucket_pushAll_new. }
  assert (Hhc := Hconfig). destruct Hhc as (_ & _ & _ & Hhc & _).
  apply (IsWhitelisted_matches ruler' subject netloc); rewrite Hhc; try done.
  destruct Hwhich as [->|[Hsurl Hwhole]]; [by left|].
  right. split; [done|]. by rewrite Hwhole.
Qed.


(** X11.  A broad rule whitelists its body followed by any extension of the
    catalog. *)
Theorem broad_rule_whitelists_each_extension (rule subject extension : string)
    (ruler : InternalRuler) :
  NormalizeRule rule <> "" ->
  classify ruler (NormalizeRule rule) = Rzdb ->
  catalogAvailable ruler = true ->
  extension ∈ knownExtensions ruler ->
  NormalizeSubject subject (handle_complement ruler) <> "" ->
  ExtractNetLocationFromURL (NormalizeSubject subject (handle_complement ruler))
  = Some (addedBroadBody ruler (NormalizeRule rule) +:+ "." +:+ extension) ->
  exists ruler',
    AddRule rule ruler = Some (true, ruler')
    /\ IsWhitelisted ruler' subject = true.
Proof.
  intros Hne Hkind Hcatalog Hextension Hs Hnetloc.
  apply (AddRule_whitelists_strict rule subject
           (addedBroadBody ruler (NormalizeRule rule) +:+ "." +:+ extension)
           (addedBroadBody ruler (NormalizeRule rule) +:+ "." +:+ extension));
    try done.
  - by rewrite Hkind.
  - unfold plainURLWithoutNetLocation. by rewrite Hkind.
  - unfold strictAdded, strictEntries. rewrite Hkind.
    by apply elem_of_broadEntries.
  - by left.
Qed.

(** X12.  A suffix rule whitelists every subject whose net location ends in
    its entry, the entry being of three bytes or more. *)
Theorem suffix_rule_whitelists_what_ends_in_it (rule subject netloc : string)
    (ruler : InternalRuler) :
  NormalizeRule rule <> "" ->
  classify ruler (NormalizeRule rule) = All ->
  3 <= String.length
         (suffixEntry (cleanupFlags (FlagsAll ruler) (NormalizeRule rule))) ->
  NormalizeSubject subject (handle_complement ruler) <> "" ->
  ExtractNetLocationFromURL (NormalizeSubject subject (handle_complement ruler))
  = Some netloc ->
  strings.HasSuffix netloc
    (suffixEntry (cleanupFlags (FlagsAll ruler) (NormalizeRule rule))) = true ->
  exists ruler',
    AddRule rule ruler = Some (true, ruler')
    /\ IsWhitelisted ruler' subject = true.
Proof.
  intros Hne Hkind Hlong Hs Hnetloc Hsuffix.
  destruct (AddRule_pushes rule ruler Hne) as
    (ruler' & Hadd & _ & Hends & Hconfig & _).
  { by rewrite Hkind. }
  { by rewrite Hkind. }
  { unfold plainURLWithoutNetLocation. by rewrite Hkind. }
  exists ruler'. split; [done|].
  assert (Hhc := Hconfig). destruct Hhc as (_ & _ & _ & Hhc & _).
  apply (IsWhitelisted_matches ruler' subject netloc); rewrite Hhc; try done.
  left. eapply matchesSubject_ends; [|exact Hsuffix].
  rewrite Hends, (endsSearchKeyFromRule_suffix _ _ Hsuffix Hlong).
  apply bucket_pushAll_new.
  unfold endsTargets, suffixEntry. rewrite Hkind.
  destruct (strings.HasPrefix _ "."); by left.
Qed.

End Whitelists.

(** ** Splitting and cutting at one byte *)

Lemma prefix_empty (s : string) : String.prefix "" s = true.
Proof. by destruct s. Qed.

Lemma Contains_cons (c b : ascii) (s : string) :
  strings.Contains (String b s) (String c "")
  = if ascii_dec c b then true else strings.Contains s (String c "").
Proof.
  unfold strings.Contains, strings.Index.
  cbn [String.index String.prefix].
  destruct (ascii_dec c b); [by rewrite prefix_empty|].
  destruct (String.index 0 (String c "") s); [|done].
  symmetry. transitivity true; [|symmetry]; apply Z.leb_le; lia.
Qed.

Lemma Contains_empty (c : ascii) : strings.Contains "" (String c "") = false.
Proof. done. Qed.

(** [s[:strings.Index(s, c)]] holds no [c]. *)
Lemma slice_to_Index_free (c : ascii) (s : string) :
  strings.Contains (strings.slice_to s (strings.Index s (String c "")))
    (String c "") = false.
Proof.
  unfold strings.slice_to. induction s as [|b s IH]; [done|].
  unfold strings.Index in *. cbn [String.index String.prefix].
  destruct (ascii_dec c b) as [|Hother]; [by rewrite prefix_empty|].
  destruct (String.index 0 (String c "") s) as [i|]; [|done].
  rewrite Nat2Z.id in *. cbn [utf8.take].
  rewrite Contains_cons. by destruct (ascii_dec c b).
Qed.

Lemma Split_one_byte (s : string) (d : ascii) :
  strings.Split s (String d "") = strings.split_from (String d "") None 0 s.
Proof. done. Qed.

(** The pieces of a string that holds no [c], cut at the byte [d],
    hold no [c]. *)
Lemma split_from_free (c d : ascii) (cuts : option nat) (s : string) :
  strings.Contains s (String c "") = false ->
  Forall (fun piece => strings.Contains piece (String c "") = false)
    (strings.split_from (String d "") cuts 0 s).
Proof.
  revert cuts. induction s as [|b s IH]; intros cuts Hfree.
  { by repeat constructor. }
  rewrite Contains_cons in Hfree.
  destruct (ascii_dec c b) as [|Hother] eqn:Hdec; [done|].
  cbn [strings.split_from].
  assert (Forall (fun piece => strings.Contains piece (String c "") = false)
            (if String.prefix (String d "") (String b s)
             then "" :: strings.split_from (String d "") (pred <$> cuts)
                          (String.length (String d "") - 1) s
             else match strings.split_from (String d "") cuts 0 s with
                  | x :: xs => String b x :: xs
                  | [] => [String b ""]
                  end)) as Hpieces.
  { destruct (String.prefix (String d "") (String b s)).
    - constructor; [done|]. by apply IH.
    - specialize (IH cuts Hfree).
      destruct (strings.split_from (String d "") cuts 0 s) as [|x xs].
      + constructor; [|done]. by rewrite Contains_cons, Hdec.
      + inversion IH as [|? ? Hx Hxs]; subst.
        constructor; [|done]. by rewrite Contains_cons, Hdec. }
  destruct cuts as [[|k]|]; [|done|done].
  constructor; [|done]. by rewrite Contains_cons, Hdec.
Qed.

(** The first piece of [strings.SplitN(s, c, 2)] holds no [c]. *)
Lemma SplitN_head_free (c : ascii) (s : string) :
  strings.Contains (nth 0 (strings.SplitN s (String c "") 2) "")
    (String c "") = false.
Proof.
  change (strings.SplitN s (String c "") 2)
    with (strings.split_from (String c "") (Some 1) 0 s).
  induction s as [|b s IH]; [done|].
  cbn [strings.split_from String.prefix].
  destruct (ascii_dec c b) as [|Hother] eqn:Hdec.
  { by rewrite prefix_empty. }
  destruct (strings.split_from (String c "") (Some 1) 0 s) as [|x xs];
    cbn [nth] in *; by rewrite Contains_cons, Hdec.
Qed.

Section Idnaze.

Context `{Externals}.

Lemma idnaze_subjects_free (idnazed_subjects subjects : list string) :
  Forall (fun subject => strings.Contains subject "#" = false) subjects ->
  is_Some (idnaze_subjects idnazed_subjects subjects).
Proof.
  revert idnazed_subjects.
  induction subjects as [|subject rest IH]; intros idnazed_subjects Hfree.
  { by eexists. }
  inversion Hfree as [|? ? Hsubject Hrest]; subst.
  cbn [idnaze_subjects]. rewrite Hsubject.
  destruct (String.eqb subject "" || regex_to_skip subject); by apply IH.
Qed.

(** X13.  [idnaze] never returns an error: the subjects it walks through are
    cut from the text before the first [#], so that its
    invalid-format return is never reached. *)
Theorem idnaze_never_fails (s : string) : is_Some (idnaze s).
Proof.
  unfold idnaze. cbv zeta.
  destruct (String.eqb (strings.TrimSpace s) ""
            || strings.HasPrefix (strings.TrimSpace s) "#"
            || regex_to_skip (strings.TrimSpace s)); [by eexists|].
  assert (forall d : ascii,
            is_Some
              (idnaze_subjects []
                 (strings.Split
                    (if strings.Contains (strings.TrimSpace s) "#"
                     then nth 0 (strings.SplitN (strings.TrimSpace s) "#" 2) ""
                     else strings.TrimSpace s) (String d "")))) as Hwalk.
  { intros d. apply idnaze_subjects_free. rewrite Split_one_byte.
    apply split_from_free.
    destruct (strings.Contains (strings.TrimSpace s) "#") eqn:Hhash; [|done].
    apply SplitN_head_free. }
  destruct (strings.Contains (strings.TrimSpace s) tab).
  { destruct (Hwalk "009"%char) as [idnazed Hidnazed].
    unfold tab. cbn [String.eqb negb]. rewrite Hidnazed.
    by destruct (negb _); eexists. }
  destruct (strings.Contains (strings.TrimSpace s) space).
  { destruct (Hwalk " "%char) as [idnazed Hidnazed].
    unfold space. cbn [String.eqb negb]. rewrite Hidnazed.
    by destruct (negb _); eexists. }
  by eexists.
Qed.

(** X14.  The net location that [ExtractNetLocationFromURL] returns holds no
    slash. *)
Theorem ExtractNetLocationFromURL_no_slash (rawURL netloc : string) :
  ExtractNetLocationFromURL rawURL = Some netloc ->
  strings.Contains netloc "/" = false.
Proof.
  unfold ExtractNetLocationFromURL.
  destruct (String.eqb rawURL ""); [done|].
  destruct (url_Parse rawURL) as [urlObj|]; [|done].
  intros [= <-]. cbv zeta.
  match goal with
  | |- strings.Contains
         (if strings.Contains ?result "/" then _ else _) _ = _ =>
    generalize result
  end.
  intros result. destruct (strings.Contains result "/") eqn:Hslash; [|done].
  apply slice_to_Index_free.
Qed.

End Idnaze.

(** ** [helpers.JoinWithPipe] *)

Lemma append_assoc (a b c : string) : (a +:+ b) +:+ c = a +:+ b +:+ c.
Proof.
  induction a as [|x a IH]; [done|].
  change (String x ((a +:+ b) +:+ c) = String x (a +:+ b +:+ c)).
  by rewrite IH.
Qed.

Lemma concat_cons (sep first second : string) (rest : list string) :
  String.concat sep ((first +:+ sep +:+ second) :: rest)
  = first +:+ sep +:+ String.concat sep (second :: rest).
Proof.
  destruct rest as [|third rest]; [done|].
  cbn [String.concat]. by rewrite !append_assoc.
Qed.

Lemma fold_left_concat (first : string) (rest : list string) :
  fold_left (fun result elem => result +:+ "|" +:+ elem) rest first
  = String.concat "|" (first :: rest).
Proof.
  revert first. induction rest as [|second rest IH]; intros first; [done|].
  cbn [fold_left]. rewrite IH. apply concat_cons.
Qed.

(** X15.  The loop of [JoinWithPipe] builds what [strings.Join] builds with
    the separator [|]. *)
Theorem JoinWithPipe_Join (elements : list string) :
  JoinWithPipe elements = strings.Join elements "|".
Proof.
  unfold JoinWithPipe, strings.Join.
  destruct elements as [|first rest]; [done|]. apply fold_left_concat.
Qed.

Lemma split_from_whole (c : ascii) (s : string) :
  strings.Contains s (String c "") = false ->
  strings.split_from (String c "") None 0 s = [s].
Proof.
  induction s as [|b s IH]; [done|].
  rewrite Contains_cons. cbn [strings.split_from String.prefix].
  destruct (ascii_dec c b); [done|]. intros Hfree. by rewrite IH.
Qed.

Lemma split_from_first (c : ascii) (s rest : string) :
  strings.Contains s (String c "") = false ->
  strings.split_from (String c "") None 0 (s +:+ String c rest)
  = s :: strings.split_from (String c "") None 0 rest.
Proof.
  induction s as [|b s IH].
  - intros _. change ("" +:+ String c rest) with (String c rest).
    cbn [strings.split_from String.prefix].
    destruct (ascii_dec c c); [|done]. by rewrite prefix_empty.
  - rewrite Contains_cons.
    change (String b s +:+ String c rest)
      with (String b (s +:+ String c rest)).
    cbn [strings.split_from String.prefix].
    destruct (ascii_dec c b); [done|]. intros Hfree. by rewrite IH.
Qed.

Lemma split_from_concat (elements : list string) :
  elements <> [] ->
  Forall (fun elem => strings.Contains elem "|" = false) elements ->
  strings.split_from "|" None 0 (String.concat "|" elements) = elements.
Proof.
  induction elements as [|first rest IH]; [done|].
  intros _ Hfree. inversion Hfree as [|? ? Hfirst Hrest]; subst.
  destruct rest as [|second rest].
  - by apply split_from_whole.
  - cbn [String.concat]. change ("|" +:+ ?x) with (String "|" x).
    rewrite split_from_first by done. f_equal. by apply IH.
Qed.

(** X16.  Splitting at [|] gives back the elements that [JoinWithPipe] joined,
    when there is one at least and none holds a [|]. *)
Theorem Split_JoinWithPipe (elements : list string) :
  elements <> [] ->
  Forall (fun elem => strings.Contains elem "|" = false) elements ->
  strings.Split (JoinWithPipe elements) "|" = elements.
Proof.
  intros Hne Hfree. rewrite Split_one_byte.
  rewrite <- (split_from_concat elements Hne Hfree) at 2.
  destruct elements as [|first rest]; [done|].
  unfold JoinWithPipe. by rewrite fold_left_concat.
Qed.

(** ** Flags *)

Section FlagsOfARule.

Context `{Externals}.

(** X17.  A rule that bears none of the flags is left as it is by
    [cleanupFlags]. *)
Theorem cleanupFlags_without_flag (flags : list string) (rule : string) :
  HasFlag flags rule = false -> cleanupFlags flags rule = rule.
Proof.
  unfold cleanupFlags, HasFlag.
  induction flags as [|flag flags IH]; [done|].
  cbn [existsb fold_left]. intros Hnone.
  apply orb_false_elim in Hnone as [Hflag Hnone].
  rewrite Hflag. cbn [negb orb]. by apply IH.
Qed.

End FlagsOfARule.

(** ** The catalog is fetched once *)

Section Catalog.

Context `{Externals}.

(** X18.  A second call of [getKnownExtensions] returns the catalog of the
    first and leaves the engine as the first left it. *)
Theorem getKnownExtensions_again (ruler ruler' : InternalRuler)
    (known : list string) :
  getKnownExtensions ruler = Some (known, ruler') ->
  getKnownExtensions ruler' = Some (known, ruler').
Proof.
  unfold getKnownExtensions.
  destruct (length (extensions ruler) =? 0)%nat eqn:Hempty.
  - destruct IANAExtensions as [iana|] eqn:Hiana,
      PSLSuffixes as [psl|] eqn:Hpsl; try done.
    intros [= <- <-]. cbn [extensions set_extensions].
    destruct (length ((extensions ruler ++ iana) ++ psl) =? 0)%nat
      eqn:Hempty'; [|done].
    apply Nat.eqb_eq, length_zero_iff_nil in Hempty'.
    destruct (app_eq_nil _ _ Hempty') as [Hfirst ->].
    destruct (app_eq_nil _ _ Hfirst) as [Hextensions ->].
    by rewrite Hextensions.
  - intros [= <- <-]. by rewrite Hempty.
Qed.

End Catalog.

(** ** The output of the cleanup *)

Section Cleanup.

Context `{Externals}.

Lemma processCleanupOutput_filter (g : givilstaRuler) (lines : list string) :
  processCleanupOutput g lines = List.filter (processCleanupLine g) lines.
Proof. unfold processCleanupOutput. by rewrite fold_left_select. Qed.

Lemma filter_filter_same {A : Type} (p : A -> bool) (l : list A) :
  List.filter p (List.filter p l) = List.filter p l.
Proof.
  induction l as [|x l IH]; [done|]. simpl.
  destruct (p x) eqn:Hp; [|done]. simpl. by rewrite Hp, IH.
Qed.

(** X19.  The output holds lines of the source file only, in their order. *)
Theorem processCleanupOutput_sublist (g : givilstaRuler)
    (lines : list string) :
  sublist (processCleanupOutput g lines) lines.
Proof. rewrite processCleanupOutput_filter. apply filter_sublist_of. Qed.

(** X20.  Cleaning the output again, with the same rules, changes nothing. *)
Theorem processCleanupOutput_idempotent (g : givilstaRuler)
    (lines : list string) :
  processCleanupOutput g (processCleanupOutput g lines)
  = processCleanupOutput g lines.
Proof. rewrite !processCleanupOutput_filter. apply filter_filter_same. Qed.

(** X21.  A comment line of the source file is in the output, whatever the
    rules are. *)
Theorem processCleanupOutput_keeps_comments (g : givilstaRuler)
    (lines : list string) (line : string) :
  line ∈ lines ->
  strings.HasPrefix (strings.TrimSpace line) "#" = true ->
  line ∈ processCleanupOutput g lines.
Proof.
  intros Hin Hcomment. rewrite processCleanupOutput_filter.
  apply elem_of_bool_filter. split; [done|].
  unfold processCleanupLine, IsSubjectBlacklisted, IsSubjectWhitelisted,
    IsWhitelisted, NormalizeSubject.
  rewrite Hcomment, orb_true_r. cbn [String.eqb negb andb].
  destruct (strings.TrimSpace line); [discriminate Hcomment|done].
Qed.

(** X22.  A line that the rules whitelist, and a blank line, are not in the
    output. *)
Theorem processCleanupOutput_drops (g : givilstaRuler)
    (lines : list string) (line : string) :
  IsSubjectWhitelisted g line = true \/ strings.TrimSpace line = "" ->
  line ∉ processCleanupOutput g lines.
Proof.
  intros Hdrop. rewrite processCleanupOutput_filter.
  intros [_ Hkept]%elem_of_bool_filter. revert Hkept.
  unfold processCleanupLine, IsSubjectBlacklisted.
  destruct Hdrop as [->| ->]; [by rewrite andb_false_r|done].
Qed.

End Cleanup.

(** ** What [RemoveRule] returns *)

Section RemoveRuleResult.

Context `{Externals}.

(** X23.  [RemoveRule] returns false, and changes nothing, on a rule that is
    empty or comment-only after trimming.  On a rule whose normalized
    form is not empty, and unless the call panics, it returns true,
    whether the rule was ever added or not, except on a plain URL rule
    without an extractable net location when complements are handled,
    on which it returns false and changes nothing. *)
Theorem RemoveRule_returns (rule : string) (ruler : InternalRuler) :
  (blankOrComment rule = true -> RemoveRule rule ruler = Some (false, ruler))
  /\ (NormalizeRule rule <> "" ->
      removePanics ruler (NormalizeRule rule) = false ->
      if plainURLWithoutNetLocation ruler (NormalizeRule rule)
      then RemoveRule rule ruler = Some (false, ruler)
      else exists ruler', RemoveRule rule ruler = Some (true, ruler')).
Proof.
  split.
  - intros Hblank. unfold RemoveRule.
    by rewrite (NormalizeRule_blankOrComment _ Hblank).
  - intros Hne. unfold RemoveRule. rewrite (eqb_empty_false _ Hne).
    generalize (NormalizeRule rule) as n. clear Hne. intros n.
    unfold removePanics, plainURLWithoutNetLocation, classify, orElse,
      unparseAllFlaggedRule, unparseRegexFlaggedRule, unparseRZDBFlagedRule,
      unparsePlainRule, isURL.
    destruct (HasFlag (FlagsAll ruler) n); simpl.
    { intros _. destruct (strings.HasPrefix _ "."); eauto. }
    destruct (HasFlag (FlagsReg ruler) n); simpl.
    { destruct (pullRegexRule _ ruler); [eauto|discriminate]. }
    destruct (HasFlag (FlagsRzdb ruler) n); simpl.
    { destruct (getKnownExtensions ruler) as [[known ruler']|];
        [eauto|discriminate]. }
    intros _. destruct (handle_complement ruler); simpl; [|eauto].
    destruct (_ || _); simpl; [|eauto].
    destruct (ExtractNetLocationFromURL n); eauto.
Qed.

End RemoveRuleResult.

(** ** What no call changes *)

Lemma sameSetup_refl (ruler : InternalRuler) : sameSetup ruler ruler.
Proof. by repeat split. Qed.

Lemma sameSetup_trans (r1 r2 r3 : InternalRuler) :
  sameSetup r1 r2 -> sameSetup r2 r3 -> sameSetup r1 r3.
Proof.
  intros (H1 & H2 & H3 & H4 & H5) (K1 & K2 & K3 & K4 & K5).
  unfold sameSetup. by rewrite K1, K2, K3, K4, K5.
Qed.

Lemma sameConfig_sameSetup (ruler ruler' : InternalRuler) :
  sameConfig ruler ruler' ->
  sameSetup ruler ruler' /\ (regexInStep ruler -> regexInStep ruler').
Proof.
  intros (Hpresent & Hregex & Hcompiled & Hhc & Hall & Hreg & Hrzdb).
  split; [by repeat split|].
  unfold regexInStep. by rewrite Hregex, Hcompiled.
Qed.

Section Setup.

Context `{Externals}.

Lemma pushRegexRule_setup (rule : string) (ruler ruler' : InternalRuler) :
  pushRegexRule rule ruler = Some ruler' ->
  sameSetup ruler ruler' /\ regexInStep ruler'.
Proof.
  unfold pushRegexRule.
  destruct (match compiled_regexp ruler with
            | Some str => regexp_MustCompile (str +:+ "|" +:+ rule)
            | None =>
              regexp_MustCompile
                (if String.eqb (regex ruler) "" then rule
                 else regex ruler +:+ "|" +:+ rule)
            end) as [compiled|]; [|done].
  intros [= <-]. split; [by repeat split|]. by intros Hnone.
Qed.

Lemma pullRegexRule_setup (rule : string) (ruler ruler' : InternalRuler) :
  pullRegexRule rule ruler = Some ruler' ->
  sameSetup ruler ruler' /\ (regexInStep ruler -> regexInStep ruler').
Proof.
  unfold pullRegexRule.
  destruct (String.eqb (regex ruler) "").
  { intros [= <-]. split; [apply sameSetup_refl|done]. }
  destruct (compiled_regexp ruler) as [compiled|].
  2: { intros [= <-]. split; [apply sameSetup_refl|done]. }
  destruct (String.eqb (strings.ReplaceAll (regex ruler) rule "") "")
    eqn:Hempty.
  { intros [= <-]. split; [by repeat split|]. intros _ _.
    by apply String.eqb_eq in Hempty. }
  destruct (regexp_MustCompile _) as [compiled'|]; [|done].
  intros [= <-]. split; [by repeat split|]. by intros _ Hnone.
Qed.

Lemma AddRule_setup (rule : string) (ruler ruler' : InternalRuler)
    (result : bool) :
  AddRule rule ruler = Some (result, ruler') ->
  sameSetup ruler ruler' /\ (regexInStep ruler -> regexInStep ruler').
Proof.
  intros Hadd.
  destruct (String.eqb (NormalizeRule rule) "") eqn:Hempty.
  { revert Hadd. unfold AddRule. rewrite Hempty. intros [= <- <-].
    split; [apply sameSetup_refl|done]. }
  apply String.eqb_neq in Hempty.
  assert (classify ruler (NormalizeRule rule) = Reg
          \/ classify ruler (NormalizeRule rule) <> Reg) as [Hreg|Hkind]
    by (destruct (classify ruler (NormalizeRule rule)); (by left) || by right).
  { revert Hreg Hadd. unfold AddRule, classify.
    rewrite (eqb_empty_false _ Hempty).
    unfold orElse, parseAllFlaggedRule, parseRegexFlaggedRule.
    destruct (HasFlag (FlagsAll ruler) _); [done|]. simpl.
    destruct (HasFlag (FlagsReg ruler) _); simpl.
    2: { by destruct (HasFlag (FlagsRzdb ruler) _). }
    intros _.
    destruct (pushRegexRule _ ruler) as [pushed|] eqn:Hpush; [|done].
    intros [= <- <-].
    destruct (pushRegexRule_setup _ _ _ Hpush) as [Hsetup Hstep].
    by split. }
  destruct (plainURLWithoutNetLocation ruler (NormalizeRule rule)) eqn:Hurl.
  { rewrite (AddRule_refused rule ruler Hempty Hurl) in Hadd.
    injection Hadd as <- <-. split; [apply sameSetup_refl|done]. }
  assert (classify ruler (NormalizeRule rule) = Rzdb ->
          catalogAvailable ruler = true) as Hcatalog.
  { intros Hrzdb. by apply (AddRule_catalogAvailable rule); rewrite ?Hadd. }
  destruct (AddRule_pushes rule ruler Hempty Hkind Hcatalog Hurl) as
    (pushed & Hpushed & _ & _ & Hconfig & _).
  rewrite Hpushed in Hadd. injection Hadd as <- <-.
  by apply sameConfig_sameSetup.
Qed.

Lemma RemoveRule_setup (rule : string) (ruler ruler' : InternalRuler)
    (result : bool) :
  RemoveRule rule ruler = Some (result, ruler') ->
  sameSetup ruler ruler' /\ (regexInStep ruler -> regexInStep ruler').
Proof.
  intros Hremove.
  destruct (String.eqb (NormalizeRule rule) "") eqn:Hempty.
  { revert Hremove. unfold RemoveRule. rewrite Hempty. intros [= <- <-].
    split; [apply sameSetup_refl|done]. }
  apply String.eqb_neq in Hempty.
  assert (classify ruler (NormalizeRule rule) = Reg
          \/ classify ruler (NormalizeRule rule) <> Reg) as [Hreg|Hkind]
    by (destruct (classify ruler (NormalizeRule rule)); (by left) || by right).
  { revert Hreg Hremove. unfold RemoveRule, classify.
    rewrite (eqb_empty_false _ Hempty).
    unfold orElse, unparseAllFlaggedRule, unparseRegexFlaggedRule.
    destruct (HasFlag (FlagsAll ruler) _); [done|]. simpl.
    destruct (HasFlag (FlagsReg ruler) _); simpl.
    2: { by destruct (HasFlag (FlagsRzdb ruler) _). }
    intros _.
    destruct (pullRegexRule _ ruler) as [pulled|] eqn:Hpull; [|done].
    intros [= <- <-]. by apply (pullRegexRule_setup _ _ _ Hpull). }
  destruct (plainURLWithoutNetLocation ruler (NormalizeRule rule)) eqn:Hurl.
  { rewrite (RemoveRule_refused rule ruler Hempty Hurl) in Hremove.
    injection Hremove as <- <-. split; [apply sameSetup_refl|done]. }
  assert (classify ruler (NormalizeRule rule) = Rzdb ->
          catalogAvailable ruler = true) as Hcatalog.
  { intros Hrzdb. by apply (RemoveRule_catalogAvailable rule); rewrite ?Hremove. }
  destruct (RemoveRule_pulls rule ruler Hempty Hkind Hcatalog Hurl) as
    (pulled & Hpulled & _ & _ & Hconfig & _).
  rewrite Hpulled in Hremove. injection Hremove as <- <-.
  by apply sameConfig_sameSetup.
Qed.

Lemma reachable_setup (hc : bool) (ruler : InternalRuler) :
  reachable hc ruler ->
  sameSetup (NewInternalRuler hc) ruler /\ regexInStep ruler.
Proof.
  induction 1 as [|rule ruler ruler' result _ [IHsetup IHstep] Hadd
                  |rule ruler ruler' result _ [IHsetup IHstep] Hremove].
  - split; [apply sameSetup_refl|done].
  - destruct (AddRule_setup _ _ _ _ Hadd) as [Hsetup Hstep].
    split; [by eapply sameSetup_trans|by apply Hstep].
  - destruct (RemoveRule_setup _ _ _ _ Hremove) as [Hsetup Hstep].
    split; [by eapply sameSetup_trans|by apply Hstep].
Qed.

(** X24.  No sequence of calls of [AddRule] and [RemoveRule] writes to the
    [present] index: it is empty on every engine they lead to. *)
Theorem reachable_present_empty (hc : bool) (ruler : InternalRuler) :
  reachable hc ruler -> present ruler = ∅.
Proof. intros Hreach. by destruct (reachable_setup hc ruler Hreach) as [[? _] _]. Qed.

(** X25.  The handling of complements and the three flag lists stay as
    [NewInternalRuler] made them. *)
Theorem reachable_flags (hc : bool) (ruler : InternalRuler) :
  reachable hc ruler ->
  handle_complement ruler = hc
  /\ FlagsAll ruler = ["ALL "; "ALL:"; "ALL#"; "ALL,"; "ALL@"]
  /\ FlagsReg ruler = ["REG "; "REG:"; "REG#"; "REG,"; "REG@"]
  /\ FlagsRzdb ruler = ["RZD "; "RZD:"; "RZD#"; "RZD,"; "RZD@";
                        "RZDB "; "RZDB:"; "RZDB#"; "RZDB,"; "RZDB@"].
Proof.
  intros Hreach.
  by destruct (reachable_setup hc ruler Hreach)
    as [(_ & -> & -> & -> & ->) _].
Qed.

(** X26.  An engine without a compiled expression has no accumulated
    expression either. *)
Theorem reachable_regex_in_step (hc : bool) (ruler : InternalRuler) :
  reachable hc ruler -> compiled_regexp ruler = None -> regex ruler = "".
Proof. intros Hreach. by destruct (reachable_setup hc ruler Hreach) as [_ ?]. Qed.

End Setup.

(** ** A regex rule added and removed *)

Lemma prefix_refl (s : string) : String.prefix s s = true.
Proof.
  induction s as [|c s IH]; [done|]. cbn [String.prefix].
  by destruct (ascii_dec c c).
Qed.

Lemma replace_from_skipped (old new : string) (n : option nat) (skip : nat)
    (s : string) :
  String.length s <= skip -> strings.replace_from old new n skip s = "".
Proof.
  revert skip. induction s as [|c s IH]; intros skip Hskip; [done|].
  destruct skip as [|skip]; [simpl in Hskip; lia|].
  cbn [strings.replace_from]. apply IH. simpl in Hskip. lia.
Qed.

Lemma ReplaceAll_whole (s : string) :
  s <> "" -> strings.ReplaceAll s s "" = "".
Proof.
  intros Hne. unfold strings.ReplaceAll, strings.Replace.
  rewrite (eqb_empty_false _ Hne). cbn [orb Z.eqb Z.ltb Z.compare].
  destruct s as [|c s]; [done|].
  cbn [strings.replace_from]. rewrite prefix_refl.
  rewrite replace_from_skipped; [done|]. simpl. lia.
Qed.

Section RegexUndo.

Context `{Externals}.

(** X27.  A regex rule added to an engine that has no expression, and removed
    again, leaves the engine as it was. *)
Theorem regex_rule_added_then_removed (rule : string) (ruler : InternalRuler) :
  NormalizeRule rule <> "" ->
  classify ruler (NormalizeRule rule) = Reg ->
  regex ruler = "" ->
  compiled_regexp ruler = None ->
  cleanupFlags (FlagsReg ruler) (NormalizeRule rule) <> "" ->
  regexp_compiles (cleanupFlags (FlagsReg ruler) (NormalizeRule rule)) = true ->
  exists ruler1,
    AddRule rule ruler = Some (true, ruler1)
    /\ RemoveRule rule ruler1 = Some (true, ruler).
Proof.
  intros Hne Hkind Hregex Hcompiled Hbody Hcompiles.
  unfold AddRule, RemoveRule. rewrite (eqb_empty_false _ Hne).
  revert Hkind Hbody Hcompiles. generalize (NormalizeRule rule) as n.
  intros n. unfold classify.
  destruct (HasFlag (FlagsAll ruler) n) eqn:Hall; [done|].
  destruct (HasFlag (FlagsReg ruler) n) eqn:Hreg.
  2: { by destruct (HasFlag (FlagsRzdb ruler) n). }
  intros _ Hbody Hcompiles.
  exists (set_regex (cleanupFlags (FlagsReg ruler) n)
            (Some (cleanupFlags (FlagsReg ruler) n)) ruler).
  split.
  - unfold orElse, parseAllFlaggedRule. rewrite Hall. cbn [negb].
    unfold parseRegexFlaggedRule, pushRegexRule, regexp_MustCompile.
    rewrite Hreg, Hregex, Hcompiled. cbn [negb String.eqb].
    by rewrite Hcompiles.
  - unfold orElse, unparseAllFlaggedRule.
    cbn [FlagsAll set_regex]. rewrite Hall. cbn [negb].
    unfold unparseRegexFlaggedRule, pullRegexRule.
    cbn [FlagsReg regex compiled_regexp set_regex].
    rewrite Hreg. cbn [negb].
    rewrite (eqb_empty_false _ Hbody), (ReplaceAll_whole _ Hbody).
    cbn [String.eqb]. do 2 f_equal.
    destruct ruler. simpl in *. by subst.
Qed.

End RegexUndo.

(** ** The order of two additions *)

Lemma pushAll_pushAll (key : string -> string) (rules1 rules2 : list string)
    (index : gmap string (list string)) :
  sameBuckets (pushAll key rules2 (pushAll key rules1 index))
    (pushAll key rules1 (pushAll key rules2 index)).
Proof.
  revert index. induction rules1 as [|rule rules1 IH]; intros index.
  - apply sameBuckets_refl.
  - change (sameBuckets
              (pushAll key rules2
                 (pushAll key rules1 (push (key rule) rule index)))
              (pushAll key rules1
                 (push (key rule) rule (pushAll key rules2 index)))).
    eapply sameBuckets_trans; [apply IH|].
    apply pushAll_sameBuckets, pushAll_push.
Qed.

Section Order.

Context `{Externals}.

Lemma AddRule_gain (rule : string) (ruler ruler' : InternalRuler)
    (result : bool) :
  classify ruler (NormalizeRule rule) <> Reg ->
  AddRule rule ruler = Some (result, ruler') ->
  strict ruler'
  = pushAll commonSearchKeyFromRule (strictGain ruler rule) (strict ruler)
  /\ ends ruler'
     = pushAll endsSearchKeyFromRule (endsGain ruler rule) (ends ruler)
  /\ sameConfig ruler ruler'
  /\ (extensions ruler' = extensions ruler
      \/ (classify ruler (NormalizeRule rule) = Rzdb
          /\ catalogAvailable ruler = true
          /\ extensions ruler' = knownExtensions ruler)).
Proof.
  intros Hkind Hadd. unfold strictGain, endsGain, accepted.
  destruct (String.eqb (NormalizeRule rule) "") eqn:Hempty.
  { revert Hadd. unfold AddRule. rewrite Hempty. intros [= <- <-].
    split; [done|]. split; [done|].
    split; [apply sameConfig_refl|by left]. }
  apply String.eqb_neq in Hempty.
  destruct (plainURLWithoutNetLocation ruler (NormalizeRule rule)) eqn:Hurl.
  { rewrite (AddRule_refused rule ruler Hempty Hurl) in Hadd.
    injection Hadd as <- <-.
    split; [done|]. split; [done|].
    split; [apply sameConfig_refl|by left]. }
  assert (classify ruler (NormalizeRule rule) = Rzdb ->
          catalogAvailable ruler = true) as Hcatalog.
  { intros Hrzdb. by apply (AddRule_catalogAvailable rule); rewrite ?Hadd. }
  destruct (AddRule_pushes rule ruler Hempty Hkind Hcatalog Hurl) as
    (pushed & Hpushed & Hstrict & Hends & Hconfig & Hextensions).
  rewrite Hpushed in Hadd. injection Hadd as <- <-.
  cbn [negb andb]. split; [done|]. split; [done|]. split; [done|].
  destruct (classify ruler (NormalizeRule rule)) eqn:Hwhich;
    try (by left).
  right. split; [done|]. split; [by apply Hcatalog|done].
Qed.

Lemma knownExtensions_extensions (ruler ruler' : InternalRuler) :
  extensions ruler' = extensions ruler ->
  knownExtensions ruler' = knownExtensions ruler
  /\ catalogAvailable ruler' = catalogAvailable ruler.
Proof.
  unfold knownExtensions, catalogAvailable, getKnownExtensions.
  intros ->. destruct (length (extensions ruler) =? 0)%nat; [|done].
  by destruct IANAExtensions, PSLSuffixes.
Qed.

Lemma addedBroadBody_sameConfig (ruler ruler' : InternalRuler)
    (rule : string) :
  sameConfig ruler ruler' ->
  addedBroadBody ruler' rule = addedBroadBody ruler rule.
Proof.
  intros (_ & _ & _ & Hhc & _ & _ & Hrzdb). unfold addedBroadBody.
  by rewrite Hhc, Hrzdb.
Qed.

(** What a rule stores is the same after another rule was added,
    provided that the catalog it is expanded over could be fetched. *)
Lemma gain_after (rule other : string) (ruler ruler' : InternalRuler)
    (result : bool) :
  classify ruler (NormalizeRule other) <> Reg ->
  AddRule other ruler = Some (result, ruler') ->
  (NormalizeRule rule <> "" ->
   classify ruler (NormalizeRule rule) = Rzdb ->
   catalogAvailable ruler = true) ->
  classify ruler' (NormalizeRule rule) = classify ruler (NormalizeRule rule)
  /\ strictGain ruler' rule = strictGain ruler rule
  /\ endsGain ruler' rule = endsGain ruler rule.
Proof.
  intros Hkind Hadd Hcatalog.
  destruct (AddRule_gain other ruler ruler' result Hkind Hadd) as
    (_ & _ & Hconfig & Hextensions).
  split; [by apply classify_sameConfig|].
  unfold strictGain, endsGain, accepted, strictAdded.
  destruct (String.eqb (NormalizeRule rule) "") eqn:Hempty; [done|].
  apply String.eqb_neq in Hempty. specialize (Hcatalog Hempty).
  assert (classify ruler (NormalizeRule rule) = Rzdb ->
          knownExtensions ruler' = knownExtensions ruler) as Hknown.
  { intros Hrzdb. specialize (Hcatalog Hrzdb).
    destruct Hextensions as [Hsame|(_ & _ & Hcached)].
    - by destruct (knownExtensions_extensions _ _ Hsame) as [-> _].
    - by apply knownExtensions_cached. }
  rewrite (plainURLWithoutNetLocation_sameConfig _ _ _ Hconfig),
    (addedBroadBody_sameConfig _ _ _ Hconfig),
    (endsTargets_sameConfig _ _ _ Hconfig).
  by rewrite (strictEntries_sameConfig ruler ruler' _ _ Hconfig).
Qed.

(** X28.  Two rules that are not regex rules give the same verdicts in
    whichever order they are added. *)
Theorem AddRule_order_irrelevant (rule1 rule2 : string)
    (ruler ruler1 ruler12 ruler2 ruler21 : InternalRuler)
    (result1 result12 result2 result21 : bool) :
  classify ruler (NormalizeRule rule1) <> Reg ->
  classify ruler (NormalizeRule rule2) <> Reg ->
  AddRule rule1 ruler = Some (result1, ruler1) ->
  AddRule rule2 ruler1 = Some (result12, ruler12) ->
  AddRule rule2 ruler = Some (result2, ruler2) ->
  AddRule rule1 ruler2 = Some (result21, ruler21) ->
  forall subject,
    IsWhitelisted ruler12 subject = IsWhitelisted ruler21 subject.
Proof.
  intros Hkind1 Hkind2 Hadd1 Hadd12 Hadd2 Hadd21 subject.
  assert (NormalizeRule rule1 <> "" ->
          classify ruler (NormalizeRule rule1) = Rzdb ->
          catalogAvailable ruler = true) as Hcatalog1.
  { intros Hne Hrzdb.
    by apply (AddRule_catalogAvailable rule1); rewrite ?Hadd1. }
  assert (NormalizeRule rule2 <> "" ->
          classify ruler (NormalizeRule rule2) = Rzdb ->
          catalogAvailable ruler = true) as Hcatalog2.
  { intros Hne Hrzdb.
    by apply (AddRule_catalogAvailable rule2); rewrite ?Hadd2. }
  destruct (gain_after rule2 rule1 ruler ruler1 result1 Hkind1 Hadd1 Hcatalog2)
    as (Hclass12 & Hstrict12 & Hends12).
  destruct (gain_after rule1 rule2 ruler ruler2 result2 Hkind2 Hadd2 Hcatalog1)
    as (Hclass21 & Hstrict21 & Hends21).
  destruct (AddRule_gain rule1 ruler ruler1 result1 Hkind1 Hadd1)
    as (Hs1 & He1 & Hc1 & _).
  destruct (AddRule_gain rule2 ruler ruler2 result2 Hkind2 Hadd2)
    as (Hs2 & He2 & Hc2 & _).
  destruct (AddRule_gain rule2 ruler1 ruler12 result12) as
    (Hs12 & He12 & Hc12 & _); [by rewrite Hclass12|done|].
  destruct (AddRule_gain rule1 ruler2 ruler21 result21) as
    (Hs21 & He21 & Hc21 & _); [by rewrite Hclass21|done|].
  apply IsWhitelisted_sameBuckets.
  - rewrite Hs12, Hs21, Hs1, Hs2, Hstrict12, Hstrict21.
    apply pushAll_pushAll.
  - rewrite He12, He21, He1, He2, Hends12, Hends21.
    apply pushAll_pushAll.
  - eapply sameConfig_trans; [apply sameConfig_sym, Hc21|].
    eapply sameConfig_trans; [apply sameConfig_sym, Hc2|].
    eapply sameConfig_trans; [apply Hc1|apply Hc12].
Qed.

End Order.

(** * Instances of the further properties *)

Lemma IsWhitelisted_blankOrComment_witness :
  IsWhitelisted (H := Reference.externals [] [])
    (afterAddRule (H := Reference.externals [] []) "example.org"
       (NewInternalRuler false))
    "# example.org" = false.
Proof.
  apply (IsWhitelisted_blankOrComment (H := Reference.externals [] [])).
  vm_compute. reflexivity.
Defined.

Lemma AddRule_keeps_whitelisted_witness :
  IsWhitelisted (H := Reference.externals [] [])
    (afterAddRule (H := Reference.externals [] []) "example.com"
       (afterAddRule (H := Reference.externals [] []) "example.org"
          (NewInternalRuler false)))
    "example.org" = true.
Proof.
  apply (AddRule_keeps_whitelisted (H := Reference.externals [] [])
           "example.com" "example.org"
           (afterAddRule (H := Reference.externals [] []) "example.org"
              (NewInternalRuler false))
           _ true).
  - vm_compute. discriminate.
  - vm_compute. reflexivity.
  - vm_compute. reflexivity.
Defined.

Lemma RemoveRule_adds_nothing_witness :
  IsWhitelisted (H := Reference.externals [] [])
    (afterAddRule (H := Reference.externals [] []) "example.com"
       (afterAddRule (H := Reference.externals [] []) "example.org"
          (NewInternalRuler false)))
    "example.org" = true.
Proof.
  apply (RemoveRule_adds_nothing (H := Reference.externals [] [])
           "example.com" "example.org" _
           (afterRemoveRule (H := Reference.externals [] []) "example.com"
              (afterAddRule (H := Reference.externals [] []) "example.com"
                 (afterAddRule (H := Reference.externals [] []) "example.org"
                    (NewInternalRuler false))))
           true).
  - vm_compute. discriminate.
  - vm_compute. reflexivity.
  - vm_compute. reflexivity.
Defined.

Lemma AddRule_RemoveRule_verdict_witness :
  exists result' ruler2,
    RemoveRule (H := Reference.externals [] []) "ALL .org"
      (afterAddRule (H := Reference.externals [] []) "ALL .org"
         (NewInternalRuler true))
    = Some (result', ruler2)
    /\ forall subject,
         IsWhitelisted (H := Reference.externals [] []) ruler2 subject
         = IsWhitelisted (H := Reference.externals [] [])
             (NewInternalRuler true) subject.
Proof.
  apply (AddRule_RemoveRule_verdict (H := Reference.externals [] [])
           "ALL .org" (NewInternalRuler true) _ true).
  - vm_compute. discriminate.
  - intros Hkind. vm_compute in Hkind. discriminate.
  - vm_compute. reflexivity.
Defined.


Lemma broad_rule_whitelists_each_extension_witness :
  exists ruler',
    AddRule (H := Reference.externals ["de"; "com"] ["org"]) "RZDB example"
      (NewInternalRuler true) = Some (true, ruler')
    /\ IsWhitelisted (H := Reference.externals ["de"; "com"] ["org"]) ruler'
         "http://example.org/index.html" = true.
Proof.
  apply (broad_rule_whitelists_each_extension
           (H := Reference.externals ["de"; "com"] ["org"])
           "RZDB example" "http://example.org/index.html" "org").
  - vm_compute. discriminate.
  - vm_compute. reflexivity.
  - vm_compute. reflexivity.
  - apply list_elem_of_In. vm_compute. right. right. left. reflexivity.
  - vm_compute. discriminate.
  - vm_compute. reflexivity.
Defined.

Lemma suffix_rule_whitelists_what_ends_in_it_witness :
  exists ruler',
    AddRule (H := Reference.externals [] []) "ALL example.org"
      (NewInternalRuler false) = Some (true, ruler')
    /\ IsWhitelisted (H := Reference.externals [] []) ruler'
         "ads.example.org" = true.
Proof.
  apply (suffix_rule_whitelists_what_ends_in_it
           (H := Reference.externals [] [])
           "ALL example.org" "ads.example.org" "ads.example.org").
  - vm_compute. discriminate.
  - vm_compute. reflexivity.
  - vm_compute. lia.
  - vm_compute. discriminate.
  - vm_compute. reflexivity.
  - vm_compute. reflexivity.
Defined.

Lemma ExtractNetLocationFromURL_no_slash_witness :
  strings.Contains "example.org" "/" = false.
Proof.
  apply (ExtractNetLocationFromURL_no_slash (H := Reference.externals [] [])
           "http://example.org/a/b" "example.org").
  vm_compute. reflexivity.
Defined.

Lemma Split_JoinWithPipe_witness :
  strings.Split (JoinWithPipe ["com"; "org"; "co.uk"]) "|"
  = ["com"; "org"; "co.uk"].
Proof.
  apply Split_JoinWithPipe.
  - discriminate.
  - repeat apply Forall_cons_2; try apply Forall_nil_2; vm_compute;
      reflexivity.
Defined.

Lemma cleanupFlags_without_flag_witness :
  cleanupFlags ["ALL "; "ALL:"; "ALL#"; "ALL,"; "ALL@"] "all.example.org"
  = "all.example.org".
Proof.
  apply cleanupFlags_without_flag. vm_compute. reflexivity.
Defined.

Lemma getKnownExtensions_again_witness :
  getKnownExtensions (H := Reference.externals ["de"; "com"] ["org"])
    (set_extensions ["de"; "com"; "org"] (NewInternalRuler false))
  = Some (["de"; "com"; "org"],
          set_extensions ["de"; "com"; "org"] (NewInternalRuler false)).
Proof.
  apply (getKnownExtensions_again
           (H := Reference.externals ["de"; "com"] ["org"])
           (NewInternalRuler false)).
  vm_compute. reflexivity.
Defined.

Lemma processCleanupOutput_keeps_comments_witness :
  "# ads" ∈
    processCleanupOutput (H := Reference.externals [] [])
      {| intRuler :=
           afterAddRule (H := Reference.externals [] []) "example.org"
             (NewInternalRuler false) |}
      ["# ads"; "example.org"; "example.com"].
Proof.
  apply (processCleanupOutput_keeps_comments (H := Reference.externals [] [])).
  - apply list_elem_of_here.
  - vm_compute. reflexivity.
Defined.

Lemma processCleanupOutput_drops_witness :
  "example.org" ∉
    processCleanupOutput (H := Reference.externals [] [])
      {| intRuler :=
           afterAddRule (H := Reference.externals [] []) "example.org"
             (NewInternalRuler false) |}
      ["# ads"; "example.org"; "example.com"].
Proof.
  apply (processCleanupOutput_drops (H := Reference.externals [] [])).
  left. vm_compute. reflexivity.
Defined.

Lemma RemoveRule_returns_witness :
  exists ruler',
    RemoveRule (H := Reference.externals [] []) "foo.example.com"
      (NewInternalRuler true) = Some (true, ruler').
Proof.
  pose proof (proj2 (RemoveRule_returns (H := Reference.externals [] [])
                      "foo.example.com" (NewInternalRuler true))) as step.
  assert (NormalizeRule (H := Reference.externals [] []) "foo.example.com"
          <> "") as Hne by (vm_compute; discriminate).
  assert (removePanics (H := Reference.externals [] []) (NewInternalRuler true)
            (NormalizeRule (H := Reference.externals [] []) "foo.example.com")
          = false) as Hpanic by (vm_compute; reflexivity).
  assert (plainURLWithoutNetLocation (H := Reference.externals [] [])
            (NewInternalRuler true)
            (NormalizeRule (H := Reference.externals [] []) "foo.example.com")
          = false) as Hurl by (vm_compute; reflexivity).
  specialize (step Hne Hpanic). rewrite Hurl in step. exact step.
Defined.

Lemma reachable_present_empty_witness :
  present
    (afterRemoveRule (H := Reference.externals [] []) "example.com"
       (afterAddRule (H := Reference.externals [] []) "ALL .org"
          (NewInternalRuler true)))
  = ∅.
Proof.
  apply (reachable_present_empty (H := Reference.externals [] []) true).
  apply (reachable_remove (H := Reference.externals [] []) true "example.com"
           (afterAddRule (H := Reference.externals [] []) "ALL .org"
              (NewInternalRuler true))
           _ true).
  - apply (reachable_add (H := Reference.externals [] []) true "ALL .org"
             (NewInternalRuler true) _ true).
    + apply reachable_new.
    + vm_compute. reflexivity.
  - vm_compute. reflexivity.
Defined.

Lemma reachable_flags_witness :
  handle_complement
    (afterAddRule (H := Reference.externals [] []) "REG abc"
       (NewInternalRuler true)) = true
  /\ FlagsAll
       (afterAddRule (H := Reference.externals [] []) "REG abc"
          (NewInternalRuler true))
     = ["ALL "; "ALL:"; "ALL#"; "ALL,"; "ALL@"]
  /\ FlagsReg
       (afterAddRule (H := Reference.externals [] []) "REG abc"
          (NewInternalRuler true))
     = ["REG "; "REG:"; "REG#"; "REG,"; "REG@"]
  /\ FlagsRzdb
       (afterAddRule (H := Reference.externals [] []) "REG abc"
          (NewInternalRuler true))
     = ["RZD "; "RZD:"; "RZD#"; "RZD,"; "RZD@";
        "RZDB "; "RZDB:"; "RZDB#"; "RZDB,"; "RZDB@"].
Proof.
  apply (reachable_flags (H := Reference.externals [] []) true).
  apply (reachable_add (H := Reference.externals [] []) true "REG abc"
           (NewInternalRuler true) _ true).
  - apply reachable_new.
  - vm_compute. reflexivity.
Defined.

Lemma reachable_regex_in_step_witness :
  regex
    (afterRemoveRule (H := Reference.externals [] []) "REG abc"
       (afterAddRule (H := Reference.externals [] []) "REG abc"
          (NewInternalRuler false)))
  = "".
Proof.
  apply (reachable_regex_in_step (H := Reference.externals [] []) false).
  - apply (reachable_remove (H := Reference.externals [] []) false "REG abc"
             (afterAddRule (H := Reference.externals [] []) "REG abc"
                (NewInternalRuler false))
             _ true).
    + apply (reachable_add (H := Reference.externals [] []) false "REG abc"
               (NewInternalRuler false) _ true).
      * apply reachable_new.
      * vm_compute. reflexivity.
    + vm_compute. reflexivity.
  - vm_compute. reflexivity.
Defined.

Lemma regex_rule_added_then_removed_witness :
  exists ruler1,
    AddRule (H := Reference.externals [] []) "REG abc" (NewInternalRuler false)
    = Some (true, ruler1)
    /\ RemoveRule (H := Reference.externals [] []) "REG abc" ruler1
       = Some (true, NewInternalRuler false).
Proof.
  apply (regex_rule_added_then_removed (H := Reference.externals [] [])).
  - vm_compute. discriminate.
  - vm_compute. reflexivity.
  - vm_compute. reflexivity.
  - vm_compute. reflexivity.
  - vm_compute. discriminate.
  - vm_compute. reflexivity.
Defined.

Lemma AddRule_order_irrelevant_witness :
  IsWhitelisted (H := Reference.externals [] [])
    (afterAddRule (H := Reference.externals [] []) "example.com"
       (afterAddRule (H := Reference.externals [] []) "ALL .org"
          (NewInternalRuler true)))
    "ads.example.org"
  = IsWhitelisted (H := Reference.externals [] [])
      (afterAddRule (H := Reference.externals [] []) "ALL .org"
         (afterAddRule (H := Reference.externals [] []) "example.com"
            (NewInternalRuler true)))
      "ads.example.org".
Proof.
  apply (AddRule_order_irrelevant (H := Reference.externals [] [])
           "ALL .org" "example.com" (NewInternalRuler true)
           (afterAddRule (H := Reference.externals [] []) "ALL .org"
              (NewInternalRuler true))
           _
           (afterAddRule (H := Reference.externals [] []) "example.com"
              (NewInternalRuler true))
           _ true true true true).
  - vm_compute. discriminate.
  - vm_compute. discriminate.
  - vm_compute. reflexivity.
  - vm_compute. reflexivity.
  - vm_compute. reflexivity.
  - vm_compute. reflexivity.
Defined.
